(** * Tecken upload view: a shallow embedding of [tecken/upload/views.py]

    The development follows the source file top to bottom:
    - Python string primitives used by the view ([split], [in], [endswith],
      [lower], the regular expression [_not_hex_characters]);
    - [check_symbols_archive_file_listing];
    - [get_bucket_info];
    - the staging key (MD5 fingerprint of the listing);
    - the body of [upload_archive] as a function over an explicit world;
    - [_serialize_upload].

    Python [str] values are modelled as Rocq [string]s (byte strings holding
    the UTF-8 encoding).  Every operation used on archive member names
    (splitting on '/', substring test, suffix test against an ASCII constant
    after lowering, the hexadecimal character class) gives the same answer on
    the UTF-8 bytes as on the code points. *)

From Stdlib Require Import ZArith NArith Ascii String List Bool Lia Sorting.Sorted.
From stdpp Require Import base decidable option list strings gmap pretty.

Import ListNotations.
Local Open Scope string_scope.
Local Open Scope list_scope.

(** ** Python string primitives *)

Module PyStr.

(** [c.lower()] on one ASCII character. *)
Definition lower_char (c : ascii) : ascii :=
  let n := nat_of_ascii c in
  if (65 <=? n)%nat && (n <=? 90)%nat then ascii_of_nat (n + 32) else c.

(** [s.lower()] restricted to the ASCII letters. *)
Fixpoint lower (s : string) : string :=
  match s with
  | EmptyString => EmptyString
  | String c s' => String (lower_char c) (lower s')
  end.

(** [s.startswith(p)]. *)
Fixpoint startswith (s p : string) {struct p} : bool :=
  match p, s with
  | EmptyString, _ => true
  | String _ _, EmptyString => false
  | String a p', String b s' => Ascii.eqb a b && startswith s' p'
  end.

(** [sub in s]. *)
Fixpoint contains (sub s : string) : bool :=
  startswith s sub ||
  match s with
  | EmptyString => false
  | String _ s' => contains sub s'
  end.

(** [s.endswith(suffix)]. *)
Fixpoint endswith (s suffix : string) : bool :=
  String.eqb s suffix ||
  match s with
  | EmptyString => false
  | String _ s' => endswith s' suffix
  end.

(** [s.split(sep)] for a one-character separator: never the empty list. *)
Fixpoint split (sep : ascii) (s : string) : list string :=
  match s with
  | EmptyString => [EmptyString]
  | String c s' =>
      if Ascii.eqb c sep then EmptyString :: split sep s'
      else match split sep s' with
           | [] => [String c EmptyString]
           | w :: ws => String c w :: ws
           end
  end.

(** [sep.join(parts)]. *)
Fixpoint join (sep : string) (parts : list string) : string :=
  match parts with
  | [] => EmptyString
  | [p] => p
  | p :: ps => p +:+ sep +:+ join sep ps
  end.

(** No occurrence of the character [c] in [s]. *)
Fixpoint lacks (c : ascii) (s : string) : bool :=
  match s with
  | EmptyString => true
  | String a s' => negb (Ascii.eqb a c) && lacks c s'
  end.

(** [c.isspace()] on one ASCII character. *)
Definition is_space (c : ascii) : bool :=
  let n := nat_of_ascii c in
  ((9 <=? n)%nat && (n <=? 13)%nat) || ((28 <=? n)%nat && (n <=? 32)%nat).

Fixpoint lstrip (s : string) : string :=
  match s with
  | EmptyString => EmptyString
  | String c s' => if is_space c then lstrip s' else s
  end.

Fixpoint rstrip (s : string) : string :=
  match s with
  | EmptyString => EmptyString
  | String c s' =>
      match rstrip s' with
      | EmptyString => if is_space c then EmptyString else String c EmptyString
      | r => String c r
      end
  end.

(** [s.strip()], ASCII whitespace. *)
Definition strip (s : string) : string := rstrip (lstrip s).

(** [s[:n]]. *)
Fixpoint take (n : nat) (s : string) : string :=
  match n, s with
  | O, _ => EmptyString
  | S _, EmptyString => EmptyString
  | S n', String c s' => String c (take n' s')
  end.

End PyStr.

(** ** The archive listing validator *)

(** The character class of [re.compile(r'[^a-f0-9]', re.I)], complemented. *)
Definition is_hex_char (c : ascii) : bool :=
  let n := nat_of_ascii c in
  ((48 <=? n)%nat && (n <=? 57)%nat)
  || ((97 <=? n)%nat && (n <=? 102)%nat)
  || ((65 <=? n)%nat && (n <=? 70)%nat).

(** [_not_hex_characters.findall(s)]: every match is a single character. *)
Fixpoint _not_hex_characters_findall (s : string) : list string :=
  match s with
  | EmptyString => []
  | String c s' =>
      if is_hex_char c then _not_hex_characters_findall s'
      else String c EmptyString :: _not_hex_characters_findall s'
  end.

(** A member of the archive, as yielded by [get_archive_members]. *)
Record FileMember := mkFileMember {
  name : string;
  size : N
}.

Definition snippet_error (snippet : string) : string :=
  "Content of archive file contains the snippet '" +:+ snippet +:+
  "' which is not allowed".

Definition unrecognized_error : string :=
  "Unrecognized file pattern. Should only be <module>/<hex>/<file> " +:+
  "or <name>-symbols.txt and nothing else.".

(** The inner [for snippet in settings.DISALLOWED_SYMBOLS_SNIPPETS] loop:
    the first snippet found in the name, if any. *)
Fixpoint first_snippet_in (snippets : list string) (nm : string) : option string :=
  match snippets with
  | [] => None
  | snippet :: rest =>
      if PyStr.contains snippet nm then Some snippet
      else first_snippet_in rest nm
  end.

(** The naming rules applied once no snippet was found: [true] stands for
    the [continue] statements. *)
Definition pattern_recognized (nm : string) : bool :=
  let split := PyStr.split "/" nm in
  if (length split =? 3)%nat then
    match _not_hex_characters_findall (nth 1 split EmptyString) with
    | [] => true
    | _ :: _ => false
    end
  else if (length split =? 1)%nat then
    PyStr.endswith (PyStr.lower nm) "-symbols.txt"
  else false.

Fixpoint check_symbols_archive_file_listing
         (DISALLOWED_SYMBOLS_SNIPPETS : list string)
         (file_listings : list FileMember) : option string :=
  match file_listings with
  | [] => None
  | file_listing :: rest =>
      match first_snippet_in DISALLOWED_SYMBOLS_SNIPPETS (name file_listing) with
      | Some snippet => Some (snippet_error snippet)
      | None =>
          if pattern_recognized (name file_listing)
          then check_symbols_archive_file_listing DISALLOWED_SYMBOLS_SNIPPETS rest
          else Some unrecognized_error
      end
  end.

(** ** Glob matching: [fnmatch.fnmatch] on POSIX

    [fnmatch.translate] turns a pattern into a regular expression piece by
    piece; [glob_tok] is one such piece.  On POSIX [os.path.normcase] is the
    identity, so [fnmatch.fnmatch] is [fnmatch.fnmatchcase]. *)

Module Fnmatch.

Inductive glob_tok :=
| GStar                                    (* '*'  ->  .*  *)
| GAny                                     (* '?'  ->  .   *)
| GLit (c : ascii)                         (* re.escape(c) *)
| GSet (negated : bool) (stuff : string).  (* '[...]' *)

(** The scan [while j < n and pat[j] != ']'] : the text before the first
    ']' and the text after it. *)
Fixpoint until_bracket (s : string) : option (string * string) :=
  match s with
  | EmptyString => None
  | String c s' =>
      if Ascii.eqb c "]" then Some (EmptyString, s')
      else match until_bracket s' with
           | Some (stuff, rest) => Some (String c stuff, rest)
           | None => None
           end
  end.

(** What follows a '[': the set's text and the rest of the pattern, when
    there is a closing ']'.  A leading '!' and a ']' right after it (or
    right after the '[') belong to the set. *)
Definition bracket (s : string) : option (string * string) :=
  let '(bang, s1) :=
    match s with
    | String "!" s' => (String "!" EmptyString, s')
    | _ => (EmptyString, s)
    end in
  let '(close, s2) :=
    match s1 with
    | String "]" s' => (String "]" EmptyString, s')
    | _ => (EmptyString, s1)
    end in
  match until_bracket s2 with
  | Some (stuff, rest) => Some (bang +:+ close +:+ stuff, rest)
  | None => None
  end.

(** [fnmatch.translate]; the fuel bounds the number of pieces, and the
    length of the pattern is always enough. *)
Fixpoint translate_go (fuel : nat) (pat : string) : list glob_tok :=
  match fuel, pat with
  | O, _ => []
  | _, EmptyString => []
  | S fuel', String c rest =>
      if Ascii.eqb c "*" then GStar :: translate_go fuel' rest
      else if Ascii.eqb c "?" then GAny :: translate_go fuel' rest
      else if Ascii.eqb c "[" then
        match bracket rest with
        | None => GLit "[" :: translate_go fuel' rest
        | Some (String "!" stuff, rest') => GSet true stuff :: translate_go fuel' rest'
        | Some (stuff, rest') => GSet false stuff :: translate_go fuel' rest'
        end
      else GLit c :: translate_go fuel' rest
  end.

Definition translate (pat : string) : list glob_tok :=
  translate_go (String.length pat) pat.

(** Membership in a regular-expression character set: single characters
    and ranges [lo-hi]; a reversed range holds no character. *)
Fixpoint in_set (fuel : nat) (stuff : string) (c : ascii) : bool :=
  match fuel, stuff with
  | O, _ => false
  | _, EmptyString => false
  | S fuel', String lo (String "-" (String hi rest)) =>
      ((nat_of_ascii lo <=? nat_of_ascii c)%nat && (nat_of_ascii c <=? nat_of_ascii hi)%nat)
      || in_set fuel' rest c
  | S fuel', String a rest => Ascii.eqb a c || in_set fuel' rest c
  end.

(** Matching the whole string against the translated pattern
    ([re.compile(res).match], with the pattern anchored at both ends). *)
Fixpoint matches (toks : list glob_tok) (s : string) : bool :=
  match toks with
  | [] => match s with EmptyString => true | _ => false end
  | GStar :: toks' =>
      (fix star (s : string) : bool :=
         matches toks' s ||
         match s with
         | EmptyString => false
         | String _ s' => star s'
         end) s
  | GAny :: toks' =>
      match s with
      | EmptyString => false
      | String _ s' => matches toks' s'
      end
  | GLit c :: toks' =>
      match s with
      | EmptyString => false
      | String a s' => Ascii.eqb a c && matches toks' s'
      end
  | GSet negated stuff :: toks' =>
      match s with
      | EmptyString => false
      | String a s' =>
          xorb negated (in_set (String.length stuff) stuff a) && matches toks' s'
      end
  end.

Definition fnmatch (name pat : string) : bool := matches (translate pat) name.

End Fnmatch.

(** ** Resolving the storage target of a user *)

Record User := mkUser { email : string }.

(** What the view reads from an [S3Bucket] (the class lives in [tecken.s3]). *)
Record BucketInfo := mkBucketInfo {
  bucket : string;
  region : option string;
  endpoint_url : option string
}.

(** A Python [dict] with string keys, in insertion order. *)
Definition dict (V : Type) := list (string * V).

Fixpoint dict_get {V : Type} (d : dict V) (k : string) : option V :=
  match d with
  | [] => None
  | (k', v) :: d' => if String.eqb k' k then Some v else dict_get d' k
  end.

Definition dict_keys {V : Type} (d : dict V) : list string := map fst d.

(** Truth value of a string: [if exception:]. *)
Definition truthy (s : string) : bool :=
  match s with EmptyString => false | String _ _ => true end.

Section BucketInfo.

(** [str.lower], [fnmatch.fnmatch] and the [S3Bucket] constructor. *)
Variable str_lower : string -> string.
Variable fnmatch : string -> string -> bool.
Variable S3Bucket : string -> BucketInfo.

Variable UPLOAD_DEFAULT_URL : string.
Variable UPLOAD_URL_EXCEPTIONS : dict string.

(** The [for email_or_wildcard in settings.UPLOAD_URL_EXCEPTIONS] loop
    with its [break]. *)
Fixpoint wildcard_scan (email_lower : string) (keys : list string) : option string :=
  match keys with
  | [] => None
  | email_or_wildcard :: keys' =>
      if fnmatch email_lower (str_lower email_or_wildcard)
      then dict_get UPLOAD_URL_EXCEPTIONS email_or_wildcard
      else wildcard_scan email_lower keys'
  end.

(** The value of [exception] before [if exception:]. *)
Definition find_exception (user : User) : option string :=
  let exceptions := UPLOAD_URL_EXCEPTIONS in
  match dict_get exceptions (str_lower (email user)) with
  | Some exception => Some exception
  | None => wildcard_scan (str_lower (email user)) (dict_keys UPLOAD_URL_EXCEPTIONS)
  end.

(** The value of [url] handed to [S3Bucket]. *)
Definition bucket_url (user : User) : string :=
  let url := UPLOAD_DEFAULT_URL in
  match find_exception user with
  | Some exception => if truthy exception then exception else url
  | None => url
  end.

Definition get_bucket_info (user : User) : BucketInfo :=
  S3Bucket (bucket_url user).

End BucketInfo.

(** ** [hashlib.md5(...).hexdigest()]

    RFC 1321 on 32-bit words held in [N], with the wrap-around written out. *)

Module MD5.

Local Open Scope N_scope.

Definition mask32 : N := 0xffffffff.

Definition add32 (a b : N) : N := N.land (a + b) mask32.
Definition not32 (a : N) : N := N.lxor a mask32.
Definition rotl32 (x c : N) : N :=
  N.lor (N.land (N.shiftl x c) mask32) (N.shiftr x (32 - c)).

Definition s_table : list N :=
  [7; 12; 17; 22; 7; 12; 17; 22; 7; 12; 17; 22; 7; 12; 17; 22;
   5;  9; 14; 20; 5;  9; 14; 20; 5;  9; 14; 20; 5;  9; 14; 20;
   4; 11; 16; 23; 4; 11; 16; 23; 4; 11; 16; 23; 4; 11; 16; 23;
   6; 10; 15; 21; 6; 10; 15; 21; 6; 10; 15; 21; 6; 10; 15; 21].

Definition k_table : list N :=
  [0xd76aa478; 0xe8c7b756; 0x242070db; 0xc1bdceee;
   0xf57c0faf; 0x4787c62a; 0xa8304613; 0xfd469501;
   0x698098d8; 0x8b44f7af; 0xffff5bb1; 0x895cd7be;
   0x6b901122; 0xfd987193; 0xa679438e; 0x49b40821;
   0xf61e2562; 0xc040b340; 0x265e5a51; 0xe9b6c7aa;
   0xd62f105d; 0x02441453; 0xd8a1e681; 0xe7d3fbc8;
   0x21e1cde6; 0xc33707d6; 0xf4d50d87; 0x455a14ed;
   0xa9e3e905; 0xfcefa3f8; 0x676f02d9; 0x8d2a4c8a;
   0xfffa3942; 0x8771f681; 0x6d9d6122; 0xfde5380c;
   0xa4beea44; 0x4bdecfa9; 0xf6bb4b60; 0xbebfbc70;
   0x289b7ec6; 0xeaa127fa; 0xd4ef3085; 0x04881d05;
   0xd9d4d039; 0xe6db99e5; 0x1fa27cf8; 0xc4ac5665;
   0xf4292244; 0x432aff97; 0xab9423a7; 0xfc93a039;
   0x655b59c3; 0x8f0ccc92; 0xffeff47d; 0x85845dd1;
   0x6fa87e4f; 0xfe2ce6e0; 0xa3014314; 0x4e0811a1;
   0xf7537e82; 0xbd3af235; 0x2ad7d2bb; 0xeb86d391].

(** The message as bytes, the 0x80 marker, zero padding up to 56 modulo
    64, and the bit length as 8 little-endian bytes. *)
Definition le_bytes (count : nat) (x : N) : list N :=
  map (fun i => N.land (N.shiftr x (8 * N.of_nat i)) 0xff) (seq 0 count).

Definition pad (msg : list N) : list N :=
  let len := N.of_nat (length msg) in
  let zeros := N.to_nat ((55 + 64 - len mod 64) mod 64) in
  msg ++ [0x80] ++ repeat 0 zeros ++ le_bytes 8 (N.land (8 * len) 0xffffffffffffffff).

Fixpoint le_word (bytes : list N) : N :=
  match bytes with
  | [] => 0
  | b :: bs => b + 256 * le_word bs
  end.

(** Sixteen little-endian words out of a 64-byte block. *)
Fixpoint words_of (count : nat) (block : list N) : list N :=
  match count with
  | O => []
  | S count' => le_word (firstn 4 block) :: words_of count' (skipn 4 block)
  end.

Record state := mkState { sA : N; sB : N; sC : N; sD : N }.

Definition init : state :=
  mkState 0x67452301 0xefcdab89 0x98badcfe 0x10325476.

Definition round (M : list N) (st : state) (i : nat) : state :=
  let '(mkState a b c d) := st in
  let '(f, g) :=
    if (i <? 16)%nat then (N.lor (N.land b c) (N.land (not32 b) d), i)
    else if (i <? 32)%nat then
      (N.lor (N.land d b) (N.land (not32 d) c), ((5 * i + 1) mod 16)%nat)
    else if (i <? 48)%nat then
      (N.lxor (N.lxor b c) d, ((3 * i + 5) mod 16)%nat)
    else (N.lxor c (N.lor b (not32 d)), ((7 * i) mod 16)%nat) in
  let f := add32 (add32 (add32 f a) (nth i k_table 0)) (nth g M 0) in
  mkState d (add32 b (rotl32 f (nth i s_table 0))) b c.

Definition compress (st : state) (block : list N) : state :=
  let M := words_of 16 block in
  let '(mkState a b c d) := fold_left (round M) (seq 0 64) st in
  mkState (add32 (sA st) a) (add32 (sB st) b) (add32 (sC st) c) (add32 (sD st) d).

Fixpoint blocks (count : nat) (st : state) (bytes : list N) : state :=
  match count with
  | O => st
  | S count' => blocks count' (compress st (firstn 64 bytes)) (skipn 64 bytes)
  end.

Definition digest (msg : list N) : list N :=
  let padded := pad msg in
  let '(mkState a b c d) := blocks (length padded / 64) init padded in
  le_bytes 4 a ++ le_bytes 4 b ++ le_bytes 4 c ++ le_bytes 4 d.

Definition hex_digit (x : N) : ascii :=
  nth (N.to_nat x)
      ["0"; "1"; "2"; "3"; "4"; "5"; "6"; "7";
       "8"; "9"; "a"; "b"; "c"; "d"; "e"; "f"]%char "0"%char.

Fixpoint hex (bytes : list N) : string :=
  match bytes with
  | [] => EmptyString
  | b :: bs => String (hex_digit (b / 16)) (String (hex_digit (b mod 16)) (hex bs))
  end.

(** [s.encode('utf-8')]: the string already holds the encoded bytes. *)
Fixpoint encode (s : string) : list N :=
  match s with
  | EmptyString => []
  | String c s' => N_of_ascii c :: encode s'
  end.

Definition hexdigest (s : string) : string := hex (digest (encode s)).

End MD5.

(** ** The staging key *)

Definition newline : string := String (ascii_of_nat 10) EmptyString.

(** ['{}:{}'.format(x.name, x.size)]. *)
Definition listing_line (x : FileMember) : string :=
  name x +:+ ":" +:+ pretty (size x).

(** ['\n'.join('{}:{}'.format(x.name, x.size) for x in file_listing)]. *)
Definition listing_content (file_listing : list FileMember) : string :=
  PyStr.join newline (map listing_line file_listing).

(** [hashlib.md5(content.encode('utf-8')).hexdigest()[:12]]. *)
Definition content_hash (file_listing : list FileMember) : string :=
  PyStr.take 12 (MD5.hexdigest (listing_content file_listing)).

(** ['inbox/{date}/{content_hash}/{name}'.format(...)], where [date] is
    [timezone.now().strftime('%Y-%m-%d')]. *)
Definition inbox_key_of (date : string) (file_listing : list FileMember)
           (name : string) : string :=
  "inbox/" +:+ date +:+ "/" +:+ content_hash file_listing +:+ "/" +:+ name.

(** ** Paths: [os.path.join] and [os.path.dirname] on POSIX *)

Module OsPath.

(** [os.path.join(a, b)]. *)
Definition join (a b : string) : string :=
  if PyStr.startswith b "/" then b
  else if String.eqb a EmptyString || PyStr.endswith a "/" then a +:+ b
  else a +:+ "/" +:+ b.

(** [p[:p.rfind('/') + 1]]. *)
Fixpoint head (p : string) : string :=
  match p with
  | EmptyString => EmptyString
  | String c p' =>
      if Ascii.eqb c "/" || negb (PyStr.lacks "/" p')
      then String c (head p') else EmptyString
  end.

(** [head.rstrip('/')]. *)
Fixpoint rstrip_slash (s : string) : string :=
  match s with
  | EmptyString => EmptyString
  | String c s' =>
      match rstrip_slash s' with
      | EmptyString => if Ascii.eqb c "/" then EmptyString else String c EmptyString
      | r => String c r
      end
  end.

(** [os.path.dirname(p)]: a head made only of slashes is kept. *)
Definition dirname (p : string) : string :=
  let h := head p in
  match rstrip_slash h with
  | EmptyString => h
  | r => r
  end.

End OsPath.

(** ** The world around one request *)

(** Modelled from the spec: the [Upload] record of [tecken.upload.models]
    (filename, size, staging location, target bucket, uploader, download
    source, creation, completion and cancellation timestamps, attempt
    counter, skipped-member list). *)
Module Upload.
Record t := mk {
  id : Z;
  user : User;
  filename : string;
  inbox_key : option string;
  inbox_filepath : option string;
  bucket_name : string;
  bucket_region : option string;
  bucket_endpoint_url : option string;
  size : N;
  download_url : option string;
  created_at : Z;
  completed_at : option Z;
  cancelled_at : option Z;
  attempts : Z;
  skipped_keys : option (list string)
}.
End Upload.

(** [django.core.cache.cache]: a value and the time at which it expires.
    An entry set at time [now] with timeout [ttl] is returned by [get] at
    every time before [now + ttl]. *)
Module Cache.
Record entry := mkEntry { value : bool; expires : Z }.

Definition get (c : gmap string entry) (now : Z) (key : string) : option bool :=
  match c !! key with
  | Some e => if (now <? expires e)%Z then Some (value e) else None
  | None => None
  end.

Definition set (c : gmap string entry) (now : Z) (key : string)
           (v : bool) (ttl : Z) : gmap string entry :=
  <[key := mkEntry v (now + ttl)%Z]> c.
End Cache.

Record Settings := mkSettings {
  DISALLOWED_SYMBOLS_SNIPPETS : list string;
  UPLOAD_DEFAULT_URL : string;
  UPLOAD_URL_EXCEPTIONS : dict string;
  UPLOAD_INBOX_DIRECTORY : option string;
  UPLOAD_REATTEMPT_LIMIT_SECONDS : Z;
  UPLOAD_REATTEMPT_LIMIT_TIMES : Z
}.

Inductive Exn :=
| ImproperlyConfigured (bucket_name : string) (region endpoint_url : option string)
| ClientError (code : string)
| OtherException (what : string)
| UnboundLocalError (variable : string)
| IndexError
| ZeroDivisionError.

#[warnings="-register-all"]
Inductive Json :=
| JNull
| JInt (n : Z)
| JStr (s : string)
| JTime (t : Z)
| JList (items : list Json)
| JDict (items : list (string * Json)).

Inductive Outcome :=
| JsonResponse (payload : Json) (status : Z)
| Raised (e : Exn).

(** What the request does to the outside, in order. *)
Inductive Event :=
| EvRequestsGet (url : string)
| EvHeadBucket (bucket_name : string)
| EvMakedirs (dir : string)
| EvWriteFile (path : string) (content : string)
| EvIsFile (path : string) (visible : bool)
| EvSleep (seconds : Z)
| EvPutObject (bucket_name key : string) (body : string)
| EvDelay (upload_id : Z).

Module UploadedFile.
Record t := mk { size : N; content : string }.
End UploadedFile.

Record Request := mkRequest {
  FILES : dict UploadedFile.t;
  POST : dict string;
  request_user : User
}.

Inductive FormResult :=
| FormValid (url : string) (upload_name : string) (upload_size : N)
| FormInvalid (errors : dict (list string)).

Inductive ArchiveResult :=
| Members (file_listing : list FileMember)
| BadZipfile (message : string)
| UnrecognizedArchiveFileExtension (extension : string).

(** The collaborators of the view: library calls and the modules of the
    project that the view imports, each as the function of its arguments
    that one request observes.  [os_path_isfile] depends on the time, a
    network filesystem showing a file some time after it was written.
    [os_makedirs] and [write_file] are [os.makedirs] and the
    [open(...)]/[f.write(...)] of the staged file, which can raise;
    [store_seconds] and [upload_seconds] are what the clock shows to have
    passed between the two [time.time()] readings around a write and around
    a [put_object] that succeeded. *)
Record Env := mkEnv {
  UploadByDownloadForm : dict string -> FormResult;
  requests_get : string -> string;
  get_archive_members : string -> string -> ArchiveResult;
  str_lower : string -> string;
  fnmatch : string -> string -> bool;
  S3Bucket : string -> BucketInfo;
  head_bucket : BucketInfo -> option Exn;
  put_object : BucketInfo -> string -> string -> option Exn;
  strftime_Ymd : Z -> string;
  os_path_isdir : string -> bool;
  os_path_isfile : string -> Z -> bool;
  os_makedirs : string -> option Exn;
  write_file : string -> string -> option Exn;
  store_seconds : string -> string -> N;
  upload_seconds : string -> string -> string -> N
}.

(** The Upload table, the id sequence, the cache and the clock (seconds). *)
Record World := mkWorld {
  uploads : list Upload.t;
  next_id : Z;
  cache : gmap string Cache.entry;
  clock : Z
}.

(** ** A state and early-exit monad for the body of the view

    A computation reads and writes the world, appends to the trace of
    events, and either goes on with a value, or leaves the view with a
    response or an exception.  [OutOfFuel] is the answer of a loop whose
    iteration bound was too small. *)

Record St := mkSt { world : World; trace : list Event }.

Inductive Res (A : Type) :=
| Go (a : A) (s : St)
| Leave (o : Outcome) (s : St)
| OutOfFuel.
Arguments Go {A} a s.
Arguments Leave {A} o s.
Arguments OutOfFuel {A}.

Definition M (A : Type) : Type := St -> Res A.

Definition ret {A : Type} (a : A) : M A := fun s => Go a s.

Definition bind {A B : Type} (m : M A) (k : A -> M B) : M B :=
  fun s =>
    match m s with
    | Go a s' => k a s'
    | Leave o s' => Leave o s'
    | OutOfFuel => OutOfFuel
    end.

Declare Scope view_scope.
Delimit Scope view_scope with view.
Notation "'let*' x ':=' m 'in' k" := (bind m (fun x => k))
  (at level 10, x pattern, m at level 100, k at level 200) : view_scope.
Notation "m1 ';;;' m2" := (bind m1 (fun _ => m2))
  (at level 100, m2 at level 200, right associativity) : view_scope.

Local Open Scope view_scope.

Definition respond {A : Type} (payload : Json) (status : Z) : M A :=
  fun s => Leave (JsonResponse payload status) s.

Definition raise {A : Type} (e : Exn) : M A :=
  fun s => Leave (Raised e) s.

Definition emit (e : Event) : M unit :=
  fun s => Go tt (mkSt (world s) (trace s ++ [e])).

Definition emit_all (es : list Event) : M unit :=
  fun s => Go tt (mkSt (world s) (trace s ++ es)).

Definition get_world : M World := fun s => Go (world s) s.

Definition put_world (w : World) : M unit :=
  fun s => Go tt (mkSt w (trace s)).

(** [timezone.now()] and [time.time()]: a reading of the clock.  Time is
    discrete; two readings coincide when the clock did not move between
    them.  Between two readings the clock moves by what the staging call
    takes, which the view measures as [t1 - t0], and by the sleeps of the
    poll; the other calls of a request are not timed. *)
Definition now : M Z := fun s => Go (clock (world s)) s.

(** The time a call takes. *)
Definition elapse (seconds : N) : M unit :=
  fun s =>
    let w := world s in
    Go tt (mkSt (mkWorld (uploads w) (next_id w) (cache w)
                         (clock w + Z.of_N seconds)%Z)
                (trace s)).

(** [time.sleep(seconds)]. *)
Definition sleep (seconds : Z) : M unit :=
  fun s =>
    let w := world s in
    Go tt (mkSt (mkWorld (uploads w) (next_id w) (cache w) (clock w + seconds)%Z)
                (trace s ++ [EvSleep seconds])).

Definition error_payload (message : string) : Json :=
  JDict [("error", JStr message)].

(** ** The stuck-upload scan *)

Section Reattempt.

Variable settings : Settings.

(** The [Upload.objects.filter(...)] of the scan at time [t]. *)
Definition is_incomplete (t : Z) (u : Upload.t) : bool :=
  bool_decide (Upload.completed_at u = None)
  && bool_decide (Upload.cancelled_at u = None)
  && (Upload.created_at u <? t - UPLOAD_REATTEMPT_LIMIT_SECONDS settings)%Z
  && (Upload.attempts u <? UPLOAD_REATTEMPT_LIMIT_TIMES settings)%Z.

Definition incomplete_uploads (t : Z) (table : list Upload.t) : list Upload.t :=
  List.filter (is_incomplete t) table.

(** [.order_by('created_at')]: a stable insertion sort; rows created at
    the same time stay in the order of the table. *)
Fixpoint insert_by_created_at (u : Upload.t) (sorted : list Upload.t) : list Upload.t :=
  match sorted with
  | [] => [u]
  | v :: rest =>
      if (Upload.created_at u <=? Upload.created_at v)%Z then u :: v :: rest
      else v :: insert_by_created_at u rest
  end.

Definition order_by_created_at (l : list Upload.t) : list Upload.t :=
  fold_right insert_by_created_at [] l.

(** [f'reattempt:{old_upload_obj.id}']. *)
Definition cache_key (upload_id : Z) : string :=
  "reattempt:" +:+ pretty upload_id.

(** One turn of [for old_upload_obj in ...]: the ids dispatched so far
    and the cache. *)
Definition reattempt_one (t : Z) (acc : list Z * gmap string Cache.entry)
           (old_upload_obj : Upload.t) : list Z * gmap string Cache.entry :=
  let '(dispatched, c) := acc in
  let key := cache_key (Upload.id old_upload_obj) in
  match Cache.get c t key with
  | Some true => (dispatched, c)
  | _ =>
      (dispatched ++ [Upload.id old_upload_obj],
       Cache.set c t key true (UPLOAD_REATTEMPT_LIMIT_SECONDS settings))
  end.

(** The whole scan at time [t]: the ids handed to
    [upload_inbox_upload.delay], in order, and the cache afterwards. *)
Definition reattempt_scan (t : Z) (table : list Upload.t)
           (c : gmap string Cache.entry) : list Z * gmap string Cache.entry :=
  fold_left (reattempt_one t)
            (order_by_created_at (incomplete_uploads t table)) ([], c).

(** Scans run one after the other, each at its time and on the table as
    it is then: the dispatches as (time, id), and the cache. *)
Fixpoint run_scans (scans : list (Z * list Upload.t)) (c : gmap string Cache.entry)
  : list (Z * Z) * gmap string Cache.entry :=
  match scans with
  | [] => ([], c)
  | (t, table) :: later =>
      let '(ids, c') := reattempt_scan t table c in
      let '(log, c'') := run_scans later c' in
      (map (pair t) ids ++ log, c'')
  end.

End Reattempt.

(** ** [_serialize_upload] *)

Definition json_opt_str (o : option string) : Json :=
  match o with Some s => JStr s | None => JNull end.

Definition json_opt_time (o : option Z) : Json :=
  match o with Some t => JTime t | None => JNull end.

(** [upload.skipped_keys or []]. *)
Definition skipped_keys_or_empty (o : option (list string)) : list string :=
  match o with
  | Some (k :: ks) => k :: ks
  | _ => []
  end.

Definition _serialize_upload (upload : Upload.t) : Json :=
  JDict [
    ("id", JInt (Upload.id upload));
    ("size", JInt (Z.of_N (Upload.size upload)));
    ("filename", JStr (Upload.filename upload));
    ("bucket", JStr (Upload.bucket_name upload));
    ("region", json_opt_str (Upload.bucket_region upload));
    ("download_url", json_opt_str (Upload.download_url upload));
    ("completed_at", json_opt_time (Upload.completed_at upload));
    ("created_at", JTime (Upload.created_at upload));
    ("user", JStr (email (Upload.user upload)));
    ("skipped_keys", JList (map JStr (skipped_keys_or_empty (Upload.skipped_keys upload))))
  ].

(** ** [upload_archive] *)

Definition dquote : string := String (ascii_of_nat 34) EmptyString.

Section View.

Variable settings : Settings.
Variable env : Env.

(** The uploaded file, or the file behind the posted URL: the bytes, the
    name, the size and the URL. *)
Definition receive (request : Request) : M (string * string * N * option string) :=
  match FILES request with
  | (name, upload) :: _ =>
      ret (UploadedFile.content upload, name, UploadedFile.size upload, None)
  | [] =>
      match dict_get (POST request) "url" with
      | Some (String _ _) =>
          match UploadByDownloadForm env (POST request) with
          | FormValid url name size =>
              emit (EvRequestsGet url) ;;;
              ret (requests_get env url, name, size, Some url)
          | FormInvalid [] => raise (UnboundLocalError "size")
          | FormInvalid ((_, []) :: _) => raise IndexError
          | FormInvalid ((_, message :: _) :: _) =>
              respond (error_payload message) 400
          end
      | _ =>
          respond
            (error_payload "Must be multipart form data with at least one file")
            400
      end
  end.

(** [list(get_archive_members(upload, name))] with its two handlers. *)
Definition list_members (upload name : string) : M (list FileMember) :=
  match get_archive_members env upload name with
  | Members file_listing => ret file_listing
  | BadZipfile message => respond (error_payload message) 400
  | UnrecognizedArchiveFileExtension extension =>
      respond
        (error_payload
           ("Unrecognized archive file extension " +:+ dquote +:+ extension +:+ dquote))
        400
  end.

Definition validate (file_listing : list FileMember) : M unit :=
  match check_symbols_archive_file_listing
          (DISALLOWED_SYMBOLS_SNIPPETS settings) file_listing with
  | Some error =>
      if truthy error then respond (error_payload (PyStr.strip error)) 400
      else ret tt
  | None => ret tt
  end.

(** [bucket_info.s3_client.head_bucket(Bucket=bucket_info.name)] inside
    its [try]. *)
Definition confirm_bucket (bucket_info : BucketInfo) : M unit :=
  emit (EvHeadBucket (bucket bucket_info)) ;;;
  match head_bucket env bucket_info with
  | None => ret tt
  | Some (ClientError code) =>
      if String.eqb code "404" then
        raise (ImproperlyConfigured (bucket bucket_info) (region bucket_info)
                                    (endpoint_url bucket_info))
      else raise (ClientError code)
  | Some exception => raise exception
  end.

(** [Upload.objects.create(...)]: the fields not given take the defaults
    of the model. *)
Definition Upload_objects_create (user : User) (filename : string)
           (inbox_key inbox_filepath : option string) (bucket_info : BucketInfo)
           (size : N) (download_url : option string) : M Upload.t :=
  fun s =>
    let w := world s in
    let upload_obj :=
      Upload.mk (next_id w) user filename inbox_key inbox_filepath
                (bucket bucket_info) (region bucket_info) (endpoint_url bucket_info)
                size download_url (clock w) None None 0 None in
    Go upload_obj
       (mkSt (mkWorld (uploads w ++ [upload_obj]) (next_id w + 1)%Z (cache w) (clock w))
             (trace s)).

(** The [while not os.path.isfile(inbox_filepath)] loop. *)
Fixpoint wait_for_file (fuel : nat) (inbox_filepath : string) (attempts : Z) : M unit :=
  match fuel with
  | O => fun _ => OutOfFuel
  | S fuel' =>
      let* t := now in
      let visible := os_path_isfile env inbox_filepath t in
      emit (EvIsFile inbox_filepath visible) ;;;
      if visible then ret tt
      else
        let attempts := (attempts + 1)%Z in
        sleep attempts ;;;
        if (attempts >? 4)%Z then ret tt
        else wait_for_file fuel' inbox_filepath attempts
  end.

(** [store_rate = size / store_time] and [upload_rate = size /
    upload_time]: the size is not zero here, and the division of it by a
    float that is zero raises. *)
Definition rate (t0 t1 : Z) : M unit :=
  let store_time := (t1 - t0)%Z in
  if (store_time =? 0)%Z then raise ZeroDivisionError else ret tt.

Definition store_in_inbox_directory (fuel : nat) (directory : string)
           (request : Request) (upload name key : string)
           (bucket_info : BucketInfo) (size : N) (url : option string) : M Upload.t :=
  let inbox_filepath := OsPath.join directory key in
  let inbox_filedir := OsPath.dirname inbox_filepath in
  (if os_path_isdir env inbox_filedir then ret tt
   else
     emit (EvMakedirs inbox_filedir) ;;;
     match os_makedirs env inbox_filedir with
     | None => ret tt
     | Some exception => raise exception
     end) ;;;
  let* upload_obj :=
    Upload_objects_create (request_user request) name None (Some inbox_filepath)
                          bucket_info size url in
  let* t0 := now in
  emit (EvWriteFile inbox_filepath upload) ;;;
  match write_file env inbox_filepath upload with
  | Some exception => raise exception
  | None =>
      elapse (store_seconds env inbox_filepath upload) ;;;
      let* t1 := now in
      rate t0 t1 ;;;
      wait_for_file fuel inbox_filepath 0 ;;;
      ret upload_obj
  end.

Definition upload_to_inbox (request : Request) (upload name key : string)
           (bucket_info : BucketInfo) (size : N) (url : option string) : M Upload.t :=
  let* upload_obj :=
    Upload_objects_create (request_user request) name (Some key) None
                          bucket_info size url in
  let* t0 := now in
  emit (EvPutObject (bucket bucket_info) key upload) ;;;
  match put_object env bucket_info key upload with
  | Some exception => raise exception
  | None =>
      elapse (upload_seconds env (bucket bucket_info) key upload) ;;;
      let* t1 := now in
      rate t0 t1 ;;;
      ret upload_obj
  end.

(** The scan that ends every accepted request. *)
Definition reattempt_incomplete : M unit :=
  let* w := get_world in
  match reattempt_scan settings (clock w) (uploads w) (cache w) with
  | (ids, c) =>
      emit_all (map EvDelay ids) ;;;
      put_world (mkWorld (uploads w) (next_id w) c (clock w))
  end.

Definition upload_archive_body (fuel : nat) (request : Request) : M Outcome :=
  let* (upload, name, size, url) := receive request in
  (if (size =? 0)%N then respond (error_payload "File size 0") 400 else ret tt) ;;;
  let* file_listing := list_members upload name in
  validate file_listing ;;;
  let bucket_info :=
    get_bucket_info (str_lower env) (fnmatch env) (S3Bucket env)
                    (UPLOAD_DEFAULT_URL settings) (UPLOAD_URL_EXCEPTIONS settings)
                    (request_user request) in
  confirm_bucket bucket_info ;;;
  let* t := now in
  let key := inbox_key_of (strftime_Ymd env t) file_listing name in
  let* upload_obj :=
    match UPLOAD_INBOX_DIRECTORY settings with
    | Some (String c directory) =>
        store_in_inbox_directory fuel (String c directory) request upload name key
                                 bucket_info size url
    | _ => upload_to_inbox request upload name key bucket_info size url
    end in
  emit (EvDelay (Upload.id upload_obj)) ;;;
  reattempt_incomplete ;;;
  ret (JsonResponse (JDict [("upload", _serialize_upload upload_obj)]) 201).

(** The view under [@transaction.atomic]: an exception undoes the
    changes to the Upload table.  [None] when the fuel was too small. *)
Definition upload_archive (fuel : nat) (request : Request) (w : World)
  : option (Outcome * World * list Event) :=
  match upload_archive_body fuel request (mkSt w []) with
  | Go o s => Some (o, world s, trace s)
  | Leave (Raised e) s =>
      let w' := world s in
      Some (Raised e, mkWorld (uploads w) (next_id w') (cache w') (clock w'), trace s)
  | Leave o s => Some (o, world s, trace s)
  | OutOfFuel => None
  end.

End View.

(** ** Vocabulary of the specification

    The properties below are stated with these predicates, which follow the
    words of the specification and not the code. *)

Definition chars (s : string) : list ascii := list_ascii_of_string s.

(** [sub] occurs in [s]. *)
Definition is_substring (sub s : string) : Prop :=
  exists pre post, s = pre +:+ sub +:+ post.

(** [s] ends in [suf]. *)
Definition is_suffix (suf s : string) : Prop := exists pre, s = pre +:+ suf.

Definition hexadecimal (c : ascii) : Prop := In c (chars "0123456789abcdefABCDEF").

Definition lower_hexadecimal (c : ascii) : Prop := In c (chars "0123456789abcdef").

(** [nm] splits on '/' into exactly the segments [parts]. *)
Definition segments (nm : string) (parts : list string) : Prop :=
  parts <> [] /\ Forall (fun p => ~ In "/"%char (chars p)) parts
  /\ nm = PyStr.join "/" parts.

Definition three_segment_hex (nm : string) : Prop :=
  exists a b c, segments nm [a; b; c] /\ Forall hexadecimal (chars b).

Definition symbols_txt (nm : string) : Prop :=
  segments nm [nm] /\ is_suffix "-symbols.txt" (PyStr.lower nm).

Definition denylisted (deny : list string) (nm : string) : Prop :=
  exists snippet, In snippet deny /\ is_substring snippet nm.

Definition acceptable (deny : list string) (nm : string) : Prop :=
  ~ denylisted deny nm /\ (three_segment_hex nm \/ symbols_txt nm).

(** The same, decided. *)
Definition acceptableb (deny : list string) (nm : string) : bool :=
  match first_snippet_in deny nm with
  | Some _ => false
  | None => pattern_recognized nm
  end.

(** The resolution of the storage URL as the specification words it: the
    exact match, compared without regard to case, comes before the wildcard
    scan, and the URL of the match replaces the default. *)
Definition spec_bucket_url (str_lower : string -> string)
           (fnmatch : string -> string -> bool)
           (default : string) (table : dict string) (user : User) : string :=
  let e := str_lower (email user) in
  match List.find (fun kv => String.eqb (str_lower kv.1) e) table with
  | Some (_, url) => url
  | None =>
      match List.find (fun kv => fnmatch e (str_lower kv.1)) table with
      | Some (_, url) => url
      | None => default
      end
  end.

(** What [if exception: url = exception] leaves in [url]. *)
Definition override (default url : string) : string :=
  if truthy url then url else default.

(** The events of a poll that saw the file missing [failed] times, after
    [attempts] earlier sleeps, and ends with the events [last]. *)
Fixpoint poll_trace (path : string) (attempts : Z) (failed : nat) (last : list Event)
  : list Event :=
  match failed with
  | O => last
  | S failed' =>
      EvIsFile path false :: EvSleep (attempts + 1)
        :: poll_trace path (attempts + 1) failed' last
  end.

(** The seconds slept by such a poll. *)
Fixpoint slept (attempts : Z) (failed : nat) : Z :=
  match failed with
  | O => 0
  | S failed' => (attempts + 1) + slept (attempts + 1) failed'
  end.

Definition sleeps (tr : list Event) : list Z :=
  flat_map (fun ev => match ev with EvSleep n => [n] | _ => [] end) tr.

Definition staged_keys (tr : list Event) : list string :=
  flat_map (fun ev => match ev with EvPutObject _ key _ => [key] | _ => [] end) tr.

Definition advance (w : World) (seconds : Z) : World :=
  mkWorld (uploads w) (next_id w) (cache w) (clock w + seconds).

Definition is_staging (ev : Event) : bool :=
  match ev with
  | EvWriteFile _ _ | EvPutObject _ _ _ => true
  | _ => false
  end.

Definition is_head_bucket (ev : Event) : bool :=
  match ev with EvHeadBucket _ => true | _ => false end.

Definition is_requests_get (ev : Event) : bool :=
  match ev with EvRequestsGet _ => true | _ => false end.

Definition head_bucket_calls (tr : list Event) : nat :=
  length (List.filter is_head_bucket tr).

Definition json_get (j : Json) (key : string) : option Json :=
  match j with
  | JDict items => dict_get items key
  | _ => None
  end.

(** ** The runs of [upload_archive], case by case *)

Section RunShape.

Variable settings : Settings.
Variable env : Env.
Variable request : Request.
Variable w : World.

Definition resolved_bucket : BucketInfo :=
  get_bucket_info (str_lower env) (fnmatch env) (S3Bucket env)
                  (UPLOAD_DEFAULT_URL settings) (UPLOAD_URL_EXCEPTIONS settings)
                  (request_user request).

(** What leaves the view when [head_bucket] raises [e]. *)
Definition head_bucket_failure (e : Exn) : Exn :=
  match e with
  | ClientError code =>
      if String.eqb code "404"
      then ImproperlyConfigured (bucket resolved_bucket) (region resolved_bucket)
                                (endpoint_url resolved_bucket)
      else e
  | _ => e
  end.

(** The request passed every check before the bucket is looked at. *)
Definition validated (upload name : string) (size : N) (url : option string)
           (tr0 : list Event) (listing : list FileMember) : Prop :=
  receive env request (mkSt w []) = Go (upload, name, size, url) (mkSt w tr0)
  /\ size <> 0%N
  /\ get_archive_members env upload name = Members listing
  /\ check_symbols_archive_file_listing (DISALLOWED_SYMBOLS_SNIPPETS settings) listing
     = None.

Definition staging_key (name : string) (listing : list FileMember) : string :=
  inbox_key_of (strftime_Ymd env (clock w)) listing name.

Definition new_upload (name : string) (key path : option string) (size : N)
           (url : option string) : Upload.t :=
  Upload.mk (next_id w) (request_user request) name key path
            (bucket resolved_bucket) (region resolved_bucket)
            (endpoint_url resolved_bucket) size url (clock w) None None 0 None.

Definition inbox_directory : option string :=
  match UPLOAD_INBOX_DIRECTORY settings with
  | Some (String c d) => Some (String c d)
  | _ => None
  end.

(** The directory of the staged file is there or can be made. *)
Definition directory_ready (inbox_filedir : string) : Prop :=
  os_path_isdir env inbox_filedir = true \/ os_makedirs env inbox_filedir = None.

(** What the clock shows to have passed in the [put_object] and in the
    write of the staged file. *)
Definition put_seconds (name : string) (listing : list FileMember) (upload : string) : Z :=
  Z.of_N (upload_seconds env (bucket resolved_bucket) (staging_key name listing) upload).

Definition write_seconds (directory name : string) (listing : list FileMember)
           (upload : string) : Z :=
  Z.of_N (store_seconds env (OsPath.join directory (staging_key name listing)) upload).

Inductive run_shape : Outcome -> World -> list Event -> Prop :=
| run_no_input o tr0 :
    receive env request (mkSt w []) = Leave o (mkSt w tr0) ->
    run_shape o w tr0
| run_empty upload name url tr0 :
    receive env request (mkSt w []) = Go (upload, name, 0%N, url) (mkSt w tr0) ->
    run_shape (JsonResponse (error_payload "File size 0") 400) w tr0
| run_bad_archive upload name size url tr0 o :
    receive env request (mkSt w []) = Go (upload, name, size, url) (mkSt w tr0) ->
    size <> 0%N ->
    list_members env upload name (mkSt w tr0) = Leave o (mkSt w tr0) ->
    run_shape o w tr0
| run_invalid_listing upload name size url tr0 listing error :
    receive env request (mkSt w []) = Go (upload, name, size, url) (mkSt w tr0) ->
    size <> 0%N ->
    get_archive_members env upload name = Members listing ->
    check_symbols_archive_file_listing (DISALLOWED_SYMBOLS_SNIPPETS settings) listing
    = Some error ->
    run_shape (JsonResponse (error_payload (PyStr.strip error)) 400) w tr0
| run_bucket_failure upload name size url tr0 listing e :
    validated upload name size url tr0 listing ->
    head_bucket env resolved_bucket = Some e ->
    run_shape (Raised (head_bucket_failure e)) w
              (tr0 ++ [EvHeadBucket (bucket resolved_bucket)])
| run_put_failure upload name size url tr0 listing e :
    validated upload name size url tr0 listing ->
    head_bucket env resolved_bucket = None ->
    inbox_directory = None ->
    put_object env resolved_bucket (staging_key name listing) upload = Some e ->
    run_shape (Raised e)
              (mkWorld (uploads w) (next_id w + 1) (cache w) (clock w))
              (tr0 ++ [EvHeadBucket (bucket resolved_bucket);
                       EvPutObject (bucket resolved_bucket)
                                   (staging_key name listing) upload])
| run_accepted_object_store upload name size url tr0 listing ids c :
    validated upload name size url tr0 listing ->
    head_bucket env resolved_bucket = None ->
    inbox_directory = None ->
    put_object env resolved_bucket (staging_key name listing) upload = None ->
    put_seconds name listing upload <> 0%Z ->
    let upload_obj :=
      new_upload name (Some (staging_key name listing)) None size url in
    reattempt_scan settings (clock w + put_seconds name listing upload)
                   (uploads w ++ [upload_obj]) (cache w) = (ids, c) ->
    run_shape (JsonResponse (JDict [("upload", _serialize_upload upload_obj)]) 201)
              (mkWorld (uploads w ++ [upload_obj]) (next_id w + 1) c
                       (clock w + put_seconds name listing upload))
              (tr0 ++ [EvHeadBucket (bucket resolved_bucket);
                       EvPutObject (bucket resolved_bucket)
                                   (staging_key name listing) upload;
                       EvDelay (next_id w)]
                   ++ map EvDelay ids)
| run_accepted_filesystem upload name size url tr0 listing directory failed ids c :
    validated upload name size url tr0 listing ->
    head_bucket env resolved_bucket = None ->
    inbox_directory = Some directory ->
    let inbox_filepath := OsPath.join directory (staging_key name listing) in
    let inbox_filedir := OsPath.dirname inbox_filepath in
    let upload_obj := new_upload name None (Some inbox_filepath) size url in
    directory_ready inbox_filedir ->
    write_file env inbox_filepath upload = None ->
    write_seconds directory name listing upload <> 0%Z ->
    (failed <= 5)%nat ->
    (forall i, (i < failed)%nat ->
       os_path_isfile env inbox_filepath
         (clock w + write_seconds directory name listing upload + slept 0 i) = false) ->
    ((failed <= 4)%nat ->
       os_path_isfile env inbox_filepath
         (clock w + write_seconds directory name listing upload + slept 0 failed) = true) ->
    reattempt_scan settings
                   (clock w + write_seconds directory name listing upload + slept 0 failed)
                   (uploads w ++ [upload_obj]) (cache w) = (ids, c) ->
    run_shape (JsonResponse (JDict [("upload", _serialize_upload upload_obj)]) 201)
              (mkWorld (uploads w ++ [upload_obj]) (next_id w + 1) c
                       (clock w + write_seconds directory name listing upload
                        + slept 0 failed))
              (tr0 ++ [EvHeadBucket (bucket resolved_bucket)]
                   ++ (if os_path_isdir env inbox_filedir then []
                       else [EvMakedirs inbox_filedir])
                   ++ [EvWriteFile inbox_filepath upload]
                   ++ poll_trace inbox_filepath 0 failed
                        (if (failed <=? 4)%nat then [EvIsFile inbox_filepath true] else [])
                   ++ [EvDelay (next_id w)]
                   ++ map EvDelay ids)
| run_upload_rate_failure upload name size url tr0 listing :
    validated upload name size url tr0 listing ->
    head_bucket env resolved_bucket = None ->
    inbox_directory = None ->
    put_object env resolved_bucket (staging_key name listing) upload = None ->
    put_seconds name listing upload = 0%Z ->
    run_shape (Raised ZeroDivisionError)
              (mkWorld (uploads w) (next_id w + 1) (cache w) (clock w))
              (tr0 ++ [EvHeadBucket (bucket resolved_bucket);
                       EvPutObject (bucket resolved_bucket)
                                   (staging_key name listing) upload])
| run_makedirs_failure upload name size url tr0 listing directory e :
    validated upload name size url tr0 listing ->
    head_bucket env resolved_bucket = None ->
    inbox_directory = Some directory ->
    let inbox_filepath := OsPath.join directory (staging_key name listing) in
    let inbox_filedir := OsPath.dirname inbox_filepath in
    os_path_isdir env inbox_filedir = false ->
    os_makedirs env inbox_filedir = Some e ->
    run_shape (Raised e) w
              (tr0 ++ [EvHeadBucket (bucket resolved_bucket);
                       EvMakedirs inbox_filedir])
| run_write_failure upload name size url tr0 listing directory e :
    validated upload name size url tr0 listing ->
    head_bucket env resolved_bucket = None ->
    inbox_directory = Some directory ->
    let inbox_filepath := OsPath.join directory (staging_key name listing) in
    let inbox_filedir := OsPath.dirname inbox_filepath in
    directory_ready inbox_filedir ->
    (write_file env inbox_filepath upload = Some e
     \/ (write_file env inbox_filepath upload = None
         /\ write_seconds directory name listing upload = 0%Z
         /\ e = ZeroDivisionError)) ->
    run_shape (Raised e)
              (mkWorld (uploads w) (next_id w + 1) (cache w) (clock w))
              (tr0 ++ [EvHeadBucket (bucket resolved_bucket)]
                   ++ (if os_path_isdir env inbox_filedir then []
                       else [EvMakedirs inbox_filedir])
                   ++ [EvWriteFile inbox_filepath upload]).

End RunShape.

(** ** Invariants of the dispatch log of successive scans *)

Section ThrottleLog.

Variable settings : Settings.

(** Every dispatch in the log left a throttle entry that is still there. *)
Definition covered (log : list (Z * Z)) (c : gmap string Cache.entry) : Prop :=
  forall t id, In (t, id) log ->
    exists e, c !! cache_key id = Some e /\ Cache.value e = true
              /\ (t + UPLOAD_REATTEMPT_LIMIT_SECONDS settings <= Cache.expires e)%Z.

(** Two dispatches of one upload are a whole window apart. *)
Definition spaced (log : list (Z * Z)) : Prop :=
  forall (i j : nat) t1 t2 id,
    (i < j)%nat -> log !! i = Some (t1, id) -> log !! j = Some (t2, id) ->
    (t1 + UPLOAD_REATTEMPT_LIMIT_SECONDS settings <= t2)%Z.

Definition before (tmax : Z) (log : list (Z * Z)) : Prop :=
  forall t id, In (t, id) log -> (t <= tmax)%Z.

End ThrottleLog.

(** ** [StorageBucket.exists] *)

Module Storage.

(** Modelled from the spec: the storage bucket of [tecken.storage], of
    which only the tests are among the sources; the backend name and the
    base URL without credentials are what its errors report. *)
Record StorageBucket := mkStorageBucket {
  backend : string;
  base_url : string
}.

(** Modelled from the spec: what the existence probe (a head or metadata
    call) of [StorageBucket.exists] can answer: success, not found,
    authorization denied, or a transport or connectivity failure; the last
    two with the kind and the message of the native error. *)
Inductive Probe :=
| Found
| NotFound
| AuthorizationDenied (native_error message : string)
| TransportFailure (native_error message : string).

Record StorageError := mkStorageError {
  error_bucket : StorageBucket;
  native_error : string;
  native_message : string
}.

Inductive Answer :=
| Returns (found : bool)
| Raises (error : StorageError).

(** Modelled from the spec: [StorageBucket.exists], missing from the
    sources: not found is [false], success is [true], and a denied
    authorization or a transport failure raises [StorageError]. *)
Definition exists_ (bucket : StorageBucket) (probe : Probe) : Answer :=
  match probe with
  | Found => Returns true
  | NotFound => Returns false
  | AuthorizationDenied kind message => Raises (mkStorageError bucket kind message)
  | TransportFailure kind message => Raises (mkStorageError bucket kind message)
  end.

(** Modelled from the spec: the text of a [StorageError],
    "<backend> backend (<redacted-base-url>) raised <native-error-kind>:
    <native-message>". *)
Definition error_message (e : StorageError) : string :=
  backend (error_bucket e) +:+ " backend (" +:+ base_url (error_bucket e)
  +:+ ") raised " +:+ native_error e +:+ ": " +:+ native_message e.

End Storage.

(** ** Sample data *)

Module Sample.

Definition listing : list FileMember :=
  [mkFileMember "app.pdb/ABCDEF0123456789/app.sym" 10;
   mkFileMember "crash-symbols.txt" 3].

Definition exceptions : dict string :=
  [("*@example.com", "https://s3.example.com/wildcard");
   ("Peter@Example.com", "https://s3.example.com/peter")].

Definition settings (inbox : option string) : Settings :=
  mkSettings ["exe"] "https://s3.example.com/default" exceptions inbox 3600 5.

Definition bucket_of (url : string) : BucketInfo := mkBucketInfo url None None.

(** An environment where the archive always lists [listing], the date is
    2018-01-02, [head_bucket] answers [head], the staged file is visible
    at the times [visible], and staging succeeds and takes one second. *)
Definition env (visible : Z -> bool) (head : option Exn) : Env :=
  mkEnv (fun _ => FormValid "https://example.com/sym.zip" "sym.zip" 0)
        (fun _ => "PK")
        (fun _ _ => Members listing)
        PyStr.lower Fnmatch.fnmatch bucket_of
        (fun _ => head)
        (fun _ _ _ => None)
        (fun _ => "2018-01-02")
        (fun _ => false)
        (fun _ t => visible t)
        (fun _ => None)
        (fun _ _ => None)
        (fun _ _ => 1%N)
        (fun _ _ _ => 1%N).

Definition request (filename : string) (size : N) : Request :=
  mkRequest [(filename, UploadedFile.mk size "PK")] [] (mkUser "peter@example.com").

Definition download_request : Request :=
  mkRequest [] [("url", "https://example.com/sym.zip")] (mkUser "peter@example.com").

Definition stuck : Upload.t :=
  Upload.mk 1 (mkUser "old@example.com") "old.zip"
            (Some "inbox/2018-01-01/000000000000/old.zip") None
            "bucket" None None 5 None 0 None None 0 None.

Definition world : World := mkWorld [stuck] 2 ∅ 10000.

End Sample.

(** ** Counting in names and traces *)

(** The number of '/' in a name. *)
Fixpoint slashes (s : string) : nat :=
  match s with
  | EmptyString => O
  | String c s' => (if Ascii.eqb c "/" then 1 else 0) + slashes s'
  end.

(** The ids handed to [upload_inbox_upload.delay], in order. *)
Definition delays (tr : list Event) : list Z :=
  flat_map (fun ev => match ev with EvDelay id => [id] | _ => [] end) tr.

(** The URLs fetched with [requests.get], in order. *)
Definition downloads (tr : list Event) : list string :=
  flat_map (fun ev => match ev with EvRequestsGet url => [url] | _ => [] end) tr.

Definition is_delay (ev : Event) : bool :=
  match ev with EvDelay _ => true | _ => false end.

Definition total (l : list Z) : Z := fold_right Z.add 0%Z l.

(** What the staging calls of a trace have taken, as the clock shows it
    when they succeed. *)
Definition staging_seconds (env : Env) (tr : list Event) : Z :=
  total (flat_map (fun ev =>
                     match ev with
                     | EvWriteFile path content =>
                         [Z.of_N (store_seconds env path content)]
                     | EvPutObject bucket_name key body =>
                         [Z.of_N (upload_seconds env bucket_name key body)]
                     | _ => []
                     end) tr).

(** The order of [.order_by('created_at')]. *)
Definition older_or_same (u v : Upload.t) : Prop :=
  (Upload.created_at u <= Upload.created_at v)%Z.

(** * Properties *)

(** ** Strings and the validator *)

Lemma str_app_cons c s t : String c s +:+ t = String c (s +:+ t).
Proof. reflexivity. Qed.
Lemma str_app_nil_l t : "" +:+ t = t.
Proof. reflexivity. Qed.
Lemma str_app_nil_r s : s +:+ "" = s.
Proof. induction s as [|c s IH]; [reflexivity|]. rewrite str_app_cons, IH. reflexivity. Qed.
Lemma str_app_assoc s t u : (s +:+ t) +:+ u = s +:+ t +:+ u.
Proof. induction s as [|c s IH]; [reflexivity|]. rewrite !str_app_cons, IH. reflexivity. Qed.

Lemma startswith_spec s p : PyStr.startswith s p = true <-> exists t, s = p +:+ t.
Proof.
  revert s. induction p as [|a p IH]; intros s; simpl.
  - split; [intros _; exists s; reflexivity | reflexivity].
  - destruct s as [|b s].
    + split; [discriminate | intros [t Ht]; discriminate].
    + rewrite andb_true_iff, Ascii.eqb_eq, IH. split.
      * intros [-> [t ->]]. exists t. reflexivity.
      * intros [t Ht]. rewrite str_app_cons in Ht. injection Ht as -> ->. eauto.
Qed.

Lemma contains_spec sub s : PyStr.contains sub s = true <-> is_substring sub s.
Proof.
  unfold is_substring. induction s as [|c s IH]; simpl.
  - rewrite orb_false_r, startswith_spec. split.
    + intros [t Ht]. exists "", t. exact Ht.
    + intros [[|a pre] [post H]].
      * exists post. exact H.
      * rewrite str_app_cons in H. discriminate.
  - rewrite orb_true_iff, startswith_spec, IH. split.
    + intros [[t Ht] | [pre [post H]]].
      * exists "", t. exact Ht.
      * exists (String c pre), post. rewrite str_app_cons, H. reflexivity.
    + intros [[|a pre] [post H]].
      * left. exists post. exact H.
      * right. rewrite str_app_cons in H. injection H as -> ->. eauto.
Qed.

Lemma endswith_spec s suf : PyStr.endswith s suf = true <-> is_suffix suf s.
Proof.
  unfold is_suffix. induction s as [|c s IH]; cbn [PyStr.endswith].
  - rewrite orb_false_r, String.eqb_eq. split.
    + intros <-. exists "". reflexivity.
    + intros [[|a pre] H]; [exact H | rewrite str_app_cons in H; discriminate].
  - rewrite orb_true_iff, String.eqb_eq, IH. split.
    + intros [<- | [pre ->]]; [exists ""; reflexivity | exists (String c pre); reflexivity].
    + intros [[|a pre] H]; [left; exact H | right].
      rewrite str_app_cons in H. injection H as -> ->. eauto.
Qed.

Lemma lacks_spec c s : PyStr.lacks c s = true <-> ~ In c (chars s).
Proof.
  induction s as [|a s IH]; simpl.
  - tauto.
  - rewrite andb_true_iff, negb_true_iff, Ascii.eqb_neq, IH. tauto.
Qed.

Lemma split_nonempty sep s : PyStr.split sep s <> [].
Proof.
  induction s as [|c s IH]; simpl; [discriminate|].
  destruct (Ascii.eqb c sep); [discriminate|].
  destruct (PyStr.split sep s); discriminate.
Qed.

Lemma join_cons sep p q ps :
  PyStr.join sep (p :: q :: ps) = p +:+ sep +:+ PyStr.join sep (q :: ps).
Proof. reflexivity. Qed.

Lemma join_split sep s : PyStr.join (String sep "") (PyStr.split sep s) = s.
Proof.
  induction s as [|c s IH]; [reflexivity|]. simpl PyStr.split.
  destruct (Ascii.eqb_spec c sep) as [->|Hne].
  - pose proof (split_nonempty sep s) as Hn.
    destruct (PyStr.split sep s) as [|w ws]; [congruence|].
    rewrite join_cons, IH. reflexivity.
  - pose proof (split_nonempty sep s) as Hn.
    destruct (PyStr.split sep s) as [|w ws]; [congruence|].
    destruct ws as [|w' ws].
    + simpl in *. congruence.
    + rewrite join_cons in *. rewrite str_app_cons, IH. reflexivity.
Qed.

Lemma split_lacks sep s : Forall (fun p => PyStr.lacks sep p = true) (PyStr.split sep s).
Proof.
  induction s as [|c s IH]; simpl.
  - repeat constructor.
  - destruct (Ascii.eqb c sep) eqn:E.
    + constructor; [reflexivity | exact IH].
    + destruct (PyStr.split sep s) as [|w ws].
      * constructor; [simpl; rewrite E; reflexivity | constructor].
      * inversion IH; subst. constructor; [simpl; rewrite E; simpl; assumption | assumption].
Qed.

Lemma split_join sep parts :
  parts <> [] -> Forall (fun p => PyStr.lacks sep p = true) parts ->
  PyStr.split sep (PyStr.join (String sep "") parts) = parts.
Proof.
  induction parts as [|p ps IH]; [congruence|]. intros _ Hall.
  inversion Hall as [|? ? Hp Hps]; subst.
  destruct ps as [|q ps].
  - simpl. clear IH Hall Hps. induction p as [|c p IHp]; [reflexivity|].
    simpl in Hp. apply andb_true_iff in Hp as [Hc Hp]. apply negb_true_iff in Hc.
    simpl. rewrite Hc, (IHp Hp). reflexivity.
  - rewrite join_cons. specialize (IH ltac:(discriminate) Hps).
    clear Hall. induction p as [|c p IHp].
    + rewrite str_app_nil_l, str_app_cons, str_app_nil_l. cbn [PyStr.split].
      rewrite Ascii.eqb_refl, IH. reflexivity.
    + simpl in Hp. apply andb_true_iff in Hp as [Hc Hp]. apply negb_true_iff in Hc.
      rewrite str_app_cons. cbn [PyStr.split]. rewrite Hc, (IHp Hp). reflexivity.
Qed.

Lemma split_segments nm parts :
  PyStr.split "/" nm = parts <-> segments nm parts.
Proof.
  unfold segments. split.
  - intros <-. split; [apply split_nonempty|]. split.
    + eapply List.Forall_impl; [|apply split_lacks]. intros p. apply lacks_spec.
    + symmetry. apply join_split.
  - intros (Hne & Hall & ->). apply split_join; [assumption|].
    eapply List.Forall_impl; [|exact Hall]. intros p. apply lacks_spec.
Qed.

Lemma is_hex_char_spec c : is_hex_char c = true <-> hexadecimal c.
Proof.
  unfold hexadecimal. split.
  - destruct c as [[] [] [] [] [] [] [] []]; vm_compute; intros H; try discriminate; tauto.
  - simpl. intros H. repeat (destruct H as [<- | H]; [reflexivity|]). destruct H.
Qed.

Lemma findall_nil s :
  _not_hex_characters_findall s = [] <-> Forall hexadecimal (chars s).
Proof.
  induction s as [|c s IH]; simpl.
  - split; [constructor | reflexivity].
  - destruct (is_hex_char c) eqn:E.
    + rewrite IH. split.
      * intros H. constructor; [apply is_hex_char_spec; assumption | assumption].
      * intros H. inversion H; assumption.
    + split; [discriminate|]. intros H. inversion H as [|? ? Hc _]; subst.
      apply is_hex_char_spec in Hc. congruence.
Qed.

Lemma pattern_recognized_spec nm :
  pattern_recognized nm = true <-> three_segment_hex nm \/ symbols_txt nm.
Proof.
  unfold pattern_recognized, three_segment_hex, symbols_txt.
  destruct (PyStr.split "/" nm) as [|a [|b [|c [|d l]]]] eqn:E.
  - exfalso. eapply split_nonempty. exact E.
  - cbn [length Nat.eqb]. rewrite endswith_spec. split.
    + intros H. right. split; [|exact H].
      apply split_segments. rewrite E. f_equal.
      apply split_segments in E as (_ & _ & ->). reflexivity.
    + intros [(a' & b' & c' & H & _) | [_ H]]; [|exact H].
      apply split_segments in H. congruence.
  - cbn [length Nat.eqb]. split; [discriminate|].
    intros [(a' & b' & c' & H & _) | [H _]]; apply split_segments in H; congruence.
  - cbn [length Nat.eqb nth].
    destruct (_not_hex_characters_findall b) as [|x xs] eqn:F.
    + split; [intros _ | reflexivity]. left. exists a, b, c.
      split; [apply split_segments; exact E | apply findall_nil; exact F].
    + split; [discriminate|].
      intros [(a' & b' & c' & H & Hx) | [H _]]; apply split_segments in H.
      * rewrite E in H. injection H as <- <- <-. apply findall_nil in Hx. congruence.
      * congruence.
  - cbn [length Nat.eqb]. split; [discriminate|].
    intros [(a' & b' & c' & H & _) | [H _]]; apply split_segments in H; congruence.
Qed.

Lemma first_snippet_in_none deny nm :
  first_snippet_in deny nm = None <-> ~ denylisted deny nm.
Proof.
  unfold denylisted. induction deny as [|d deny IH]; simpl.
  - split; [intros _ (sn & [] & _) | reflexivity].
  - destruct (PyStr.contains d nm) eqn:E.
    + split; [discriminate|]. intros H. exfalso. apply H. exists d.
      split; [left; reflexivity | apply contains_spec; exact E].
    + rewrite IH. split.
      * intros H (sn & [<- | Hin] & Hs).
        -- apply contains_spec in Hs. congruence.
        -- apply H. eauto.
      * intros H (sn & Hin & Hs). apply H. eauto.
Qed.

Lemma first_snippet_in_some deny nm d1 snippet d2 :
  deny = d1 ++ snippet :: d2 ->
  Forall (fun x => ~ is_substring x nm) d1 ->
  is_substring snippet nm ->
  first_snippet_in deny nm = Some snippet.
Proof.
  intros -> Hd1 Hs. induction Hd1 as [|x d1 Hx _ IH]; simpl.
  - apply contains_spec in Hs. rewrite Hs. reflexivity.
  - destruct (PyStr.contains x nm) eqn:E; [|exact IH].
    apply contains_spec in E. contradiction.
Qed.

Lemma check_cons deny m rest :
  acceptable deny (name m) ->
  check_symbols_archive_file_listing deny (m :: rest)
  = check_symbols_archive_file_listing deny rest.
Proof.
  intros [Hd Hp]. simpl.
  apply first_snippet_in_none in Hd. apply pattern_recognized_spec in Hp.
  rewrite Hd, Hp. reflexivity.
Qed.

Lemma check_passes deny pre rest :
  Forall (fun m => acceptable deny (name m)) pre ->
  check_symbols_archive_file_listing deny (pre ++ rest)
  = check_symbols_archive_file_listing deny rest.
Proof.
  induction 1 as [|m pre Hm _ IH]; [reflexivity|].
  rewrite <- List.app_comm_cons, check_cons by assumption. exact IH.
Qed.

(** C2.  The validator returns no error exactly when every member is free
    of denylisted snippets and is either three segments with a hexadecimal
    middle or one segment ending in '-symbols.txt' without regard to case.
    Otherwise the first member in listing order that violates this decides
    the error: the message "Content of archive file contains the snippet
    '<snippet>' which is not allowed" with the first denylisted snippet it
    holds, or, when it holds none, the message "Unrecognized file pattern.
    Should only be <module>/<hex>/<file> or <name>-symbols.txt and nothing
    else.". *)
Theorem validator_first_violation_wins deny listing :
  (check_symbols_archive_file_listing deny listing = None
   <-> Forall (fun m => acceptable deny (name m)) listing)
  /\ (forall pre m post,
        listing = pre ++ m :: post ->
        Forall (fun m' => acceptable deny (name m')) pre ->
        ~ acceptable deny (name m) ->
        (forall d1 snippet d2,
            deny = d1 ++ snippet :: d2 ->
            Forall (fun x => ~ is_substring x (name m)) d1 ->
            is_substring snippet (name m) ->
            check_symbols_archive_file_listing deny listing
            = Some ("Content of archive file contains the snippet '" +:+ snippet
                    +:+ "' which is not allowed"))
        /\ (~ denylisted deny (name m) ->
            check_symbols_archive_file_listing deny listing
            = Some "Unrecognized file pattern. Should only be <module>/<hex>/<file> or <name>-symbols.txt and nothing else.")).
Proof.
  split.
  - induction listing as [|m rest IH].
    + split; [constructor | reflexivity].
    + simpl. destruct (first_snippet_in deny (name m)) as [sn|] eqn:Hs.
      * split; [discriminate|]. intros H. inversion H as [|? ? [Hd _] _]; subst.
        apply first_snippet_in_none in Hd. congruence.
      * destruct (pattern_recognized (name m)) eqn:Hp.
        -- rewrite IH. split.
           ++ intros H. constructor; [|exact H]. split.
              ** apply first_snippet_in_none. exact Hs.
              ** apply pattern_recognized_spec. exact Hp.
           ++ intros H. inversion H; assumption.
        -- split; [discriminate|]. intros H. inversion H as [|? ? [_ Hq] _]; subst.
           apply pattern_recognized_spec in Hq. congruence.
  - intros pre m post -> Hpre Hm. rewrite check_passes by assumption. split.
    + intros d1 sn d2 Hdeny Hd1 Hsn. simpl.
      rewrite (first_snippet_in_some deny (name m) d1 sn d2) by assumption.
      reflexivity.
    + intros Hd. simpl. pose proof Hd as Hd'.
      apply first_snippet_in_none in Hd'. rewrite Hd'.
      destruct (pattern_recognized (name m)) eqn:Hp; [|reflexivity].
      exfalso. apply Hm. split; [exact Hd|]. apply pattern_recognized_spec. exact Hp.
Qed.

(** C9.  A member whose name splits on '/' into three segments with an
    empty middle one, and that holds no denylisted snippet, is accepted. *)
Theorem empty_middle_segment_accepted deny pre m post a c :
  PyStr.split "/" (name m) = [a; ""; c] ->
  ~ denylisted deny (name m) ->
  pattern_recognized (name m) = true
  /\ check_symbols_archive_file_listing deny [m] = None
  /\ check_symbols_archive_file_listing deny (pre ++ m :: post)
     = check_symbols_archive_file_listing deny (pre ++ post).
Proof.
  intros Hsplit Hd.
  assert (Hp : pattern_recognized (name m) = true).
  { unfold pattern_recognized. rewrite Hsplit. reflexivity. }
  assert (Hacc : acceptable deny (name m)).
  { split; [exact Hd | apply pattern_recognized_spec; exact Hp]. }
  split; [exact Hp|]. split.
  - rewrite check_cons by exact Hacc. reflexivity.
  - induction pre as [|x pre IH].
    + simpl List.app. apply check_cons. exact Hacc.
    + rewrite <- !List.app_comm_cons. simpl.
      destruct (first_snippet_in deny (name x)); [reflexivity|].
      destruct (pattern_recognized (name x)); [exact IH | reflexivity].
Qed.

Lemma acceptableb_spec deny nm : acceptableb deny nm = true <-> acceptable deny nm.
Proof.
  unfold acceptableb, acceptable.
  destruct (first_snippet_in deny nm) as [snippet|] eqn:E.
  - split; [discriminate|]. intros [H _]. apply first_snippet_in_none in H. congruence.
  - rewrite pattern_recognized_spec. split; [|tauto].
    intros H. split; [apply first_snippet_in_none; exact E | exact H].
Qed.

(** ** The storage target *)

Section BucketUrl.
Variable str_lower : string -> string.
Variable fnmatch : string -> string -> bool.
Variable S3Bucket : string -> BucketInfo.
Variable default : string.
Variable table : dict string.

Lemma dict_get_first {V} (pre : dict V) k (v : V) post :
  Forall (fun kv => kv.1 <> k) pre -> dict_get (pre ++ (k, v) :: post) k = Some v.
Proof.
  induction 1 as [|[k' v'] pre Hne _ IH]; cbn.
  - rewrite String.eqb_refl. reflexivity.
  - cbn in Hne. apply String.eqb_neq in Hne. rewrite Hne. exact IH.
Qed.

Lemma wildcard_scan_first e pre k post (d : dict string) :
  Forall (fun k' => fnmatch e (str_lower k') = false) pre ->
  fnmatch e (str_lower k) = true ->
  wildcard_scan str_lower fnmatch d e (pre ++ k :: post) = dict_get d k.
Proof.
  intros Hpre Hk. induction Hpre as [|k' pre Hk' _ IH]; cbn.
  - rewrite Hk. reflexivity.
  - rewrite Hk'. exact IH.
Qed.

Lemma wildcard_scan_none e keys (d : dict string) :
  Forall (fun k' => fnmatch e (str_lower k') = false) keys ->
  wildcard_scan str_lower fnmatch d e keys = None.
Proof. induction 1 as [|k' pre Hk' _ IH]; cbn; [reflexivity|]. rewrite Hk'. exact IH. Qed.

(** The resolution as [get_bucket_info] does it.  The lowered email is
    first looked up among the keys of the table as they are written, before
    any scan.  When it is not a key, the keys are scanned in table order,
    each lowered and glob-matched against the lowered email, and the first
    match wins.  The URL found replaces the default when it is not empty. *)
Theorem bucket_url_resolution (user : User) :
  let e := str_lower (email user) in
  let url := bucket_url str_lower fnmatch default table user in
  get_bucket_info str_lower fnmatch S3Bucket default table user = S3Bucket url
  /\ (forall exception, dict_get table e = Some exception -> url = override default exception)
  /\ (forall pre k exception post,
        dict_get table e = None ->
        table = pre ++ (k, exception) :: post ->
        Forall (fun kv => fnmatch e (str_lower kv.1) = false) pre ->
        fnmatch e (str_lower k) = true ->
        url = override default exception)
  /\ (dict_get table e = None ->
      Forall (fun kv => fnmatch e (str_lower kv.1) = false) table ->
      url = default).
Proof.
  cbn zeta. unfold get_bucket_info, bucket_url, find_exception, override.
  split; [reflexivity|]. split; [|split].
  - intros exception ->. reflexivity.
  - intros pre k exception post -> -> Hpre Hk.
    unfold dict_keys. rewrite List.map_app. cbn [map fst].
    rewrite (wildcard_scan_first _ (map fst pre) k (map fst post)); [| |exact Hk].
    + rewrite dict_get_first; [reflexivity|].
      eapply List.Forall_impl; [|exact Hpre]. intros [k' v'] Hk' Heq. cbn in Hk', Heq. subst k'. congruence.
    + apply List.Forall_map. exact Hpre.
  - intros -> Hall. rewrite wildcard_scan_none; [reflexivity|].
    unfold dict_keys. apply List.Forall_map. exact Hall.
Qed.
End BucketUrl.

(** ** The stuck-upload scan *)

Local Open Scope Z_scope.
Section Throttle.
Variable settings : Settings.

Local Abbreviation L := (UPLOAD_REATTEMPT_LIMIT_SECONDS settings).
Local Abbreviation fresh t := (Cache.mkEntry true (t + L)).

Lemma cache_key_inj id1 id2 : cache_key id1 = cache_key id2 -> id1 = id2.
Proof.
  unfold cache_key. intros H. apply (inj (String.app "reattempt:")) in H.
  apply (inj pretty) in H. exact H.
Qed.

Lemma is_incomplete_spec t u :
  is_incomplete settings t u = true <->
  Upload.completed_at u = None /\ Upload.cancelled_at u = None
  /\ Upload.created_at u < t - L
  /\ Upload.attempts u < UPLOAD_REATTEMPT_LIMIT_TIMES settings.
Proof.
  unfold is_incomplete. rewrite !andb_true_iff, !bool_decide_eq_true, !Z.ltb_lt. tauto.
Qed.

Lemma insert_by_created_at_in u x l :
  In u (insert_by_created_at x l) <-> u = x \/ In u l.
Proof.
  induction l as [|v l IH]; cbn.
  - intuition.
  - destruct (Upload.created_at x <=? Upload.created_at v)%Z; cbn; rewrite ?IH; intuition.
Qed.

Lemma order_by_created_at_in u l : In u (order_by_created_at l) <-> In u l.
Proof.
  induction l as [|x l IH]; cbn; [tauto|].
  rewrite insert_by_created_at_in, IH. intuition.
Qed.

Lemma scanned_in t table u :
  In u (order_by_created_at (incomplete_uploads settings t table))
  <-> In u table /\ is_incomplete settings t u = true.
Proof. rewrite order_by_created_at_in. apply List.filter_In. Qed.

Lemma get_set_same c t key v ttl :
  Cache.get (Cache.set c t key v ttl) t key = if (0 <? ttl) then Some v else None.
Proof.
  unfold Cache.get, Cache.set. rewrite lookup_insert_eq. cbn.
  destruct (Z.ltb_spec t (t + ttl)), (Z.ltb_spec 0 ttl); try reflexivity; lia.
Qed.

Lemma get_set_other c t key key' v ttl :
  key <> key' -> Cache.get (Cache.set c t key v ttl) t key' = Cache.get c t key'.
Proof. intros H. unfold Cache.get, Cache.set. rewrite lookup_insert_ne by exact H. reflexivity. Qed.

Lemma reattempt_one_skip t ids c u :
  Cache.get c t (cache_key (Upload.id u)) = Some true ->
  reattempt_one settings t (ids, c) u = (ids, c).
Proof. unfold reattempt_one. intros ->. reflexivity. Qed.

Lemma reattempt_one_dispatch t ids c u :
  Cache.get c t (cache_key (Upload.id u)) <> Some true ->
  reattempt_one settings t (ids, c) u
  = (ids ++ [Upload.id u], Cache.set c t (cache_key (Upload.id u)) true L).
Proof.
  unfold reattempt_one. intros H.
  destruct (Cache.get c t (cache_key (Upload.id u))) as [[|]|]; [congruence | reflexivity..].
Qed.

(** The loop of one scan. *)
Lemma scan_loop t (us : list Upload.t) :
  forall ids0 c0,
    exists new c',
      fold_left (reattempt_one settings t) us (ids0, c0) = (ids0 ++ new, c')
      /\ (forall id, In id new ->
            (exists u, In u us /\ Upload.id u = id)
            /\ Cache.get c0 t (cache_key id) <> Some true
            /\ c' !! cache_key id = Some (fresh t))
      /\ (forall key, c0 !! key = Some (fresh t) -> c' !! key = Some (fresh t))
      /\ (forall u, In u us ->
            Cache.get c0 t (cache_key (Upload.id u)) <> Some true ->
            In (Upload.id u) new).
Proof.
  induction us as [|u us IH]; intros ids0 c0.
  - exists [], c0. cbn. rewrite List.app_nil_r. repeat split; intros; tauto.
  - cbn [fold_left].
    destruct (decide (Cache.get c0 t (cache_key (Upload.id u)) = Some true)) as [Hget|Hget].
    + rewrite (reattempt_one_skip _ _ _ _ Hget).
      destruct (IH ids0 c0) as (new & c' & Hfold & Hnew & Hkeep & Hall).
      exists new, c'. split; [exact Hfold|]. split; [|split; [exact Hkeep|]].
      * intros id Hin. destruct (Hnew id Hin) as ((u' & Hu' & Hid) & Hg & Hc).
        split; [exists u'; split; [right; exact Hu' | exact Hid]|]. split; assumption.
      * intros u' [<- | Hu'] Hg; [congruence | apply Hall; assumption].
    + rewrite (reattempt_one_dispatch _ _ _ _ Hget).
      set (key := cache_key (Upload.id u)) in *.
      set (c1 := Cache.set c0 t key true L).
      destruct (IH (ids0 ++ [Upload.id u]) c1) as (new & c' & Hfold & Hnew & Hkeep & Hall).
      assert (Hc1 : c1 !! key = Some (fresh t)) by apply lookup_insert_eq.
      assert (Hother : forall k, k <> key -> Cache.get c1 t k = Cache.get c0 t k).
      { intros k Hk. apply get_set_other. congruence. }
      exists (Upload.id u :: new), c'.
      split; [rewrite Hfold, <- List.app_assoc; reflexivity|].
      split; [|split].
      * intros id [<- | Hin].
        -- split; [exists u; split; [left|]; reflexivity|].
           split; [exact Hget | apply Hkeep; exact Hc1].
        -- destruct (Hnew id Hin) as ((u' & Hu' & Hid) & Hg & Hc).
           split; [exists u'; split; [right; exact Hu' | exact Hid]|].
           split; [|exact Hc].
           destruct (decide (cache_key id = key)) as [->|Hne]; [exact Hget|].
           rewrite <- Hother by exact Hne. exact Hg.
      * intros k Hk. apply Hkeep. unfold c1, Cache.set.
        destruct (decide (key = k)) as [<-|Hne];
          [apply lookup_insert_eq | rewrite lookup_insert_ne by exact Hne; exact Hk].
      * intros u' [<- | Hu'] Hg; [left; reflexivity|].
        destruct (decide (cache_key (Upload.id u') = key)) as [Heq|Hne].
        -- left. symmetry. apply cache_key_inj. exact Heq.
        -- right. apply Hall; [exact Hu'|]. rewrite Hother by exact Hne. exact Hg.
Qed.

Lemma scan_dispatches t table c id :
  In id (reattempt_scan settings t table c).1 ->
  (exists u, In u table /\ Upload.id u = id /\ is_incomplete settings t u = true)
  /\ Cache.get c t (cache_key id) <> Some true
  /\ (reattempt_scan settings t table c).2 !! cache_key id = Some (fresh t).
Proof.
  unfold reattempt_scan.
  destruct (scan_loop t (order_by_created_at (incomplete_uploads settings t table)) [] c)
    as (new & c' & Hfold & Hnew & _ & _).
  rewrite Hfold. cbn. intros Hin.
  destruct (Hnew id Hin) as ((u & Hu & Hid) & Hg & Hc).
  apply scanned_in in Hu as [Hu Hinc]. eauto 10.
Qed.

Lemma scan_permits t table c u :
  In u table -> is_incomplete settings t u = true ->
  Cache.get c t (cache_key (Upload.id u)) <> Some true ->
  In (Upload.id u) (reattempt_scan settings t table c).1.
Proof.
  unfold reattempt_scan. intros Hu Hinc Hg.
  destruct (scan_loop t (order_by_created_at (incomplete_uploads settings t table)) [] c)
    as (new & c' & Hfold & _ & _ & Hall).
  rewrite Hfold. cbn. apply Hall; [|exact Hg]. apply scanned_in. split; assumption.
Qed.

(** ** Several scans *)

Lemma scan_loop_log t (us : list Upload.t) :
  forall log ids0 c0,
    covered settings (log ++ map (pair t) ids0) c0 ->
    spaced settings (log ++ map (pair t) ids0) ->
    before t (log ++ map (pair t) ids0) ->
    let r := fold_left (reattempt_one settings t) us (ids0, c0) in
    covered settings (log ++ map (pair t) r.1) r.2
    /\ spaced settings (log ++ map (pair t) r.1)
    /\ before t (log ++ map (pair t) r.1).
Proof.
  induction us as [|u us IH]; intros log ids0 c0 Hcov Hsp Hbe; cbn zeta.
  - cbn. auto.
  - cbn [fold_left].
    destruct (decide (Cache.get c0 t (cache_key (Upload.id u)) = Some true)) as [Hget|Hget].
    + rewrite (reattempt_one_skip _ _ _ _ Hget). apply IH; assumption.
    + rewrite (reattempt_one_dispatch _ _ _ _ Hget).
      set (key := cache_key (Upload.id u)) in *.
      assert (Hlog : log ++ map (pair t) (ids0 ++ [Upload.id u])
                     = (log ++ map (pair t) ids0) ++ [(t, Upload.id u)]).
      { rewrite List.map_app, List.app_assoc. reflexivity. }
      apply IH; rewrite Hlog; set (old := log ++ map (pair t) ids0) in *.
      * intros t' id' Hin. apply List.in_app_iff in Hin as [Hin | [[= <- <-] | []]].
        -- destruct (decide (cache_key id' = key)) as [Heq|Hne].
           ++ exists (fresh t). rewrite Heq. unfold Cache.set.
              rewrite lookup_insert_eq. split; [reflexivity|]. split; [reflexivity|].
              cbn. specialize (Hbe t' id' Hin). lia.
           ++ destruct (Hcov t' id' Hin) as (e & He & Hv & Hexp).
              exists e. unfold Cache.set. rewrite lookup_insert_ne by congruence. auto.
        -- exists (fresh t). unfold Cache.set. rewrite lookup_insert_eq.
           split; [reflexivity|]. split; [reflexivity|]. cbn. lia.
      * intros i j t1 t2 id Hij Hi Hj.
        destruct (decide (j < length old)%nat) as [Hlt|Hge].
        -- rewrite lookup_app_l in Hi by lia. rewrite lookup_app_l in Hj by lia.
           exact (Hsp i j t1 t2 id Hij Hi Hj).
        -- assert (j = length old) as ->.
           { apply lookup_lt_Some in Hj. rewrite length_app in Hj. cbn in Hj. lia. }
           rewrite lookup_app_l in Hi by lia.
           rewrite list_lookup_middle in Hj by reflexivity. injection Hj as <- <-.
           apply list_elem_of_lookup_2, list_elem_of_In in Hi.
           destruct (Hcov t1 (Upload.id u) Hi) as (e & He & Hv & Hexp).
           fold key in He.
           assert (Cache.expires e <= t); [|lia].
           destruct (Z.ltb_spec t (Cache.expires e)) as [Hlive|]; [|lia].
           exfalso. apply Hget. unfold Cache.get. rewrite He.
           apply Z.ltb_lt in Hlive. rewrite Hlive, <- Hv. reflexivity.
      * intros t' id' Hin. apply List.in_app_iff in Hin as [Hin | [[= <- <-] | []]].
        -- eapply Hbe. exact Hin.
        -- lia.
Qed.

Lemma run_scans_spaced scans :
  forall log c tmax,
    covered settings log c -> spaced settings log -> before tmax log ->
    Sorted Z.le (tmax :: map fst scans) ->
    spaced settings (log ++ (run_scans settings scans c).1).
Proof.
  induction scans as [|[t table] later IH]; intros log c tmax Hcov Hsp Hbe Hsorted.
  - cbn. rewrite List.app_nil_r. exact Hsp.
  - cbn [run_scans].
    pose proof (scan_loop_log t (order_by_created_at (incomplete_uploads settings t table))
                              log [] c) as Hloop.
    cbn [map] in Hloop. rewrite List.app_nil_r in Hloop. cbn zeta in Hloop.
    fold (reattempt_scan settings t table c) in Hloop.
    cbn [map fst] in Hsorted.
    apply Sorted_inv in Hsorted as [Hsorted Hhd]. apply HdRel_inv in Hhd.
    destruct Hloop as (Hcov' & Hsp' & Hbe'); [exact Hcov | exact Hsp | |].
    { intros t' id' Hin. specialize (Hbe t' id' Hin). lia. }
    destruct (reattempt_scan settings t table c) as [ids c'] eqn:Hscan.
    specialize (IH (log ++ map (pair t) ids) c' t Hcov' Hsp' Hbe' Hsorted).
    destruct (run_scans settings later c') as [lg c''] eqn:Hlater.
    cbn [fst snd] in *. rewrite List.app_assoc. exact IH.
Qed.

(** C3.  A scan dispatches an upload only if it is incomplete, not
    cancelled, older than the threshold and below the attempt ceiling, and
    only if the cache has no live entry under the key 'reattempt:' followed
    by the id in decimal; the dispatch sets the entry of that key with the
    threshold as its time to live.  Over any number of
    scans at non-decreasing times, two dispatches of one upload are at least
    a threshold apart.  Once the entry has expired, a scan dispatches the
    upload again. *)
Theorem reattempt_is_throttled :
  (forall t table c id,
      In id (reattempt_scan settings t table c).1 ->
      (exists u,
          In u table /\ Upload.id u = id
          /\ Upload.completed_at u = None /\ Upload.cancelled_at u = None
          /\ Upload.created_at u < t - L
          /\ Upload.attempts u < UPLOAD_REATTEMPT_LIMIT_TIMES settings)
      /\ Cache.get c t (("reattempt:" +:+ pretty id)) <> Some true
      /\ (reattempt_scan settings t table c).2 !! ("reattempt:" +:+ pretty id)
         = Some (Cache.mkEntry true (t + L)))
  /\ (forall scans c (i j : nat) t1 t2 id,
        Sorted Z.le (map fst scans) ->
        (i < j)%nat ->
        (run_scans settings scans c).1 !! i = Some (t1, id) ->
        (run_scans settings scans c).1 !! j = Some (t2, id) ->
        t1 + L <= t2)
  /\ (forall t table c u,
        In u table ->
        Upload.completed_at u = None -> Upload.cancelled_at u = None ->
        Upload.created_at u < t - L ->
        Upload.attempts u < UPLOAD_REATTEMPT_LIMIT_TIMES settings ->
        (forall e, c !! ("reattempt:" +:+ pretty (Upload.id u)) = Some e -> Cache.expires e <= t) ->
        In (Upload.id u) (reattempt_scan settings t table c).1).
Proof.
  split; [|split].
  - intros t table c id Hin.
    destruct (scan_dispatches t table c id Hin) as ((u & Hu & Hid & Hinc) & Hg & Hc).
    apply is_incomplete_spec in Hinc. split; [exists u; tauto|]. split; assumption.
  - intros scans c i j t1 t2 id Hsorted Hij Hi Hj.
    destruct scans as [|[t table] later].
    { cbn in Hi. discriminate. }
    assert (Hsp : spaced settings ([] ++ (run_scans settings ((t, table) :: later) c).1)).
    { apply (run_scans_spaced _ [] c t).
      - intros ? ? [].
      - intros ? ? ? ? ? ? H. discriminate.
      - intros ? ? [].
      - constructor; [exact Hsorted|]. constructor. cbn. lia. }
    exact (Hsp i j t1 t2 id Hij Hi Hj).
  - intros t table c u Hu Hdone Hcancel Hold Hatt Hexp.
    apply scan_permits; [exact Hu | apply is_incomplete_spec; tauto |].
    unfold Cache.get. destruct (c !! cache_key (Upload.id u)) as [e|] eqn:He; [|discriminate].
    specialize (Hexp e He).
    destruct (Z.ltb_spec t (Cache.expires e)); [lia | discriminate].
Qed.
End Throttle.

Local Close Scope Z_scope.

(** ** The view *)

Section Poll.
Variable env : Env.
Variable path : string.

Lemma wait_for_file_run (n : nat) :
  forall (attempts : Z) (fuel : nat) (s : St),
    (attempts = 4 - Z.of_nat n)%Z -> (n <= 4)%nat -> (S n <= fuel)%nat ->
    exists failed : nat,
      (failed <= S n)%nat
      /\ wait_for_file env fuel path attempts s
         = Go tt (mkSt (advance (world s) (slept attempts failed))
                       (trace s ++ poll_trace path attempts failed
                                     (if (failed <=? n)%nat
                                      then [EvIsFile path true] else [])))
      /\ (forall i, (i < failed)%nat ->
            os_path_isfile env path (clock (world s) + slept attempts i) = false)
      /\ ((failed <= n)%nat ->
            os_path_isfile env path (clock (world s) + slept attempts failed) = true).
Proof.
  induction n as [|n IH]; intros attempts fuel s Ha Hn Hfuel.
  - destruct fuel as [|fuel]; [lia|]. subst attempts.
    destruct s as [w tr]. cbn [wait_for_file]. unfold bind, now, emit, ret, sleep. cbn.
    destruct (os_path_isfile env path (clock w)) eqn:E.
    + exists 0%nat. cbn. unfold advance. rewrite ?Z.add_0_r. destruct w; cbn in *.
      split; [lia|]. split; [reflexivity|].
      split; [intros i Hi; lia | intros _; exact E].
    + exists 1%nat. cbn. unfold advance. rewrite <- app_assoc. cbn.
      split; [lia|]. split; [reflexivity|]. split; [|lia].
      intros i Hi. assert (i = 0)%nat as -> by lia. cbn. rewrite ?Z.add_0_r. exact E.
  - destruct fuel as [|fuel]; [lia|].
    destruct s as [w tr]. cbn [wait_for_file]. unfold bind at 1 2, now, emit, ret. cbn.
    destruct (os_path_isfile env path (clock w)) eqn:E.
    + exists 0%nat. cbn. unfold advance. rewrite ?Z.add_0_r. destruct w; cbn in *.
      split; [lia|]. split; [reflexivity|].
      split; [intros i Hi; lia | intros _; exact E].
    + unfold bind, sleep. cbn.
      destruct (attempts + 1 >? 4)%Z eqn:Hgt; [lia|].
      destruct (IH (attempts + 1)%Z fuel
                   (mkSt (mkWorld (uploads w) (next_id w) (cache w) (clock w + (attempts + 1)))
                         ((tr ++ [EvIsFile path false]) ++ [EvSleep (attempts + 1)])))
        as (failed & Hle & Hrun & Hfalse & Htrue); [lia | lia | lia |].
      exists (S failed). split; [lia|]. split; [|split].
      * rewrite Hrun. cbn. unfold advance. cbn. rewrite <- !app_assoc. cbn.
        do 2 f_equal. f_equal. lia.
      * intros [|i] Hi; cbn.
        -- rewrite ?Z.add_0_r. exact E.
        -- specialize (Hfalse i ltac:(lia)). cbn in Hfalse.
           rewrite <- Hfalse. f_equal. lia.
      * intros Hk. specialize (Htrue ltac:(lia)). cbn in Htrue. cbn.
        rewrite <- Htrue. f_equal. lia.
Qed.
End Poll.

(** The stages of the view, one lemma each. *)
Section Stages.
Variable settings : Settings.
Variable env : Env.

Lemma receive_cases request s :
  (exists o, receive env request s = Leave o s)
  \/ (exists upload name size, receive env request s = Go (upload, name, size, None) s)
  \/ (exists upload name size url,
        receive env request s
        = Go (upload, name, size, Some url) (mkSt (world s) (trace s ++ [EvRequestsGet url]))).
Proof.
  unfold receive. destruct (FILES request) as [|[name upload] rest].
  - destruct (dict_get (POST request) "url") as [[|c u]|].
    + left. eexists. reflexivity.
    + destruct (UploadByDownloadForm env (POST request)) as [url name size|errors].
      * right. right. exists (requests_get env url), name, size, url. reflexivity.
      * left. destruct errors as [|[key [|message more]] rest]; eexists; reflexivity.
    + left. eexists. reflexivity.
  - right. left. destruct s. eexists _, _, _. reflexivity.
Qed.

Lemma list_members_cases upload name s :
  (exists listing, get_archive_members env upload name = Members listing
                   /\ list_members env upload name s = Go listing s)
  \/ (exists o, list_members env upload name s = Leave o s).
Proof.
  unfold list_members. destruct (get_archive_members env upload name).
  - left. eexists. split; reflexivity.
  - right. eexists. reflexivity.
  - right. eexists. reflexivity.
Qed.

Lemma check_error_truthy deny listing error :
  check_symbols_archive_file_listing deny listing = Some error -> truthy error = true.
Proof.
  induction listing as [|m rest IH]; simpl; [discriminate|].
  destruct (first_snippet_in deny (name m)).
  - intros [= <-]. reflexivity.
  - destruct (pattern_recognized (name m)); [exact IH|]. intros [= <-]. reflexivity.
Qed.
End Stages.

Lemma bind_go {A B} (m : M A) (k : A -> M B) s a s' :
  m s = Go a s' -> bind m k s = k a s'.
Proof. unfold bind. intros ->. reflexivity. Qed.

Lemma bind_leave {A B} (m : M A) (k : A -> M B) s o s' :
  m s = Leave o s' -> bind m k s = Leave o s'.
Proof. unfold bind. intros ->. reflexivity. Qed.

Section Sound.
Variable settings : Settings.
Variable env : Env.

Lemma confirm_bucket_run request s :
  let bi := resolved_bucket settings env request in
  confirm_bucket env bi s
  = match head_bucket env bi with
    | None => Go tt (mkSt (world s) (trace s ++ [EvHeadBucket (bucket bi)]))
    | Some e =>
        Leave (Raised (head_bucket_failure settings env request e))
              (mkSt (world s) (trace s ++ [EvHeadBucket (bucket bi)]))
    end.
Proof.
  cbn zeta. unfold confirm_bucket, bind, emit, head_bucket_failure.
  destruct (head_bucket env (resolved_bucket settings env request)) as [e|];
    [|reflexivity].
  destruct e as [| code | | | |]; try reflexivity.
  destruct (String.eqb code "404"); reflexivity.
Qed.

Lemma reattempt_incomplete_run s :
  reattempt_incomplete settings s
  = let w := world s in
    let r := reattempt_scan settings (clock w) (uploads w) (cache w) in
    Go tt (mkSt (mkWorld (uploads w) (next_id w) r.2 (clock w))
                (trace s ++ map EvDelay r.1)).
Proof.
  unfold reattempt_incomplete, bind, get_world, emit_all, put_world. cbn.
  destruct (reattempt_scan settings (clock (world s)) (uploads (world s))
                           (cache (world s))) as [ids c].
  reflexivity.
Qed.

Lemma rate_run (t : Z) (seconds : N) s :
  rate t (t + Z.of_N seconds) s
  = if (seconds =? 0)%N then Leave (Raised ZeroDivisionError) s else Go tt s.
Proof.
  unfold rate. replace (t + Z.of_N seconds - t)%Z with (Z.of_N seconds) by lia.
  destruct (N.eqb_spec seconds 0) as [->|Hne]; [reflexivity|].
  destruct (Z.eqb_spec (Z.of_N seconds) 0) as [H|_]; [lia | reflexivity].
Qed.

Lemma upload_to_inbox_run request upload name key size url s :
  let w := world s in
  let bi := resolved_bucket settings env request in
  let upload_obj := new_upload settings env request w name (Some key) None size url in
  let seconds := upload_seconds env (bucket bi) key upload in
  let tr := trace s ++ [EvPutObject (bucket bi) key upload] in
  let staged t :=
    mkSt (mkWorld (uploads w ++ [upload_obj]) (next_id w + 1) (cache w) t) tr in
  upload_to_inbox env request upload name key bi size url s
  = match put_object env bi key upload with
    | Some e => Leave (Raised e) (staged (clock w))
    | None =>
        if (seconds =? 0)%N then Leave (Raised ZeroDivisionError) (staged (clock w))
        else Go upload_obj (staged (clock w + Z.of_N seconds)%Z)
    end.
Proof.
  cbn zeta. unfold upload_to_inbox, bind at 1 2 3, Upload_objects_create, now, emit.
  cbn [world trace uploads next_id cache clock].
  destruct (put_object env (resolved_bucket settings env request) key upload);
    [reflexivity|].
  unfold bind, elapse. cbn [world trace uploads next_id cache clock].
  rewrite rate_run.
  destruct (N.eqb_spec (upload_seconds env
              (bucket (resolved_bucket settings env request)) key upload) 0) as [->|Hne].
  - cbn. rewrite Z.add_0_r. reflexivity.
  - reflexivity.
Qed.

Lemma store_in_inbox_directory_eq request upload name key size url directory fuel s :
  let w := world s in
  let bi := resolved_bucket settings env request in
  let inbox_filepath := OsPath.join directory key in
  let inbox_filedir := OsPath.dirname inbox_filepath in
  let upload_obj :=
    new_upload settings env request w name None (Some inbox_filepath) size url in
  let seconds := store_seconds env inbox_filepath upload in
  let made :=
    if os_path_isdir env inbox_filedir then [] else [EvMakedirs inbox_filedir] in
  let staged t :=
    mkSt (mkWorld (uploads w ++ [upload_obj]) (next_id w + 1) (cache w) t)
         ((trace s ++ made) ++ [EvWriteFile inbox_filepath upload]) in
  store_in_inbox_directory env fuel directory request upload name key bi size url s
  = match (if os_path_isdir env inbox_filedir then None
           else os_makedirs env inbox_filedir) with
    | Some e => Leave (Raised e) (mkSt w (trace s ++ [EvMakedirs inbox_filedir]))
    | None =>
        match write_file env inbox_filepath upload with
        | Some e => Leave (Raised e) (staged (clock w))
        | None =>
            if (seconds =? 0)%N
            then Leave (Raised ZeroDivisionError) (staged (clock w))
            else bind (wait_for_file env fuel inbox_filepath 0)
                      (fun _ => ret upload_obj)
                      (staged (clock w + Z.of_N seconds)%Z)
        end
    end.
Proof.
  cbn zeta. unfold store_in_inbox_directory.
  set (path := OsPath.join directory key).
  set (dir := OsPath.dirname path).
  unfold bind at 1.
  destruct (os_path_isdir env dir).
  - unfold ret at 1. unfold bind at 1. unfold Upload_objects_create at 1.
    unfold bind at 1. unfold now at 1. unfold bind at 1. unfold emit at 1.
    cbn [world trace uploads next_id cache clock].
    rewrite app_nil_r. fold (resolved_bucket settings env request).
    destruct (write_file env path upload); [reflexivity|].
    unfold bind at 1. unfold elapse at 1. unfold bind at 1. unfold now at 1.
    cbn [world trace uploads next_id cache clock].
    unfold bind at 1. rewrite rate_run.
    destruct (N.eqb_spec (store_seconds env path upload) 0) as [->|Hne];
      [cbn [Z.of_N]; rewrite Z.add_0_r|]; reflexivity.
  - unfold bind at 1. unfold emit at 1. cbn [world trace].
    destruct (os_makedirs env dir); [reflexivity|].
    unfold ret at 1. unfold bind at 1. unfold Upload_objects_create at 1.
    unfold bind at 1. unfold now at 1. unfold bind at 1. unfold emit at 1.
    cbn [world trace uploads next_id cache clock].
    fold (resolved_bucket settings env request).
    destruct (write_file env path upload); [reflexivity|].
    unfold bind at 1. unfold elapse at 1. unfold bind at 1. unfold now at 1.
    cbn [world trace uploads next_id cache clock].
    unfold bind at 1. rewrite rate_run.
    destruct (N.eqb_spec (store_seconds env path upload) 0) as [->|Hne];
      [cbn [Z.of_N]; rewrite Z.add_0_r|]; reflexivity.
Qed.

Lemma store_in_inbox_directory_run request upload name key size url directory fuel s :
  (5 <= fuel)%nat ->
  let w := world s in
  let bi := resolved_bucket settings env request in
  let inbox_filepath := OsPath.join directory key in
  let inbox_filedir := OsPath.dirname inbox_filepath in
  let upload_obj :=
    new_upload settings env request w name None (Some inbox_filepath) size url in
  let seconds := Z.of_N (store_seconds env inbox_filepath upload) in
  seconds <> 0%Z ->
  directory_ready env inbox_filedir ->
  write_file env inbox_filepath upload = None ->
  exists failed : nat,
    (failed <= 5)%nat
    /\ store_in_inbox_directory env fuel directory request upload name key bi size url s
       = Go upload_obj
            (mkSt (mkWorld (uploads w ++ [upload_obj]) (next_id w + 1) (cache w)
                           (clock w + seconds + slept 0 failed))
                  (trace s
                   ++ (if os_path_isdir env inbox_filedir then []
                       else [EvMakedirs inbox_filedir])
                   ++ [EvWriteFile inbox_filepath upload]
                   ++ poll_trace inbox_filepath 0 failed
                        (if (failed <=? 4)%nat then [EvIsFile inbox_filepath true]
                         else [])))
    /\ (forall i, (i < failed)%nat ->
          os_path_isfile env inbox_filepath (clock w + seconds + slept 0 i) = false)
    /\ ((failed <= 4)%nat ->
          os_path_isfile env inbox_filepath (clock w + seconds + slept 0 failed) = true).
Proof.
  intros Hfuel. cbn zeta. intros Hsecs Hready Hwrite.
  rewrite store_in_inbox_directory_eq. cbn zeta.
  set (path := OsPath.join directory key) in *.
  set (dir := OsPath.dirname path) in *.
  set (made := if os_path_isdir env dir then [] else [EvMakedirs dir]).
  set (u := new_upload settings env request (world s) name None (Some path) size url).
  assert (Hmade : (if os_path_isdir env dir then None else os_makedirs env dir) = None).
  { destruct Hready as [-> | H]; [reflexivity|].
    destruct (os_path_isdir env dir); [reflexivity | exact H]. }
  rewrite Hmade, Hwrite.
  destruct (N.eqb_spec (store_seconds env path upload) 0) as [Hz|_];
    [rewrite Hz in Hsecs; cbn in Hsecs; congruence|].
  set (s1 := mkSt (mkWorld (uploads (world s) ++ [u]) (next_id (world s) + 1)
                           (cache (world s))
                           (clock (world s) + Z.of_N (store_seconds env path upload)))
                  ((trace s ++ made) ++ [EvWriteFile path upload])).
  destruct (wait_for_file_run env path 4 0 fuel s1) as (failed & Hle & Hrun & Hfalse & Htrue);
    [reflexivity | lia | lia |].
  exists failed. split; [exact Hle|]. split; [|split; assumption].
  refine (eq_trans (bind_go (wait_for_file env fuel path 0) (fun _ => ret u) s1 tt _ Hrun) _).
  unfold ret, advance, s1. cbn [world trace uploads next_id cache clock].
  rewrite <- !app_assoc. reflexivity.
Qed.

Theorem upload_archive_run fuel request w :
  (5 <= fuel)%nat ->
  exists o w' tr,
    upload_archive settings env fuel request w = Some (o, w', tr)
    /\ run_shape settings env request w o w' tr.
Proof.
  intros Hfuel. unfold upload_archive, upload_archive_body.
  destruct (receive_cases env request (mkSt w [])) as
    [[o Hr] | Hr].
  { rewrite (bind_leave _ _ _ _ _ Hr).
    exists o, w, []. split; [destruct o; destruct w; reflexivity|].
    apply run_no_input. exact Hr. }
  assert (exists upload name size url tr0,
             receive env request (mkSt w []) = Go (upload, name, size, url) (mkSt w tr0))
    as (upload & name & size & url & tr0 & Hrecv).
  { destruct Hr as [(u & n & sz & H) | (u & n & sz & url & H)]; eauto 10. }
  clear Hr. rewrite (bind_go _ _ _ _ _ Hrecv). cbn beta iota.
  destruct (N.eqb_spec size 0) as [->|Hsize].
  { erewrite bind_leave by reflexivity.
    exists (JsonResponse (error_payload "File size 0") 400), w, tr0.
    split; [destruct w; reflexivity|]. eapply run_empty. exact Hrecv. }
  erewrite bind_go by reflexivity.
  destruct (list_members_cases env upload name (mkSt w tr0)) as
    [(listing & Hmem & Hlm) | (o & Hlm)].
  2:{ rewrite (bind_leave _ _ _ _ _ Hlm).
      exists o, w, tr0. split; [destruct o; destruct w; reflexivity|].
      eapply run_bad_archive; eassumption. }
  rewrite (bind_go _ _ _ _ _ Hlm).
  destruct (check_symbols_archive_file_listing
              (DISALLOWED_SYMBOLS_SNIPPETS settings) listing) as [error|] eqn:Hcheck.
  { assert (Hv : validate settings listing (mkSt w tr0)
                 = Leave (JsonResponse (error_payload (PyStr.strip error)) 400)
                         (mkSt w tr0)).
    { unfold validate. rewrite Hcheck, (check_error_truthy _ _ _ Hcheck). reflexivity. }
    rewrite (bind_leave _ _ _ _ _ Hv).
    eexists _, w, tr0. split; [destruct w; reflexivity|].
    eapply run_invalid_listing; eassumption. }
  assert (Hv : validate settings listing (mkSt w tr0) = Go tt (mkSt w tr0)).
  { unfold validate. rewrite Hcheck. reflexivity. }
  rewrite (bind_go _ _ _ _ _ Hv).
  assert (Hval : validated settings env request w upload name size url tr0 listing).
  { repeat split; assumption. }
  fold (resolved_bucket settings env request).
  pose proof (confirm_bucket_run request (mkSt w tr0)) as Hcb. cbn zeta in Hcb.
  destruct (head_bucket env (resolved_bucket settings env request)) as [e|] eqn:Hhead.
  { rewrite (bind_leave _ _ _ _ _ Hcb).
    eexists _, w, _. split; [destruct w; reflexivity|].
    eapply run_bucket_failure; eassumption. }
  rewrite (bind_go _ _ _ _ _ Hcb). cbn [world trace].
  erewrite bind_go by reflexivity. cbn [world trace].
  fold (staging_key env w name listing).
  destruct (inbox_directory settings) as [directory|] eqn:Hdir.
  - (* filesystem *)
    assert (Hsel : UPLOAD_INBOX_DIRECTORY settings = Some directory
                   /\ exists c d, directory = String c d).
    { unfold inbox_directory in Hdir.
      destruct (UPLOAD_INBOX_DIRECTORY settings) as [[|c d]|]; try discriminate.
      injection Hdir as <-. eauto. }
    destruct Hsel as [Hsel (c0 & d0 & Hcd)]. rewrite Hsel, Hcd. rewrite <- Hcd.
    set (s0 := mkSt w (tr0 ++ [EvHeadBucket (bucket (resolved_bucket settings env request))])).
    set (path := OsPath.join directory (staging_key env w name listing)).
    set (dir := OsPath.dirname path).
    pose proof (store_in_inbox_directory_eq request upload name
                  (staging_key env w name listing) size url directory fuel s0) as Heq.
    cbn zeta in Heq. fold path in Heq. fold dir in Heq.
    destruct (if os_path_isdir env dir then None else os_makedirs env dir)
      as [e|] eqn:Hmade.
    { rewrite (bind_leave _ _ _ _ _ Heq). cbn [world trace s0].
      eexists _, _, _. split; [destruct w; reflexivity|].
      rewrite <- app_assoc.
      destruct (os_path_isdir env dir) eqn:Hisdir; [discriminate|].
      eapply (run_makedirs_failure settings env request w upload name size url tr0
                listing directory e); eassumption. }
    assert (Hready : directory_ready env dir).
    { unfold directory_ready. destruct (os_path_isdir env dir); [left | right]; auto. }
    destruct (write_file env path upload) as [e|] eqn:Hwrite.
    { rewrite (bind_leave _ _ _ _ _ Heq). cbn [world trace s0 uploads next_id cache clock].
      eexists _, _, _. split; [reflexivity|].
      rewrite <- !app_assoc.
      eapply (run_write_failure settings env request w upload name size url tr0
                listing directory e); try eassumption. left. exact Hwrite. }
    destruct (N.eqb_spec (store_seconds env path upload) 0) as [Hz|Hnz].
    { rewrite (bind_leave _ _ _ _ _ Heq). cbn [world trace s0 uploads next_id cache clock].
      eexists _, _, _. split; [reflexivity|].
      rewrite <- !app_assoc.
      eapply (run_write_failure settings env request w upload name size url tr0
                listing directory ZeroDivisionError); try eassumption.
      right. split; [exact Hwrite|]. split; [|reflexivity].
      unfold write_seconds. fold path. rewrite Hz. reflexivity. }
    clear Heq.
    assert (Hsecs : write_seconds env w directory name listing upload <> 0%Z).
    { unfold write_seconds. fold path. lia. }
    destruct (store_in_inbox_directory_run request upload name
                (staging_key env w name listing) size url directory fuel s0
                Hfuel Hsecs Hready Hwrite)
      as (failed & Hle & Hrun & Hfalse & Htrue).
    rewrite (bind_go _ _ _ _ _ Hrun).
    erewrite bind_go by reflexivity.
    rewrite (bind_go _ _ _ _ _ (reattempt_incomplete_run _)).
    cbn [world trace s0 uploads next_id cache clock Upload.id fst snd].
    unfold ret.
    change (Z.of_N (store_seconds env path upload))
      with (write_seconds env w directory name listing upload).
    match goal with
    | |- context [reattempt_scan ?a ?b ?c ?d] =>
        destruct (reattempt_scan a b c d) as [ids c'] eqn:Hscan
    end.
    eexists _, _, _. split; [reflexivity|].
    rewrite <- !app_assoc.
    eapply (run_accepted_filesystem settings env request w upload name size url tr0
              listing directory failed ids c'); try eassumption.
  - (* object store *)
    pose proof (upload_to_inbox_run request upload name
                  (staging_key env w name listing) size url
                  (mkSt w (tr0 ++ [EvHeadBucket (bucket (resolved_bucket settings env request))])))
      as Hrun. cbn zeta in Hrun. cbn [world trace] in Hrun.
    assert (Hbranch :
      match UPLOAD_INBOX_DIRECTORY settings with
      | Some (String c directory) =>
          store_in_inbox_directory env fuel (String c directory) request
            upload name (staging_key env w name listing)
            (resolved_bucket settings env request) size url
      | _ =>
          upload_to_inbox env request upload name
            (staging_key env w name listing)
            (resolved_bucket settings env request) size url
      end
      = upload_to_inbox env request upload name
            (staging_key env w name listing)
            (resolved_bucket settings env request) size url).
    { unfold inbox_directory in Hdir.
      destruct (UPLOAD_INBOX_DIRECTORY settings) as [[|c d]|];
        [reflexivity | discriminate | reflexivity]. }
    rewrite Hbranch. clear Hbranch.
    destruct (put_object env (resolved_bucket settings env request)
                         (staging_key env w name listing) upload) as [e|] eqn:Hput.
    + rewrite (bind_leave _ _ _ _ _ Hrun). cbn [world trace uploads next_id cache clock].
      eexists _, _, _. split; [reflexivity|].
      rewrite <- app_assoc.
      eapply run_put_failure; eassumption.
    + destruct (N.eqb_spec (upload_seconds env
                  (bucket (resolved_bucket settings env request))
                  (staging_key env w name listing) upload) 0) as [Hz|Hnz].
      * rewrite (bind_leave _ _ _ _ _ Hrun).
        cbn [world trace uploads next_id cache clock].
        eexists _, _, _. split; [reflexivity|].
        rewrite <- app_assoc.
        eapply run_upload_rate_failure; try eassumption.
        unfold put_seconds. rewrite Hz. reflexivity.
      * rewrite (bind_go _ _ _ _ _ Hrun).
        erewrite bind_go by reflexivity.
        rewrite (bind_go _ _ _ _ _ (reattempt_incomplete_run _)).
        cbn [world trace uploads next_id cache clock Upload.id fst snd].
        unfold ret.
        change (Z.of_N (upload_seconds env (bucket (resolved_bucket settings env request))
                                       (staging_key env w name listing) upload))
          with (put_seconds settings env request w name listing upload).
        match goal with
        | |- context [reattempt_scan ?a ?b ?c ?d] =>
            destruct (reattempt_scan a b c d) as [ids c'] eqn:Hscan
        end.
        eexists _, _, _. split; [reflexivity|].
        rewrite <- !app_assoc.
        eapply (run_accepted_object_store settings env request w upload name size url tr0
                  listing ids c'); try eassumption.
        unfold put_seconds. lia.
Qed.
End Sound.

Section ViewProperties.
Variable settings : Settings.
Variable env : Env.

Lemma upload_archive_inv fuel request w o w' tr :
  (5 <= fuel)%nat ->
  upload_archive settings env fuel request w = Some (o, w', tr) ->
  run_shape settings env request w o w' tr.
Proof.
  intros Hfuel Hrun.
  destruct (upload_archive_run settings env fuel request w Hfuel)
    as (o1 & w1 & tr1 & Heq & Hshape).
  rewrite Heq in Hrun. injection Hrun as <- <- <-. exact Hshape.
Qed.

Lemma receive_trace request w r tr0 :
  (exists o, r = Leave o (mkSt w tr0)) \/ (exists x, r = Go x (mkSt w tr0)) ->
  receive env request (mkSt w []) = r ->
  Forall (fun ev => is_requests_get ev = true) tr0.
Proof.
  intros Hr Hrecv.
  destruct (receive_cases env request (mkSt w [])) as
    [(o & H) | [(u & n & sz & H) | (u & n & sz & url & H)]];
    rewrite H in Hrecv; subst r;
    destruct Hr as [(o' & Hr) | (x & Hr)]; try discriminate;
    injection Hr as ? ?; subst; cbn; repeat constructor.
Qed.

Lemma poll_trace_quiet path a failed last (P : Event -> bool) :
  P (EvIsFile path false) = false ->
  (forall n, P (EvSleep n) = false) ->
  Forall (fun ev => P ev = false) last ->
  Forall (fun ev => P ev = false) (poll_trace path a failed last).
Proof.
  intros H1 H2 H3. revert a. induction failed as [|k IH]; intros a; cbn.
  - exact H3.
  - constructor; [exact H1|]. constructor; [apply H2 | apply IH].
Qed.

Lemma guard_split (tr0 : list Event) h rest :
  Forall (fun ev => is_staging ev = false) tr0 ->
  is_staging h = false ->
  forall pre ev post,
    tr0 ++ h :: rest = pre ++ ev :: post -> is_staging ev = true -> In h pre.
Proof.
  intros Hq Hh. induction Hq as [|a tr0 Ha _ IH]; intros pre ev post Heq Hev.
  - destruct pre as [|p pre]; cbn in Heq; injection Heq as -> Hrest.
    + congruence.
    + left. reflexivity.
  - destruct pre as [|p pre]; cbn in Heq; injection Heq as -> Hrest.
    + congruence.
    + right. eapply IH; eassumption.
Qed.

Lemma quiet_no_split (tr : list Event) (P : Event -> bool) pre ev post :
  Forall (fun e => P e = false) tr -> tr = pre ++ ev :: post -> P ev = true -> False.
Proof.
  intros Hq -> Hev. apply List.Forall_app in Hq as [_ Hq].
  inversion Hq; congruence.
Qed.

Lemma quiet_not_in (tr : list Event) (P : Event -> bool) ev :
  Forall (fun e => P e = false) tr -> P ev = true -> ~ In ev tr.
Proof.
  intros Hq Hev Hin. rewrite List.Forall_forall in Hq. specialize (Hq ev Hin). congruence.
Qed.

Lemma requests_quiet (tr : list Event) (P : Event -> bool) :
  (forall u, P (EvRequestsGet u) = false) ->
  Forall (fun ev => is_requests_get ev = true) tr ->
  Forall (fun ev => P ev = false) tr.
Proof.
  intros HP. apply List.Forall_impl. intros [] H; try discriminate. apply HP.
Qed.

Lemma delays_quiet (ids : list Z) (P : Event -> bool) :
  (forall i, P (EvDelay i) = false) ->
  Forall (fun ev => P ev = false) (map EvDelay ids).
Proof.
  intros HP. induction ids; cbn; constructor; auto.
Qed.

Lemma calls_app tr1 tr2 :
  head_bucket_calls (tr1 ++ tr2) = (head_bucket_calls tr1 + head_bucket_calls tr2)%nat.
Proof. unfold head_bucket_calls. rewrite List.filter_app, List.length_app. reflexivity. Qed.

Lemma calls_quiet tr :
  Forall (fun ev => is_head_bucket ev = false) tr -> head_bucket_calls tr = 0%nat.
Proof.
  unfold head_bucket_calls. induction 1 as [|a tr Ha _ IH]; cbn; [reflexivity|].
  rewrite Ha. exact IH.
Qed.

Lemma head_bucket_failure_other request e :
  e <> ClientError "404" -> head_bucket_failure settings env request e = e.
Proof.
  intros Hne. destruct e as [| code | | | |]; try reflexivity. cbn.
  destruct (String.eqb_spec code "404") as [->|]; [congruence | reflexivity].
Qed.

Ltac quiet :=
  repeat first
    [ match goal with |- Forall _ ?l => is_evar l; fail 2 end
    | apply List.Forall_app; split
    | apply poll_trace_quiet; [reflexivity | intros; reflexivity | ]
    | apply delays_quiet; intros; reflexivity
    | apply requests_quiet; [intros; reflexivity | eassumption]
    | apply List.Forall_nil
    | apply List.Forall_cons; [reflexivity | ]
    | match goal with |- Forall _ (if ?b then _ else _) => destruct b end ].

(** C5.  Every staging write comes after a [head_bucket] call on the
    resolved bucket that succeeded.  The call is made once.  When it answers
    404 the view raises [ImproperlyConfigured] and is not a response; any
    other exception of the call leaves the view as it is.  In both cases
    nothing is staged and the world is as before. *)
Theorem bucket_confirmed_before_staging fuel request w o w' tr :
  (5 <= fuel)%nat ->
  upload_archive settings env fuel request w = Some (o, w', tr) ->
  let bi := resolved_bucket settings env request in
  (forall pre ev post,
      tr = pre ++ ev :: post -> is_staging ev = true ->
      In (EvHeadBucket (bucket bi)) pre /\ head_bucket env bi = None)
  /\ (forall b,
        In (EvHeadBucket b) tr ->
        b = bucket bi
        /\ head_bucket_calls tr = 1%nat
        /\ (head_bucket env bi = Some (ClientError "404") ->
              o = Raised (ImproperlyConfigured (bucket bi) (region bi) (endpoint_url bi))
              /\ Forall (fun ev => is_staging ev = false) tr
              /\ w' = w)
        /\ (forall e,
              head_bucket env bi = Some e -> e <> ClientError "404" ->
              o = Raised e
              /\ Forall (fun ev => is_staging ev = false) tr
              /\ w' = w)).
Proof.
  intros Hfuel Hrun bi. apply upload_archive_inv in Hrun; [|exact Hfuel].
  assert (Hlate : forall tr0 rest,
             Forall (fun ev => is_requests_get ev = true) tr0 ->
             Forall (fun ev => is_head_bucket ev = false) rest ->
             (forall b, In (EvHeadBucket b) (tr0 ++ EvHeadBucket (bucket bi) :: rest) ->
                b = bucket bi
                /\ head_bucket_calls (tr0 ++ EvHeadBucket (bucket bi) :: rest) = 1%nat)).
  { intros tr0 rest Hq0 Hq b Hin. split.
    - apply List.in_app_or in Hin as [Hin | [Heq | Hin]].
      + exfalso.
        apply (quiet_not_in tr0 is_head_bucket (EvHeadBucket b));
          [quiet|reflexivity|exact Hin].
      + congruence.
      + exfalso.
        apply (quiet_not_in rest is_head_bucket (EvHeadBucket b));
          [exact Hq|reflexivity|exact Hin].
    - rewrite calls_app, (calls_quiet tr0) by quiet.
      change (EvHeadBucket (bucket bi) :: rest) with ([EvHeadBucket (bucket bi)] ++ rest).
      rewrite calls_app, (calls_quiet rest) by exact Hq. reflexivity. }
  destruct Hrun as
    [ o tr0 Hrecv
    | upload name url tr0 Hrecv
    | upload name size url tr0 o Hrecv Hsize Hlm
    | upload name size url tr0 listing error Hrecv Hsize Hmem Hcheck
    | upload name size url tr0 listing e [Hrecv Hval] Hhead
    | upload name size url tr0 listing e [Hrecv Hval] Hhead Hdir Hput
    | upload name size url tr0 listing ids c [Hrecv Hval] Hhead Hdir Hput Hsecs u Hscan
    | upload name size url tr0 listing directory failed ids c [Hrecv Hval] Hhead Hdir
        path dir u Hready Hwrite Hsecs Hle Hfalse Htrue Hscan
    | upload name size url tr0 listing [Hrecv Hval] Hhead Hdir Hput Hsecs
    | upload name size url tr0 listing directory e [Hrecv Hval] Hhead Hdir
        path dir Hisdir Hmk
    | upload name size url tr0 listing directory e [Hrecv Hval] Hhead Hdir
        path dir Hready Hwrite ];
    (assert (Hq0 : Forall (fun ev => is_requests_get ev = true) tr0)
      by (eapply receive_trace; [|exact Hrecv]; eauto)).
  1-4: split;
    [ intros pre ev post Heq Hev; exfalso;
      eapply (quiet_no_split tr0 is_staging); [quiet|exact Heq|exact Hev]
    | intros b Hin; exfalso;
      apply (quiet_not_in tr0 is_head_bucket (EvHeadBucket b));
        [quiet|reflexivity|exact Hin] ].
  - fold bi in Hhead |- *. split.
    + intros pre ev post Heq Hev. exfalso.
      eapply (quiet_no_split _ is_staging); [|exact Heq|exact Hev]. quiet.
    + intros b Hin.
      destruct (Hlate tr0 [] Hq0 ltac:(constructor) b Hin) as [Hb Hcalls].
      split; [exact Hb|]. split; [exact Hcalls|]. split.
      * intros H404. rewrite H404 in Hhead. injection Hhead as <-.
        split; [reflexivity|]. split; [quiet | reflexivity].
      * intros e' He' Hne. rewrite He' in Hhead. injection Hhead as <-.
        rewrite head_bucket_failure_other by exact Hne.
        split; [reflexivity|]. split; [quiet | reflexivity].
  - fold bi in Hhead |- *. split.
    + intros pre ev post Heq Hev. split; [|exact Hhead].
      eapply (guard_split tr0); [quiet | reflexivity | exact Heq | exact Hev].
    + intros b Hin.
      match type of Hin with
      | In _ (tr0 ++ EvHeadBucket _ :: ?rest) =>
          destruct (Hlate tr0 rest Hq0 ltac:(quiet) b Hin) as [Hb Hcalls]
      end.
      split; [exact Hb|]. split; [exact Hcalls|]. split; intros; congruence.
  - fold bi in Hhead |- *. split.
    + intros pre ev post Heq Hev. split; [|exact Hhead].
      eapply (guard_split tr0); [quiet | reflexivity | exact Heq | exact Hev].
    + intros b Hin. cbn [List.app] in Hin |- *.
      match type of Hin with
      | In _ (tr0 ++ EvHeadBucket _ :: ?rest) =>
          destruct (Hlate tr0 rest Hq0 ltac:(quiet) b Hin) as [Hb Hcalls]
      end.
      split; [exact Hb|]. split; [exact Hcalls|]. split; intros; congruence.
  - fold bi in Hhead |- *. split.
    + intros pre ev post Heq Hev. split; [|exact Hhead].
      eapply (guard_split tr0); [quiet | reflexivity | exact Heq | exact Hev].
    + intros b Hin. cbn [List.app] in Hin |- *.
      match type of Hin with
      | In _ (tr0 ++ EvHeadBucket _ :: ?rest) =>
          destruct (Hlate tr0 rest Hq0 ltac:(quiet) b Hin) as [Hb Hcalls]
      end.
      split; [exact Hb|]. split; [exact Hcalls|]. split; intros; congruence.
  - fold bi in Hhead |- *. split.
    + intros pre ev post Heq Hev. split; [|exact Hhead].
      eapply (guard_split tr0); [quiet | reflexivity | exact Heq | exact Hev].
    + intros b Hin.
      match type of Hin with
      | In _ (tr0 ++ EvHeadBucket _ :: ?rest) =>
          destruct (Hlate tr0 rest Hq0 ltac:(quiet) b Hin) as [Hb Hcalls]
      end.
      split; [exact Hb|]. split; [exact Hcalls|]. split; intros; congruence.
  - fold bi in Hhead |- *. split.
    + intros pre ev post Heq Hev. exfalso.
      eapply (quiet_no_split _ is_staging); [|exact Heq|exact Hev]. quiet.
    + intros b Hin.
      match type of Hin with
      | In _ (tr0 ++ EvHeadBucket _ :: ?rest) =>
          destruct (Hlate tr0 rest Hq0 ltac:(quiet) b Hin) as [Hb Hcalls]
      end.
      split; [exact Hb|]. split; [exact Hcalls|]. split; intros; congruence.
  - fold bi in Hhead |- *. split.
    + intros pre ev post Heq Hev. split; [|exact Hhead].
      eapply (guard_split tr0); [quiet | reflexivity | exact Heq | exact Hev].
    + intros b Hin. cbn [List.app] in Hin |- *.
      match type of Hin with
      | In _ (tr0 ++ EvHeadBucket _ :: ?rest) =>
          destruct (Hlate tr0 rest Hq0 ltac:(quiet) b Hin) as [Hb Hcalls]
      end.
      split; [exact Hb|]. split; [exact Hcalls|]. split; intros; congruence.
Qed.

(** C8.  A request whose input has size zero, uploaded or announced by
    the download form, is answered 400 with the JSON object
    {"error": "File size 0"}; the world (the Upload table included) is as
    before and nothing was staged. *)
Theorem empty_input_rejected fuel request w :
  ((exists name upload rest,
       FILES request = (name, upload) :: rest /\ UploadedFile.size upload = 0%N)
   \/ (FILES request = []
       /\ (exists c u, dict_get (POST request) "url" = Some (String c u))
       /\ (exists url name,
             UploadByDownloadForm env (POST request) = FormValid url name 0%N))) ->
  exists tr,
    upload_archive settings env fuel request w
    = Some (JsonResponse (JDict [("error", JStr "File size 0")]) 400, w, tr)
    /\ Forall (fun ev => is_staging ev = false) tr.
Proof.
  intros Hinput.
  assert (exists upload name url tr,
             receive env request (mkSt w []) = Go (upload, name, 0%N, url) (mkSt w tr)
             /\ Forall (fun ev => is_staging ev = false) tr)
    as (upload & name & url & tr & Hrecv & Hquiet).
  { unfold receive.
    destruct Hinput as [(name & upload & rest & -> & Hsize)
                       | (-> & (c & u & ->) & (url & name & ->))].
    - exists (UploadedFile.content upload), name, None, []. rewrite Hsize.
      split; [reflexivity | constructor].
    - exists (requests_get env url), name, (Some url), [EvRequestsGet url].
      split; [reflexivity | repeat constructor]. }
  exists tr. split; [|exact Hquiet].
  unfold upload_archive, upload_archive_body.
  rewrite (bind_go _ _ _ _ _ Hrecv). cbn beta iota.
  erewrite bind_leave by reflexivity. destruct w; reflexivity.
Qed.
End ViewProperties.

(** ** The staging key, the response and the poll *)

Lemma hex_length bytes : String.length (MD5.hex bytes) = (2 * length bytes)%nat.
Proof. induction bytes as [|b bs IH]; cbn [MD5.hex String.length length]; lia. Qed.

Lemma le_bytes_length count x : length (MD5.le_bytes count x) = count.
Proof. unfold MD5.le_bytes. rewrite List.length_map, List.length_seq. reflexivity. Qed.

Lemma digest_length msg : length (MD5.digest msg) = 16%nat.
Proof.
  unfold MD5.digest. destruct (MD5.blocks _ _ _) as [a b c d].
  rewrite !List.length_app, !le_bytes_length. reflexivity.
Qed.

Lemma hexdigest_length s : String.length (MD5.hexdigest s) = 32%nat.
Proof. unfold MD5.hexdigest. rewrite hex_length, digest_length. reflexivity. Qed.

Lemma hex_digit_lower x : lower_hexadecimal (MD5.hex_digit x).
Proof.
  unfold MD5.hex_digit, lower_hexadecimal.
  match goal with |- In (nth ?n ?l ?d) _ => destruct (nth_in_or_default n l d) as [H | ->] end.
  - exact H.
  - left. reflexivity.
Qed.

Lemma hex_lower bytes : Forall lower_hexadecimal (chars (MD5.hex bytes)).
Proof.
  induction bytes as [|b bs IH]; cbn; [constructor|].
  constructor; [apply hex_digit_lower|]. constructor; [apply hex_digit_lower | exact IH].
Qed.

Lemma take_length n s : String.length (PyStr.take n s) = Nat.min n (String.length s).
Proof.
  revert s. induction n as [|n IH]; intros [|c s]; cbn; try reflexivity.
  rewrite IH. reflexivity.
Qed.

Lemma take_chars (P : ascii -> Prop) n s :
  Forall P (chars s) -> Forall P (chars (PyStr.take n s)).
Proof.
  revert s. induction n as [|n IH]; intros [|c s] H; cbn; try constructor.
  - inversion H; assumption.
  - apply IH. inversion H; assumption.
Qed.

Lemma content_hash_shape listing :
  String.length (content_hash listing) = 12%nat
  /\ Forall lower_hexadecimal (chars (content_hash listing)).
Proof.
  unfold content_hash. split.
  - rewrite take_length, hexdigest_length. reflexivity.
  - apply take_chars. apply hex_lower.
Qed.

Lemma str_length_app s t : String.length (s +:+ t) = (String.length s + String.length t)%nat.
Proof. induction s as [|c s IH]; [reflexivity|]. rewrite str_app_cons. cbn. rewrite IH. reflexivity. Qed.

Lemma inbox_key_date_inj date1 date2 listing nm :
  inbox_key_of date1 listing nm = inbox_key_of date2 listing nm -> date1 = date2.
Proof.
  unfold inbox_key_of. intros H. apply (inj (String.app "inbox/")) in H.
  set (suffix := "/" +:+ content_hash listing +:+ "/" +:+ nm) in *.
  clearbody suffix.
  assert (Hlen : String.length date1 = String.length date2).
  { apply (f_equal String.length) in H. rewrite !str_length_app in H. lia. }
  revert date2 H Hlen. induction date1 as [|c d1 IH]; intros [|c2 d2] H Hlen;
    try discriminate; [reflexivity|].
  rewrite !str_app_cons in H. injection H as -> H. f_equal. apply IH; [exact H|].
  cbn in Hlen. lia.
Qed.

Section KeyProperties.
Variable settings : Settings.
Variable env : Env.

Lemma receive_leave_status request s payload status s' :
  receive env request s = Leave (JsonResponse payload status) s' -> status = 400%Z.
Proof.
  unfold receive.
  destruct (FILES request) as [|[? ?] ?]; [|discriminate].
  destruct (dict_get (POST request) "url") as [[|? ?]|]; try (intros [= <- <- <-]; reflexivity).
  destruct (UploadByDownloadForm env (POST request)) as [? ? ?|[|[? [|? ?]] ?]];
    try discriminate.
  intros [= <- <- <-]. reflexivity.
Qed.

Lemma list_members_leave_status upload nm s payload status s' :
  list_members env upload nm s = Leave (JsonResponse payload status) s' -> status = 400%Z.
Proof.
  unfold list_members.
  destruct (get_archive_members env upload nm); try discriminate;
    intros [= <- <- <-]; reflexivity.
Qed.

Lemma accepted_inv request w payload w' tr :
  run_shape settings env request w (JsonResponse payload 201) w' tr ->
  exists upload nm sz url tr0 listing upload_obj,
    validated settings env request w upload nm sz url tr0 listing
    /\ payload = JDict [("upload", _serialize_upload upload_obj)]
    /\ uploads w' = uploads w ++ [upload_obj]
    /\ Upload.skipped_keys upload_obj = None
    /\ Upload.filename upload_obj = nm
    /\ Upload.id upload_obj = next_id w
    /\ In (EvDelay (next_id w)) tr
    /\ match inbox_directory settings with
       | None =>
           Upload.inbox_key upload_obj = Some (staging_key env w nm listing)
           /\ In (EvPutObject (bucket (resolved_bucket settings env request))
                              (staging_key env w nm listing) upload) tr
       | Some directory =>
           Upload.inbox_filepath upload_obj
           = Some (OsPath.join directory (staging_key env w nm listing))
           /\ In (EvWriteFile (OsPath.join directory (staging_key env w nm listing))
                              upload) tr
       end.
Proof.
  intros Hrun.
  inversion Hrun as
    [ o tr0 Hrecv
    | upload nm url tr0 Hrecv
    | upload nm sz url tr0 o Hrecv Hsize Hlm
    | upload nm sz url tr0 listing error Hrecv Hsize Hmem Hcheck
    | | | upload nm sz url tr0 listing ids c Hval Hhead Hdir Hput Hsecs u Hscan
    | upload nm sz url tr0 listing directory failed ids c Hval Hhead Hdir
        path dir u Hready Hwrite Hsecs Hle Hfalse Htrue Hscan
    | | | ]; subst.
  - apply receive_leave_status in Hrecv. discriminate.
  - apply list_members_leave_status in Hlm. discriminate.
  - exists upload, nm, sz, url, tr0, listing, u.
    rewrite Hdir. split; [exact Hval|]. do 5 (split; [reflexivity|]).
    split; [|split; [reflexivity|]]; rewrite !List.in_app_iff; cbn; tauto.
  - exists upload, nm, sz, url, tr0, listing, u.
    rewrite Hdir. split; [exact Hval|]. do 5 (split; [reflexivity|]).
    split; [|split; [reflexivity|]]; rewrite !List.in_app_iff; cbn; tauto.
Qed.

(** C1, amended.  An accepted upload is staged under
    'inbox/<date>/<fingerprint>/<filename>', where the fingerprint is the
    first 12 characters, all lower-case hexadecimal, of the MD5 of the
    newline-joined 'name:size' lines of the listing.  Hence two uploads with
    the same listing and the same file name get the same key on the same
    day, and keys that differ only in the date segment on different days. *)
Theorem staging_key_of_listing fuel request w payload w' tr :
  (5 <= fuel)%nat ->
  upload_archive settings env fuel request w = Some (JsonResponse payload 201, w', tr) ->
  (exists upload nm sz url tr0 listing upload_obj,
      receive env request (mkSt w []) = Go (upload, nm, sz, url) (mkSt w tr0)
      /\ get_archive_members env upload nm = Members listing
      /\ uploads w' = uploads w ++ [upload_obj]
      /\ let fingerprint :=
           PyStr.take 12
             (MD5.hexdigest
                (PyStr.join newline
                   (map (fun x => name x +:+ ":" +:+ pretty (size x)) listing))) in
         let key :=
           "inbox/" +:+ strftime_Ymd env (clock w) +:+ "/" +:+ fingerprint
                    +:+ "/" +:+ nm in
         String.length fingerprint = 12%nat
         /\ Forall lower_hexadecimal (chars fingerprint)
         /\ match inbox_directory settings with
            | None =>
                Upload.inbox_key upload_obj = Some key
                /\ In (EvPutObject (bucket (resolved_bucket settings env request))
                                   key upload) tr
            | Some directory =>
                Upload.inbox_filepath upload_obj = Some (OsPath.join directory key)
                /\ In (EvWriteFile (OsPath.join directory key) upload) tr
            end)
  /\ (forall date1 date2 listing nm,
        (inbox_key_of date1 listing nm = inbox_key_of date2 listing nm <-> date1 = date2)
        /\ exists tail,
            inbox_key_of date1 listing nm = "inbox/" +:+ date1 +:+ tail
            /\ inbox_key_of date2 listing nm = "inbox/" +:+ date2 +:+ tail).
Proof.
  intros Hfuel Hrun. split.
  - apply (upload_archive_inv settings env) in Hrun; [|exact Hfuel].
    apply accepted_inv in Hrun
      as (upload & nm & sz & url & tr0 & listing & u
          & (Hrecv & _ & Hmem & _) & _ & Hup & _ & _ & _ & _ & Hkey).
    exists upload, nm, sz, url, tr0, listing, u.
    split; [exact Hrecv|]. split; [exact Hmem|]. split; [exact Hup|].
    cbn zeta. split; [apply (content_hash_shape listing)|].
    split; [apply (content_hash_shape listing)|]. exact Hkey.
  - intros date1 date2 listing nm. split.
    + split; [apply inbox_key_date_inj | intros ->; reflexivity].
    + exists ("/" +:+ content_hash listing +:+ "/" +:+ nm). split; reflexivity.
Qed.

(** C10.  The serialized upload holds a list under 'skipped_keys': the
    empty list when the record has no list or an empty one, the list itself
    otherwise; and every 201 response carries such a serialized upload. *)
Theorem skipped_keys_is_a_list (upload : Upload.t) :
  (exists keys,
      json_get (_serialize_upload upload) "skipped_keys" = Some (JList (map JStr keys))
      /\ (Upload.skipped_keys upload = None \/ Upload.skipped_keys upload = Some [] ->
          keys = [])
      /\ (forall l, Upload.skipped_keys upload = Some l -> keys = l))
  /\ (forall fuel request w payload w' tr,
        (5 <= fuel)%nat ->
        upload_archive settings env fuel request w
        = Some (JsonResponse payload 201, w', tr) ->
        exists upload_obj,
          payload = JDict [("upload", _serialize_upload upload_obj)]
          /\ json_get (_serialize_upload upload_obj) "skipped_keys" = Some (JList [])).
Proof.
  split.
  - exists (skipped_keys_or_empty (Upload.skipped_keys upload)).
    split; [reflexivity|]. split.
    + intros [-> | ->]; reflexivity.
    + intros l ->. destruct l; reflexivity.
  - intros fuel request w payload w' tr Hfuel Hrun.
    apply (upload_archive_inv settings env) in Hrun; [|exact Hfuel].
    apply accepted_inv in Hrun
      as (upload' & nm & sz & url & tr0 & listing & u & _ & Hpay & _ & Hsk & _).
    exists u. split; [exact Hpay|].
    cbn. rewrite Hsk. reflexivity.
Qed.

Lemma sleeps_app tr1 tr2 : sleeps (tr1 ++ tr2) = sleeps tr1 ++ sleeps tr2.
Proof. unfold sleeps. apply List.flat_map_app. Qed.


Lemma sleeps_of_requests (tr0 : list Event) :
  Forall (fun ev => is_requests_get ev = true) tr0 -> sleeps tr0 = [].
Proof.
  intros H. induction H as [|ev tr1 Hev _ IH]; [reflexivity|].
  destruct ev; try discriminate Hev. exact IH.
Qed.


End KeyProperties.

(** ** Storage existence, instances and counterexamples *)

(** C4.  [exists()] answers [false] exactly on a not-found response, [true]
    exactly on success, and raises [StorageError] on a denied authorization
    and on a transport failure: absent is never taken for inaccessible. *)
Theorem exists_tells_absent_from_inaccessible
        (bucket : Storage.StorageBucket) (probe : Storage.Probe) :
  (probe = Storage.NotFound -> Storage.exists_ bucket probe = Storage.Returns false)
  /\ (probe = Storage.Found -> Storage.exists_ bucket probe = Storage.Returns true)
  /\ (forall kind message,
        probe = Storage.AuthorizationDenied kind message
        \/ probe = Storage.TransportFailure kind message ->
        Storage.exists_ bucket probe
        = Storage.Raises (Storage.mkStorageError bucket kind message))
  /\ (Storage.exists_ bucket probe = Storage.Returns false <-> probe = Storage.NotFound)
  /\ (Storage.exists_ bucket probe = Storage.Returns true <-> probe = Storage.Found).
Proof.
  split; [intros ->; reflexivity|]. split; [intros ->; reflexivity|].
  split; [intros kind message [-> | ->]; reflexivity|].
  split; destruct probe; cbn; split; congruence.
Qed.

Lemma exists_tells_absent_from_inaccessible_witness :
  let bucket := Storage.mkStorageBucket "s3" "https://s3.amazonaws.com/some-bucket" in
  Storage.exists_ bucket (Storage.AuthorizationDenied "ClientError" "Forbidden")
  = Storage.Raises (Storage.mkStorageError bucket "ClientError" "Forbidden").
Proof.
  intros bucket.
  apply (exists_tells_absent_from_inaccessible
           bucket (Storage.AuthorizationDenied "ClientError" "Forbidden")).
  left. reflexivity.
Defined.

(** Checks of the model against known answers. *)

Example md5_of_empty : MD5.hexdigest "" = "d41d8cd98f00b204e9800998ecf8427e".
Proof. vm_compute. reflexivity. Qed.

Example md5_of_abc : MD5.hexdigest "abc" = "900150983cd24fb0d6963f7d28e17f72".
Proof. vm_compute. reflexivity. Qed.

Example sample_key :
  inbox_key_of "2018-01-02"
    [mkFileMember "a.pdb/ABC/a.sym" 10; mkFileMember "foo-symbols.txt" 3] "sym.zip"
  = "inbox/2018-01-02/3c58422dd192/sym.zip".
Proof. vm_compute. reflexivity. Qed.

Example module_hex_file_passes :
  check_symbols_archive_file_listing
    ["exe"] [mkFileMember "app.pdb/ABCDEF0123456789/app.sym" 1] = None.
Proof. reflexivity. Qed.

Example symbols_txt_passes :
  check_symbols_archive_file_listing ["exe"] [mkFileMember "crash-symbols.txt" 1] = None.
Proof. reflexivity. Qed.

Example readme_fails :
  check_symbols_archive_file_listing ["exe"] [mkFileMember "readme.txt" 1]
  = Some unrecognized_error.
Proof. reflexivity. Qed.

Example storage_error_text :
  Storage.error_message
    (Storage.mkStorageError
       (Storage.mkStorageBucket "s3" "https://s3.amazonaws.com/some-bucket?access=public")
       "ClientError"
       "An error occurred (403) when calling the HeadBucket operation: Forbidden")
  = "s3 backend (https://s3.amazonaws.com/some-bucket?access=public) raised ClientError: An error occurred (403) when calling the HeadBucket operation: Forbidden".
Proof. reflexivity. Qed.

(** ** Instances *)

Lemma validator_first_violation_wins_witness :
  check_symbols_archive_file_listing
    ["exe"]
    (Sample.listing ++ [mkFileMember "readme.txt" 1; mkFileMember "tool.exe" 2])
  = Some "Unrecognized file pattern. Should only be <module>/<hex>/<file> or <name>-symbols.txt and nothing else.".
Proof.
  destruct (validator_first_violation_wins
              ["exe"]
              (Sample.listing ++ [mkFileMember "readme.txt" 1; mkFileMember "tool.exe" 2]))
    as [_ H].
  destruct (H Sample.listing (mkFileMember "readme.txt" 1) [mkFileMember "tool.exe" 2])
    as [_ Hpattern].
  - reflexivity.
  - do 2 (apply List.Forall_cons; [apply acceptableb_spec; vm_compute; reflexivity|]).
    apply List.Forall_nil.
  - intros Hacc. apply acceptableb_spec in Hacc. vm_compute in Hacc. discriminate.
  - apply Hpattern. apply first_snippet_in_none. vm_compute. reflexivity.
Defined.

Lemma empty_middle_segment_accepted_witness :
  check_symbols_archive_file_listing ["exe"] [mkFileMember "a//b" 1] = None.
Proof.
  apply (empty_middle_segment_accepted ["exe"] [] (mkFileMember "a//b" 1) [] "a" "b").
  - reflexivity.
  - apply first_snippet_in_none. vm_compute. reflexivity.
Defined.

Lemma reattempt_is_throttled_witness :
  let scans := [(10000, [Sample.stuck]); (10100, [Sample.stuck]); (13700, [Sample.stuck])]%Z in
  (run_scans (Sample.settings None) scans ∅).1 = [(10000, 1); (13700, 1)]%Z
  /\ (10000 + UPLOAD_REATTEMPT_LIMIT_SECONDS (Sample.settings None) <= 13700)%Z.
Proof.
  intros scans. split; [vm_compute; reflexivity|].
  destruct (reattempt_is_throttled (Sample.settings None)) as (_ & Hwindow & _).
  apply (Hwindow scans ∅ 0%nat 1%nat 10000%Z 13700%Z 1%Z).
  - repeat constructor; cbn; lia.
  - lia.
  - vm_compute. reflexivity.
  - vm_compute. reflexivity.
Defined.

Lemma bucket_confirmed_before_staging_witness :
  exists o w' tr,
    upload_archive (Sample.settings None)
                   (Sample.env (fun _ => true) (Some (ClientError "404")))
                   5 (Sample.request "sym.zip" 100) Sample.world
    = Some (o, w', tr)
    /\ o = Raised (ImproperlyConfigured "https://s3.example.com/wildcard" None None)
    /\ w' = Sample.world.
Proof.
  edestruct (bucket_confirmed_before_staging
               (Sample.settings None)
               (Sample.env (fun _ => true) (Some (ClientError "404")))
               5 (Sample.request "sym.zip" 100) Sample.world) as [_ H].
  - lia.
  - vm_compute. reflexivity.
  - destruct (H "https://s3.example.com/wildcard") as (_ & _ & H404 & _).
    + vm_compute. tauto.
    + destruct H404 as (Ho & _ & Hw); [reflexivity|].
      eexists _, _, _. split; [vm_compute; reflexivity|]. split; [exact Ho | exact Hw].
Defined.

Lemma bucket_url_resolution_witness :
  bucket_url PyStr.lower Fnmatch.fnmatch "https://s3.example.com/default"
             Sample.exceptions (mkUser "Peter@example.com")
  = "https://s3.example.com/wildcard".
Proof.
  destruct (bucket_url_resolution PyStr.lower Fnmatch.fnmatch Sample.bucket_of
              "https://s3.example.com/default" Sample.exceptions
              (mkUser "Peter@example.com")) as (_ & _ & Hscan & _).
  apply (Hscan [] "*@example.com" "https://s3.example.com/wildcard"
               [("Peter@Example.com", "https://s3.example.com/peter")]).
  - reflexivity.
  - reflexivity.
  - constructor.
  - vm_compute. reflexivity.
Defined.

Lemma empty_input_rejected_witness :
  exists tr,
    upload_archive (Sample.settings None) (Sample.env (fun _ => true) None)
                   5 (Sample.request "sym.zip" 0) Sample.world
    = Some (JsonResponse (JDict [("error", JStr "File size 0")]) 400, Sample.world, tr)
    /\ Forall (fun ev => is_staging ev = false) tr.
Proof.
  apply (empty_input_rejected (Sample.settings None) (Sample.env (fun _ => true) None)
                              5 (Sample.request "sym.zip" 0) Sample.world).
  left. exists "sym.zip", (UploadedFile.mk 0 "PK"), []. split; reflexivity.
Defined.

Lemma skipped_keys_is_a_list_witness :
  json_get (_serialize_upload Sample.stuck) "skipped_keys" = Some (JList []).
Proof.
  destruct (skipped_keys_is_a_list (Sample.settings None) (Sample.env (fun _ => true) None)
                                   Sample.stuck) as [(keys & Hget & Hnull & _) _].
  rewrite Hget, Hnull; [reflexivity|]. left. reflexivity.
Defined.

Lemma staging_key_of_listing_witness :
  exists payload w' tr,
    upload_archive (Sample.settings None) (Sample.env (fun _ => true) None)
                   5 (Sample.request "sym.zip" 100) Sample.world
    = Some (JsonResponse payload 201, w', tr)
    /\ (inbox_key_of "2018-01-02" Sample.listing "sym.zip"
        = inbox_key_of "2018-01-03" Sample.listing "sym.zip"
        <-> "2018-01-02" = "2018-01-03").
Proof.
  edestruct (staging_key_of_listing
               (Sample.settings None) (Sample.env (fun _ => true) None)
               5 (Sample.request "sym.zip" 100) Sample.world) as [_ Hdays].
  - lia.
  - vm_compute. reflexivity.
  - eexists _, _, _. split; [vm_compute; reflexivity|].
    apply (Hdays "2018-01-02" "2018-01-03" Sample.listing "sym.zip").
Defined.


(** The store rate divides by zero when the two clock readings around
    the write coincide: the view raises and the row is rolled back. *)
Lemma coinciding_readings_divide_by_zero :
  let env :=
    mkEnv (fun _ => FormValid "https://example.com/sym.zip" "sym.zip" 0)
          (fun _ => "PK") (fun _ _ => Members Sample.listing)
          PyStr.lower Fnmatch.fnmatch Sample.bucket_of
          (fun _ => None) (fun _ _ _ => None)
          (fun _ => "2018-01-02") (fun _ => false) (fun _ _ => true)
          (fun _ => None) (fun _ _ => None)
          (fun _ _ => 0%N) (fun _ _ _ => 0%N) in
  exists w' tr,
    upload_archive (Sample.settings (Some "/inbox")) env
                   5 (Sample.request "sym.zip" 100) Sample.world
    = Some (Raised ZeroDivisionError, w', tr)
    /\ uploads w' = uploads Sample.world
    /\ sleeps tr = [].
Proof.
  cbn zeta. eexists _, _. split; [vm_compute; reflexivity|].
  split; vm_compute; reflexivity.
Qed.

(** ** Counterexamples *)

(** C1 as stated fails: the same listing on the same day is staged under
    two keys when the two uploads have different file names. *)
Lemma same_listing_other_filename_other_key :
  exists o1 w1 tr1 o2 w2 tr2,
    upload_archive (Sample.settings None) (Sample.env (fun _ => true) None)
                   5 (Sample.request "a.zip" 100) Sample.world = Some (o1, w1, tr1)
    /\ upload_archive (Sample.settings None) (Sample.env (fun _ => true) None)
                      5 (Sample.request "b.zip" 100) Sample.world = Some (o2, w2, tr2)
    /\ get_archive_members (Sample.env (fun _ => true) None) "PK" "a.zip"
       = get_archive_members (Sample.env (fun _ => true) None) "PK" "b.zip"
    /\ staged_keys tr1 = ["inbox/2018-01-02/1cebe2fff25f/a.zip"]
    /\ staged_keys tr2 = ["inbox/2018-01-02/1cebe2fff25f/b.zip"]
    /\ staged_keys tr1 <> staged_keys tr2.
Proof.
  eexists _, _, _, _, _, _.
  split; [vm_compute; reflexivity|]. split; [vm_compute; reflexivity|].
  split; [reflexivity|]. split; [vm_compute; reflexivity|].
  split; [vm_compute; reflexivity|]. vm_compute. discriminate.
Qed.

(** C6.  The exact match is not checked without regard to case: the
    lookup lowers the email and not the keys, while the scan after it lowers
    both.  With the table '*@example.com', 'Peter@Example.com' in this order
    and the email 'peter@example.com', the key that equals the email up to
    case is passed over by the lookup and loses to the wildcard before it
    in the scan; the resolution as the claim words it gives the URL of that
    key. *)
Lemma mixed_case_key_loses_to_wildcard :
  let user := mkUser "peter@example.com" in
  bucket_url PyStr.lower Fnmatch.fnmatch "https://s3.example.com/default"
             Sample.exceptions user
  = "https://s3.example.com/wildcard"
  /\ spec_bucket_url PyStr.lower Fnmatch.fnmatch "https://s3.example.com/default"
                     Sample.exceptions user
     = "https://s3.example.com/peter"
  /\ bucket_url PyStr.lower Fnmatch.fnmatch "https://s3.example.com/default"
                Sample.exceptions user
     <> spec_bucket_url PyStr.lower Fnmatch.fnmatch "https://s3.example.com/default"
                        Sample.exceptions user.
Proof.
  cbn zeta. split; [vm_compute; reflexivity|]. split; [vm_compute; reflexivity|].
  vm_compute. discriminate.
Qed.


(** * Further properties *)

(** ** More on the validator *)

(** X1.  The validator on a concatenation: the error of the first part if
    it has one, the answer on the second part otherwise. *)
Theorem validator_of_concatenation deny (l1 l2 : list FileMember) :
  check_symbols_archive_file_listing deny (l1 ++ l2)
  = match check_symbols_archive_file_listing deny l1 with
    | Some error => Some error
    | None => check_symbols_archive_file_listing deny l2
    end.
Proof.
  induction l1 as [|m l1 IH]; [reflexivity|].
  rewrite <- List.app_comm_cons. cbn [check_symbols_archive_file_listing].
  destruct (first_snippet_in deny (name m)); [reflexivity|].
  destruct (pattern_recognized (name m)); [exact IH | reflexivity].
Qed.

(** X2.  The validator never reads the sizes: two listings with the same
    names in the same order get the same answer. *)
Theorem validator_ignores_sizes deny (l1 l2 : list FileMember) :
  map name l1 = map name l2 ->
  check_symbols_archive_file_listing deny l1
  = check_symbols_archive_file_listing deny l2.
Proof.
  revert l2. induction l1 as [|m1 l1 IH]; intros [|m2 l2] Hnames;
    try discriminate; [reflexivity|].
  cbn [map] in Hnames. injection Hnames as Hname Hrest.
  cbn [check_symbols_archive_file_listing]. rewrite Hname, (IH l2 Hrest). reflexivity.
Qed.

Lemma validator_ignores_sizes_witness :
  check_symbols_archive_file_listing
    ["exe"] [mkFileMember "readme.txt" 1; mkFileMember "a/0f/b" 2]
  = check_symbols_archive_file_listing
      ["exe"] [mkFileMember "readme.txt" 700; mkFileMember "a/0f/b" 0].
Proof.
  apply (validator_ignores_sizes
           ["exe"] [mkFileMember "readme.txt" 1; mkFileMember "a/0f/b" 2]
           [mkFileMember "readme.txt" 700; mkFileMember "a/0f/b" 0]).
  reflexivity.
Defined.

Lemma split_length s : length (PyStr.split "/" s) = S (slashes s).
Proof.
  induction s as [|c s IH]; [reflexivity|].
  cbn [PyStr.split slashes]. destruct (Ascii.eqb c "/").
  - cbn [length]. rewrite IH. reflexivity.
  - destruct (PyStr.split "/" s) as [|p ps]; cbn [length] in *; lia.
Qed.

Lemma recognized_slashes nm :
  pattern_recognized nm = true -> slashes nm = 0%nat \/ slashes nm = 2%nat.
Proof.
  unfold pattern_recognized. rewrite split_length.
  destruct (slashes nm) as [|[|[|k]]]; cbn; try discriminate; auto.
Qed.

(** X3.  In a listing that passes, every name has no '/' at all or exactly
    two. *)
Theorem passing_names_have_no_or_two_slashes deny (listing : list FileMember) :
  check_symbols_archive_file_listing deny listing = None ->
  Forall (fun m => slashes (name m) = 0%nat \/ slashes (name m) = 2%nat) listing.
Proof.
  induction listing as [|m rest IH]; [constructor|].
  cbn [check_symbols_archive_file_listing].
  destruct (first_snippet_in deny (name m)); [discriminate|].
  destruct (pattern_recognized (name m)) eqn:Hp; [|discriminate].
  intros Hrest. constructor; [apply recognized_slashes; exact Hp | apply IH; exact Hrest].
Qed.

Lemma passing_names_have_no_or_two_slashes_witness :
  Forall (fun m => slashes (name m) = 0%nat \/ slashes (name m) = 2%nat) Sample.listing.
Proof.
  apply (passing_names_have_no_or_two_slashes ["exe"] Sample.listing). reflexivity.
Defined.

Lemma lower_char_slash c : Ascii.eqb (PyStr.lower_char c) "/" = Ascii.eqb c "/".
Proof. destruct c as [[] [] [] [] [] [] [] []]; reflexivity. Qed.

Lemma lower_char_hex c : is_hex_char (PyStr.lower_char c) = is_hex_char c.
Proof. destruct c as [[] [] [] [] [] [] [] []]; reflexivity. Qed.

Lemma lower_char_idem c : PyStr.lower_char (PyStr.lower_char c) = PyStr.lower_char c.
Proof. destruct c as [[] [] [] [] [] [] [] []]; reflexivity. Qed.

Lemma lower_idem s : PyStr.lower (PyStr.lower s) = PyStr.lower s.
Proof. induction s as [|c s IH]; cbn; [reflexivity|]. rewrite lower_char_idem, IH. reflexivity. Qed.

Lemma split_lower s :
  PyStr.split "/" (PyStr.lower s) = map PyStr.lower (PyStr.split "/" s).
Proof.
  induction s as [|c s IH]; [reflexivity|].
  cbn [PyStr.lower PyStr.split]. rewrite lower_char_slash, IH.
  destruct (Ascii.eqb c "/"); [reflexivity|].
  destruct (PyStr.split "/" s); reflexivity.
Qed.

Lemma findall_lower s :
  _not_hex_characters_findall (PyStr.lower s) = []
  <-> _not_hex_characters_findall s = [].
Proof.
  induction s as [|c s IH]; cbn [PyStr.lower _not_hex_characters_findall]; [tauto|].
  rewrite lower_char_hex. destruct (is_hex_char c); [exact IH | split; discriminate].
Qed.

(** X4.  Whether a name has one of the two recognized shapes does not depend
    on the case of its letters. *)
Theorem recognition_ignores_case nm :
  pattern_recognized (PyStr.lower nm) = pattern_recognized nm.
Proof.
  unfold pattern_recognized. rewrite split_lower, List.length_map, lower_idem.
  destruct (length (PyStr.split "/" nm) =? 3)%nat; [|reflexivity].
  change EmptyString with (PyStr.lower EmptyString) at 1. rewrite List.map_nth.
  pose proof (findall_lower (nth 1 (PyStr.split "/" nm) "")) as H.
  destruct (_not_hex_characters_findall (PyStr.lower (nth 1 (PyStr.split "/" nm) "")))
    as [|x xs];
    destruct (_not_hex_characters_findall (nth 1 (PyStr.split "/" nm) "")) as [|y ys];
    try reflexivity.
  - destruct H as [H _]. specialize (H eq_refl). discriminate.
  - destruct H as [_ H]. specialize (H eq_refl). discriminate.
Qed.

Lemma first_snippet_in_member deny nm snippet :
  first_snippet_in deny nm = Some snippet ->
  In snippet deny /\ PyStr.contains snippet nm = true.
Proof.
  induction deny as [|d deny IH]; cbn; [discriminate|].
  destruct (PyStr.contains d nm) eqn:E.
  - intros [= <-]. split; [left; reflexivity | exact E].
  - intros H. destruct (IH H) as [Hin Hc]. split; [right; exact Hin | exact Hc].
Qed.

Lemma contains_empty nm : PyStr.contains "" nm = true.
Proof. destruct nm; reflexivity. Qed.

(** X5.  An empty string among the disallowed snippets rejects every
    listing that has a member: the empty string occurs in every name. *)
Theorem empty_snippet_rejects_everything deny (m : FileMember) (rest : list FileMember) :
  In "" deny ->
  exists snippet,
    In snippet deny
    /\ is_substring snippet (name m)
    /\ check_symbols_archive_file_listing deny (m :: rest)
       = Some (snippet_error snippet).
Proof.
  intros Hin. cbn [check_symbols_archive_file_listing].
  destruct (first_snippet_in deny (name m)) as [snippet|] eqn:E.
  - apply first_snippet_in_member in E as [Hs Hc].
    exists snippet. split; [exact Hs|]. split; [apply contains_spec; exact Hc | reflexivity].
  - exfalso. apply first_snippet_in_none in E. apply E.
    exists "". split; [exact Hin|]. apply contains_spec. apply contains_empty.
Qed.

Lemma empty_snippet_rejects_everything_witness :
  exists snippet,
    In snippet ["exe"; ""]
    /\ is_substring snippet "app.pdb/ABCDEF0123456789/app.sym"
    /\ check_symbols_archive_file_listing ["exe"; ""] Sample.listing
       = Some (snippet_error snippet).
Proof.
  apply (empty_snippet_rejects_everything
           ["exe"; ""] (mkFileMember "app.pdb/ABCDEF0123456789/app.sym" 10)
           [mkFileMember "crash-symbols.txt" 3]).
  right. left. reflexivity.
Defined.

Lemma rstrip_keeps s t :
  PyStr.rstrip t = t -> t <> "" -> PyStr.rstrip (s +:+ t) = s +:+ t.
Proof.
  intros Ht Hne. induction s as [|c s IH]; [exact Ht|].
  rewrite str_app_cons. cbn [PyStr.rstrip]. rewrite IH.
  destruct (s +:+ t) eqn:E; [|reflexivity].
  destruct s; [rewrite str_app_nil_l in E; congruence | rewrite str_app_cons in E; discriminate].
Qed.

Lemma strip_error deny listing error :
  check_symbols_archive_file_listing deny listing = Some error ->
  PyStr.strip error = error.
Proof.
  induction listing as [|m rest IH]; cbn [check_symbols_archive_file_listing];
    [discriminate|].
  destruct (first_snippet_in deny (name m)) as [snippet|].
  - intros [= <-]. unfold PyStr.strip, snippet_error.
    change (PyStr.lstrip ("Content of archive file contains the snippet '" +:+ snippet
                          +:+ "' which is not allowed"))
      with ("Content of archive file contains the snippet '" +:+ snippet
            +:+ "' which is not allowed").
    rewrite <- str_app_assoc. apply rstrip_keeps; [reflexivity | discriminate].
  - destruct (pattern_recognized (name m)); [exact IH|]. intros [= <-]. reflexivity.
Qed.

(** ** More on the view *)

Section MoreOnTheView.

Variable settings : Settings.
Variable env : Env.

(** X6.  The message of the validator reaches the client as it is: a
    request whose listing fails the validator is answered 400 with exactly
    that message, and the world is as before. *)
Theorem invalid_listing_is_reported_verbatim fuel request w upload nm sz url tr0 listing error :
  receive env request (mkSt w []) = Go (upload, nm, sz, url) (mkSt w tr0) ->
  sz <> 0%N ->
  get_archive_members env upload nm = Members listing ->
  check_symbols_archive_file_listing (DISALLOWED_SYMBOLS_SNIPPETS settings) listing
  = Some error ->
  upload_archive settings env fuel request w
  = Some (JsonResponse (JDict [("error", JStr error)]) 400, w, tr0).
Proof.
  intros Hrecv Hsize Hmem Hcheck.
  unfold upload_archive, upload_archive_body.
  rewrite (bind_go _ _ _ _ _ Hrecv). cbn beta iota.
  apply N.eqb_neq in Hsize. rewrite Hsize.
  erewrite bind_go by reflexivity.
  assert (Hlm : list_members env upload nm (mkSt w tr0) = Go listing (mkSt w tr0)).
  { unfold list_members. rewrite Hmem. reflexivity. }
  rewrite (bind_go _ _ _ _ _ Hlm).
  assert (Hv : validate settings listing (mkSt w tr0)
               = Leave (JsonResponse (error_payload error) 400) (mkSt w tr0)).
  { unfold validate. rewrite Hcheck, (check_error_truthy _ _ _ Hcheck).
    rewrite (strip_error _ _ _ Hcheck). reflexivity. }
  rewrite (bind_leave _ _ _ _ _ Hv). destruct w; reflexivity.
Qed.

Lemma receive_leave_shape request s o s' :
  receive env request s = Leave o s' ->
  (exists message, o = JsonResponse (JDict [("error", JStr message)]) 400)
  \/ (exists e, o = Raised e).
Proof.
  unfold receive.
  destruct (FILES request) as [|[? ?] ?]; [|discriminate].
  destruct (dict_get (POST request) "url") as [[|? ?]|];
    try (intros [= <- <-]; left; eexists; reflexivity).
  destruct (UploadByDownloadForm env (POST request)) as [? ? ?|[|[? [|? ?]] ?]];
    try discriminate; intros [= <- <-]; eauto.
Qed.

Lemma list_members_leave_shape upload nm s o s' :
  list_members env upload nm s = Leave o s' ->
  exists message, o = JsonResponse (JDict [("error", JStr message)]) 400.
Proof.
  unfold list_members.
  destruct (get_archive_members env upload nm); try discriminate;
    intros [= <- <-]; eexists; reflexivity.
Qed.

(** The cases of a run, with the names used below. *)
Ltac run_cases H :=
  destruct H as
    [ o tr0 Hrecv
    | upload nm url tr0 Hrecv
    | upload nm sz url tr0 o Hrecv Hsize Hlm
    | upload nm sz url tr0 listing error Hrecv Hsize Hmem Hcheck
    | upload nm sz url tr0 listing e Hval Hhead
    | upload nm sz url tr0 listing e Hval Hhead Hdir Hput
    | upload nm sz url tr0 listing ids c Hval Hhead Hdir Hput Hsecs u Hscan
    | upload nm sz url tr0 listing directory failed ids c Hval Hhead Hdir
        path dir u Hready Hwrite Hsecs Hle Hfalse Htrue Hscan
    | upload nm sz url tr0 listing Hval Hhead Hdir Hput Hsecs
    | upload nm sz url tr0 listing directory e Hval Hhead Hdir path dir Hisdir Hmk
    | upload nm sz url tr0 listing directory e Hval Hhead Hdir path dir Hready Hwrite ].

(** X7.  The view answers 400 with a single error message, or 201 with the
    serialized record that is now the last row of the table, or raises;
    there is no other outcome. *)
Theorem outcomes_of_the_view fuel request w o w' tr :
  (5 <= fuel)%nat ->
  upload_archive settings env fuel request w = Some (o, w', tr) ->
  (exists message, o = JsonResponse (JDict [("error", JStr message)]) 400)
  \/ (exists upload_obj,
        o = JsonResponse (JDict [("upload", _serialize_upload upload_obj)]) 201
        /\ uploads w' = uploads w ++ [upload_obj])
  \/ (exists e, o = Raised e).
Proof.
  intros Hfuel Hrun. apply upload_archive_inv in Hrun; [|exact Hfuel].
  run_cases Hrun.
  - apply receive_leave_shape in Hrecv as [H | H]; auto.
  - left. eexists. reflexivity.
  - apply list_members_leave_shape in Hlm. auto.
  - left. eexists. reflexivity.
  - right. right. eexists. reflexivity.
  - right. right. eexists. reflexivity.
  - right. left. exists u. split; reflexivity.
  - right. left. exists u. split; reflexivity.
  - right. right. eexists. reflexivity.
  - right. right. eexists. reflexivity.
  - right. right. eexists. reflexivity.
Qed.

(** X8.  A 400 answer has no effect: the world is as before, and nothing
    was done outside but, for a posted URL, fetching it; in particular no
    bucket was looked at, nothing staged, nothing dispatched. *)
Theorem rejection_has_no_effect fuel request w payload w' tr :
  (5 <= fuel)%nat ->
  upload_archive settings env fuel request w = Some (JsonResponse payload 400, w', tr) ->
  w' = w /\ Forall (fun ev => is_requests_get ev = true) tr.
Proof.
  intros Hfuel Hrun. apply upload_archive_inv in Hrun; [|exact Hfuel].
  remember (JsonResponse payload 400) as o eqn:Ho.
  run_cases Hrun; try discriminate;
    (split; [reflexivity|]; eapply receive_trace; [|exact Hrecv]; eauto).
Qed.

Lemma delays_app tr1 tr2 : delays (tr1 ++ tr2) = delays tr1 ++ delays tr2.
Proof. apply List.flat_map_app. Qed.

Lemma delays_of_requests (tr0 : list Event) :
  Forall (fun ev => is_requests_get ev = true) tr0 -> delays tr0 = [].
Proof.
  intros H. induction H as [|[] tr1 Hev _ IH]; try discriminate; [reflexivity | exact IH].
Qed.

Lemma delays_of_poll path a failed last :
  delays (poll_trace path a failed last) = delays last.
Proof. revert a. induction failed as [|k IH]; intros a; [reflexivity|]. cbn. apply IH. Qed.

Lemma delays_of_delays ids : delays (map EvDelay ids) = ids.
Proof. induction ids as [|i ids IH]; [reflexivity|]. cbn. f_equal. exact IH. Qed.

(** X9.  An exception leaves no record behind: the Upload table, the cache
    and the clock are as before, and nothing was dispatched; this holds
    also when [put_object] fails after the record was created. *)
Theorem exception_rolls_back fuel request w exn w' tr :
  (5 <= fuel)%nat ->
  upload_archive settings env fuel request w = Some (Raised exn, w', tr) ->
  uploads w' = uploads w /\ cache w' = cache w /\ clock w' = clock w
  /\ delays tr = [].
Proof.
  intros Hfuel Hrun. apply upload_archive_inv in Hrun; [|exact Hfuel].
  remember (Raised exn) as o eqn:Ho.
  run_cases Hrun; try discriminate; try destruct Hval as [Hrecv _];
    repeat split; rewrite ?delays_app, delays_of_requests;
    try (destruct (os_path_isdir env dir)); try reflexivity;
    (eapply receive_trace; [|exact Hrecv]; eauto).
Qed.


Ltac still :=
  repeat first
    [ match goal with |- Forall _ ?l => is_evar l; fail 2 end
    | apply List.Forall_app; split
    | apply poll_trace_quiet; [reflexivity | intros; reflexivity | ]
    | apply delays_quiet; intros; reflexivity
    | apply requests_quiet; [intros; reflexivity | eassumption]
    | apply List.Forall_nil
    | apply List.Forall_cons; [reflexivity | ]
    | match goal with |- Forall _ (if ?b then _ else _) => destruct b end ].

(** The trace of a run: what [receive] did, then events that are no
    [requests.get]. *)
Lemma trace_after_receive request w o w' tr :
  run_shape settings env request w o w' tr ->
  exists tr0 rest,
    ((exists o', receive env request (mkSt w []) = Leave o' (mkSt w tr0))
     \/ (exists x, receive env request (mkSt w []) = Go x (mkSt w tr0)))
    /\ tr = tr0 ++ rest
    /\ Forall (fun ev => is_requests_get ev = false) rest.
Proof.
  intros Hrun.
  run_cases Hrun; try destruct Hval as (Hrecv & _);
    exists tr0; eexists; (split; [eauto|]);
    (split; [try reflexivity; symmetry; apply List.app_nil_r|]); still.
Qed.

Lemma downloads_app tr1 tr2 : downloads (tr1 ++ tr2) = downloads tr1 ++ downloads tr2.
Proof. apply List.flat_map_app. Qed.

Lemma downloads_of_rest (rest : list Event) :
  Forall (fun ev => is_requests_get ev = false) rest -> downloads rest = [].
Proof.
  intros H. induction H as [|ev tr1 Hev _ IH]; [reflexivity|].
  destruct ev; try discriminate Hev; exact IH.
Qed.

(** X11.  An uploaded file wins over a posted URL: when the request has
    files, nothing is fetched, and an accepted upload records the name and
    the size of the first file and no download URL. *)
Theorem uploaded_file_wins fuel request w field file others o w' tr :
  (5 <= fuel)%nat ->
  FILES request = (field, file) :: others ->
  upload_archive settings env fuel request w = Some (o, w', tr) ->
  downloads tr = []
  /\ (forall payload,
        o = JsonResponse payload 201 ->
        exists upload_obj,
          uploads w' = uploads w ++ [upload_obj]
          /\ Upload.filename upload_obj = field
          /\ Upload.size upload_obj = UploadedFile.size file
          /\ Upload.download_url upload_obj = None).
Proof.
  intros Hfuel Hfiles Hrun.
  assert (Hfirst : receive env request (mkSt w [])
                  = Go (UploadedFile.content file, field, UploadedFile.size file, None)
                       (mkSt w [])).
  { unfold receive. rewrite Hfiles. reflexivity. }
  split.
  - apply upload_archive_inv in Hrun; [|exact Hfuel].
    destruct (trace_after_receive _ _ _ _ _ Hrun) as (tr0 & rest & Hr & -> & Hrest).
    rewrite downloads_app, (downloads_of_rest rest Hrest), List.app_nil_r.
    destruct Hr as [(o' & Hr) | (x & Hr)]; rewrite Hfirst in Hr; [discriminate|].
    injection Hr as _ <-. reflexivity.
  - intros payload ->.
    apply upload_archive_inv in Hrun; [|exact Hfuel].
    remember (JsonResponse payload 201) as o eqn:Ho.
    run_cases Hrun; try discriminate; try destruct Hval as (Hr & _);
      try (rewrite Hfirst in Hr; injection Hr as <- <- <- <- <-;
           exists u; repeat split; reflexivity).
    + subst o. apply receive_leave_status in Hrecv. discriminate.
    + subst o. apply list_members_leave_status in Hlm. discriminate.
Qed.

(** X12.  A posted URL is fetched first and once: with no file in the
    request and a valid form, the trace begins with the [requests.get] of
    the URL of the form and has no other, whatever the outcome. *)
Theorem posted_url_is_fetched_first fuel request w c rest_of_url url nm sz o w' tr :
  (5 <= fuel)%nat ->
  FILES request = [] ->
  dict_get (POST request) "url" = Some (String c rest_of_url) ->
  UploadByDownloadForm env (POST request) = FormValid url nm sz ->
  upload_archive settings env fuel request w = Some (o, w', tr) ->
  downloads tr = [url] /\ exists rest, tr = EvRequestsGet url :: rest.
Proof.
  intros Hfuel Hfiles Hpost Hform Hrun.
  assert (Hfirst : receive env request (mkSt w [])
                  = Go (requests_get env url, nm, sz, Some url)
                       (mkSt w [EvRequestsGet url])).
  { unfold receive. rewrite Hfiles, Hpost, Hform. reflexivity. }
  apply upload_archive_inv in Hrun; [|exact Hfuel].
  destruct (trace_after_receive _ _ _ _ _ Hrun) as (tr0 & rest & Hr & -> & Hrest).
  destruct Hr as [(o' & Hr) | (x & Hr)]; rewrite Hfirst in Hr; [discriminate|].
  injection Hr as _ <-. split.
  - rewrite downloads_app, (downloads_of_rest rest Hrest). reflexivity.
  - exists rest. reflexivity.
Qed.

(** X13.  What is wrong with the input is said in the answer: a request
    with no file and no URL, a form that does not validate, and an archive
    that cannot be listed each get a 400 with the message of that stage,
    and the world is as before. *)
Theorem input_errors_are_reported fuel request w :
  (FILES request = [] ->
   (dict_get (POST request) "url" = None \/ dict_get (POST request) "url" = Some "") ->
   upload_archive settings env fuel request w
   = Some (JsonResponse
             (JDict [("error",
                      JStr "Must be multipart form data with at least one file")]) 400,
           w, []))
  /\ (forall c rest_of_url field message messages others,
        FILES request = [] ->
        dict_get (POST request) "url" = Some (String c rest_of_url) ->
        UploadByDownloadForm env (POST request)
        = FormInvalid ((field, message :: messages) :: others) ->
        upload_archive settings env fuel request w
        = Some (JsonResponse (JDict [("error", JStr message)]) 400, w, []))
  /\ (forall upload nm sz url tr0,
        receive env request (mkSt w []) = Go (upload, nm, sz, url) (mkSt w tr0) ->
        sz <> 0%N ->
        (forall message,
            get_archive_members env upload nm = BadZipfile message ->
            upload_archive settings env fuel request w
            = Some (JsonResponse (JDict [("error", JStr message)]) 400, w, tr0))
        /\ (forall extension,
              get_archive_members env upload nm
              = UnrecognizedArchiveFileExtension extension ->
              upload_archive settings env fuel request w
              = Some (JsonResponse
                        (JDict [("error",
                                 JStr ("Unrecognized archive file extension "
                                         +:+ String "034"%char extension
                                         +:+ String "034"%char ""))]) 400,
                      w, tr0))).
Proof.
  assert (Hleave : forall o tr0,
             receive env request (mkSt w []) = Leave o (mkSt w tr0) ->
             upload_archive settings env fuel request w = Some (o, w, tr0)).
  { intros o tr0 H. unfold upload_archive, upload_archive_body.
    rewrite (bind_leave _ _ _ _ _ H). clear H. destruct o, w; reflexivity. }
  split; [|split].
  - intros Hfiles Hurl. apply Hleave. unfold receive. rewrite Hfiles.
    destruct Hurl as [-> | ->]; reflexivity.
  - intros c rest_of_url field message messages others Hfiles Hurl Hform.
    apply Hleave. unfold receive. rewrite Hfiles, Hurl, Hform. reflexivity.
  - intros upload nm sz url tr0 Hrecv Hsize.
    assert (Hbad : forall o,
               list_members env upload nm (mkSt w tr0) = Leave o (mkSt w tr0) ->
               upload_archive settings env fuel request w = Some (o, w, tr0)).
    { intros o H. unfold upload_archive, upload_archive_body.
      rewrite (bind_go _ _ _ _ _ Hrecv). cbn beta iota.
      apply N.eqb_neq in Hsize. rewrite Hsize.
      erewrite bind_go by reflexivity.
      rewrite (bind_leave _ _ _ _ _ H). clear H Hrecv Hleave.
      destruct o, w; reflexivity. }
    split; intros x Hx; apply Hbad; unfold list_members; rewrite Hx; reflexivity.
Qed.

Lemma sleeps_of_delays ids : sleeps (map EvDelay ids) = [].
Proof. induction ids as [|i ids IH]; [reflexivity | exact IH]. Qed.

Lemma total_poll path a failed last :
  total (sleeps (poll_trace path a failed last))
  = (slept a failed + total (sleeps last))%Z.
Proof.
  revert a. induction failed as [|k IH]; intros a; [reflexivity|].
  cbn [poll_trace slept].
  change (sleeps (?e1 :: ?e2 :: ?l)) with (sleeps [e1; e2] ++ sleeps l).
  cbn [sleeps flat_map List.app total fold_right]. fold (sleeps (poll_trace path (a + 1) k last)).
  fold (total (sleeps (poll_trace path (a + 1) k last))). rewrite IH. lia.
Qed.

Lemma slept_bound failed : (failed <= 5)%nat -> (0 <= slept 0 failed <= 15)%Z.
Proof.
  intros H. do 6 (destruct failed as [|failed]; [cbn; lia|]). lia.
Qed.

Lemma total_app l1 l2 : total (l1 ++ l2) = (total l1 + total l2)%Z.
Proof.
  unfold total. induction l1 as [|x l1 IH]; cbn [List.app fold_right]; [reflexivity|].
  rewrite IH. lia.
Qed.

Lemma staging_seconds_app tr1 tr2 :
  staging_seconds env (tr1 ++ tr2)
  = (staging_seconds env tr1 + staging_seconds env tr2)%Z.
Proof. unfold staging_seconds. rewrite List.flat_map_app. apply total_app. Qed.

Lemma staging_seconds_quiet (tr : list Event) :
  Forall (fun ev => is_staging ev = false) tr -> staging_seconds env tr = 0%Z.
Proof.
  intros H. induction H as [|ev tr1 Hev _ IH]; [reflexivity|].
  change (ev :: tr1) with ([ev] ++ tr1). rewrite staging_seconds_app, IH.
  destruct ev; try discriminate Hev; reflexivity.
Qed.

(** X14.  The view sleeps only while it waits for the staged file: the
    sleeps of a request add up to at most fifteen seconds, and there are
    none when the request is not accepted or is staged in the object store.
    The clock of an accepted request advances by what the staging call took
    and by the seconds slept; the clock of any other request is as
    before. *)
Theorem clock_advances_by_the_sleeps fuel request w o w' tr :
  (5 <= fuel)%nat ->
  upload_archive settings env fuel request w = Some (o, w', tr) ->
  (forall payload,
      o = JsonResponse payload 201 ->
      clock w' = (clock w + staging_seconds env tr + total (sleeps tr))%Z)
  /\ ((forall payload, o <> JsonResponse payload 201) -> clock w' = clock w)
  /\ (0 <= total (sleeps tr) <= 15)%Z
  /\ (inbox_directory settings = None -> sleeps tr = [])
  /\ ((forall payload, o <> JsonResponse payload 201) -> sleeps tr = []).
Proof.
  intros Hfuel Hrun. apply upload_archive_inv in Hrun; [|exact Hfuel].
  assert (Hnone : forall tr1 : list Event, sleeps tr1 = [] ->
             (0 <= total (sleeps tr1) <= 15)%Z
             /\ (inbox_directory settings = None -> sleeps tr1 = [])
             /\ ((forall payload, o <> JsonResponse payload 201) -> sleeps tr1 = [])).
  { intros tr1 ->. cbn. repeat split; auto; lia. }
  run_cases Hrun; try destruct Hval as [Hrecv _];
    assert (Hreq : Forall (fun ev => is_requests_get ev = true) tr0)
      by (eapply receive_trace; [|exact Hrecv]; eauto);
    assert (Hs0 : sleeps tr0 = []) by (apply sleeps_of_requests; exact Hreq);
    assert (Hq0 : staging_seconds env tr0 = 0%Z) by (apply staging_seconds_quiet; still).
  - split; [intros payload _; rewrite Hq0, Hs0; cbn; lia|].
    split; [reflexivity|]. apply Hnone. exact Hs0.
  - split; [discriminate|]. split; [reflexivity|]. apply Hnone. exact Hs0.
  - split; [intros payload _; rewrite Hq0, Hs0; cbn; lia|].
    split; [reflexivity|]. apply Hnone. exact Hs0.
  - split; [discriminate|]. split; [reflexivity|]. apply Hnone. exact Hs0.
  - split; [discriminate|]. split; [reflexivity|]. apply Hnone.
    rewrite sleeps_app, Hs0. reflexivity.
  - split; [discriminate|]. split; [reflexivity|]. apply Hnone.
    rewrite sleeps_app, Hs0. reflexivity.
  - assert (Hs : sleeps (tr0 ++ [EvHeadBucket (bucket (resolved_bucket settings env request));
                                 EvPutObject (bucket (resolved_bucket settings env request))
                                             (staging_key env w nm listing) upload;
                                 EvDelay (next_id w)] ++ map EvDelay ids) = []).
    { rewrite !sleeps_app, Hs0, sleeps_of_delays. reflexivity. }
    split.
    + intros payload _. rewrite Hs, !staging_seconds_app, Hq0.
      rewrite (staging_seconds_quiet (map EvDelay ids)) by still.
      cbn. unfold put_seconds. lia.
    + split; [intros H; exfalso; eapply H; reflexivity|]. apply Hnone. exact Hs.
  - assert (Htot : total (sleeps
              (tr0 ++ [EvHeadBucket (bucket (resolved_bucket settings env request))]
                 ++ (if os_path_isdir env dir then [] else [EvMakedirs dir])
                 ++ [EvWriteFile path upload]
                 ++ poll_trace path 0 failed
                      (if (failed <=? 4)%nat then [EvIsFile path true] else [])
                 ++ [EvDelay (next_id w)] ++ map EvDelay ids))
            = slept 0 failed).
    { rewrite !sleeps_app, Hs0, sleeps_of_delays.
      replace (sleeps (if os_path_isdir env dir then [] else [EvMakedirs dir]))
        with (@nil Z) by (destruct (os_path_isdir env dir); reflexivity).
      cbn [sleeps flat_map List.app]. rewrite List.app_nil_r, total_poll.
      destruct (failed <=? 4)%nat; cbn; lia. }
    rewrite Htot. pose proof (slept_bound failed Hle) as Hb.
    split.
    + intros payload _. rewrite !staging_seconds_app, Hq0.
      rewrite (staging_seconds_quiet (map EvDelay ids)) by still.
      rewrite (staging_seconds_quiet (poll_trace _ _ _ _)) by still.
      rewrite (staging_seconds_quiet (if os_path_isdir env dir then [] else _)) by still.
      cbn. unfold write_seconds. fold path. lia.
    + split; [intros H; exfalso; eapply H; reflexivity|].
      split; [exact Hb|]. split.
      * intros H. rewrite H in Hdir. discriminate.
      * intros H. exfalso. eapply H. reflexivity.
  - split; [discriminate|]. split; [reflexivity|]. apply Hnone.
    rewrite sleeps_app, Hs0. reflexivity.
  - split; [discriminate|]. split; [reflexivity|]. apply Hnone.
    rewrite sleeps_app, Hs0. reflexivity.
  - split; [discriminate|]. split; [reflexivity|]. apply Hnone.
    rewrite !sleeps_app, Hs0. destruct (os_path_isdir env dir); reflexivity.
Qed.

Lemma first_split (P : Event -> bool) (tr0 : list Event) h rest :
  Forall (fun ev => P ev = false) tr0 ->
  P h = false ->
  forall pre ev post,
    tr0 ++ h :: rest = pre ++ ev :: post -> P ev = true -> In h pre.
Proof.
  intros Hq Hh. induction Hq as [|a tr0 Ha _ IH]; intros pre ev post Heq Hev.
  - destruct pre as [|p pre]; cbn in Heq; injection Heq as -> Hrest.
    + congruence.
    + left. reflexivity.
  - destruct pre as [|p pre]; cbn in Heq; injection Heq as -> Hrest.
    + congruence.
    + right. eapply IH; eassumption.
Qed.

Lemma filter_quiet (P : Event -> bool) (tr : list Event) :
  Forall (fun ev => P ev = false) tr -> List.filter P tr = [].
Proof.
  intros H. induction H as [|ev tr1 Hev _ IH]; [reflexivity|].
  cbn. rewrite Hev. exact IH.
Qed.

(** X15.  Nothing is dispatched before the archive is staged: in the trace
    of a request every [upload_inbox_upload.delay] comes after a write to
    the inbox directory or a [put_object], and a request stages at most
    once, exactly once when it is accepted. *)
Theorem dispatch_follows_staging fuel request w o w' tr :
  (5 <= fuel)%nat ->
  upload_archive settings env fuel request w = Some (o, w', tr) ->
  (forall pre id post,
      tr = pre ++ EvDelay id :: post ->
      exists ev, In ev pre /\ is_staging ev = true)
  /\ (length (List.filter is_staging tr) <= 1)%nat
  /\ (forall payload,
        o = JsonResponse payload 201 -> length (List.filter is_staging tr) = 1%nat).
Proof.
  intros Hfuel Hrun. apply upload_archive_inv in Hrun; [|exact Hfuel].
  assert (Hquiet : forall tr1 : list Event,
            Forall (fun ev => is_delay ev = false) tr1 ->
            forall pre id post,
              tr1 = pre ++ EvDelay id :: post ->
              exists ev, In ev pre /\ is_staging ev = true).
  { intros tr1 Hq pre id post Heq. exfalso.
    eapply (quiet_no_split tr1 is_delay); [exact Hq | exact Heq | reflexivity]. }
  run_cases Hrun; try destruct Hval as [Hrecv _];
    assert (Hreq : Forall (fun ev => is_requests_get ev = true) tr0)
      by (eapply receive_trace; [|exact Hrecv]; eauto).
  1-5: split; [apply Hquiet; still|];
       rewrite filter_quiet by still; split; [cbn; lia|];
       intros payload Ho; try discriminate Ho.
  - subst o. apply receive_leave_status in Hrecv. discriminate.
  - subst o. apply list_members_leave_status in Hlm. discriminate.
  - split; [apply Hquiet; still|].
    rewrite List.filter_app, filter_quiet by still. cbn. split; [lia|]. discriminate.
  - split.
    + intros pre id post Heq.
      exists (EvPutObject (bucket (resolved_bucket settings env request))
                          (staging_key env w nm listing) upload).
      split; [|reflexivity].
      refine (first_split is_delay
                (tr0 ++ [EvHeadBucket (bucket (resolved_bucket settings env request))])
                _ _ _ _ pre (EvDelay id) post _ eq_refl);
        [still | reflexivity | ].
      rewrite <- Heq, <- !List.app_assoc. reflexivity.
    + rewrite !List.filter_app, (filter_quiet is_staging tr0),
        (filter_quiet is_staging (map EvDelay ids)) by still.
      cbn. split; [lia | reflexivity].
  - split.
    + intros pre id post Heq.
      exists (EvWriteFile path upload). split; [|reflexivity].
      refine (first_split is_delay
                (tr0 ++ [EvHeadBucket (bucket (resolved_bucket settings env request))]
                     ++ (if os_path_isdir env dir then [] else [EvMakedirs dir]))
                _ _ _ _ pre (EvDelay id) post _ eq_refl);
        [still | reflexivity | ].
      rewrite <- Heq, <- !List.app_assoc. reflexivity.
    + rewrite !List.filter_app, (filter_quiet is_staging tr0),
        (filter_quiet is_staging (map EvDelay ids)),
        (filter_quiet is_staging (poll_trace _ _ _ _)),
        (filter_quiet is_staging (if os_path_isdir env dir then [] else _)) by still.
      cbn. split; [lia | reflexivity].
  - split; [apply Hquiet; still|].
    rewrite List.filter_app, filter_quiet by still. cbn. split; [lia|]. discriminate.
  - split; [apply Hquiet; still|].
    rewrite filter_quiet by still. split; [cbn; lia|]. discriminate.
  - split; [apply Hquiet; still|].
    rewrite !List.filter_app, (filter_quiet is_staging tr0),
      (filter_quiet is_staging (if os_path_isdir env dir then [] else _)) by still.
    cbn. split; [lia|]. discriminate.
Qed.

(** The dispatches of an accepted request and the scan they come from. *)
Lemma accepted_dispatches request w payload w' tr :
  run_shape settings env request w (JsonResponse payload 201) w' tr ->
  exists upload_obj ids c,
    uploads w' = uploads w ++ [upload_obj]
    /\ Upload.id upload_obj = next_id w
    /\ Upload.created_at upload_obj = clock w
    /\ Upload.completed_at upload_obj = None
    /\ Upload.cancelled_at upload_obj = None
    /\ Upload.attempts upload_obj = 0%Z
    /\ reattempt_scan settings (clock w') (uploads w') (cache w) = (ids, c)
    /\ delays tr = next_id w :: ids.
Proof.
  intros Hrun. remember (JsonResponse payload 201) as o eqn:Ho.
  run_cases Hrun; try discriminate; try destruct Hval as [Hrecv _].
  - subst o. apply receive_leave_status in Hrecv. discriminate.
  - subst o. apply list_members_leave_status in Hlm. discriminate.
  - exists u, ids, c. do 6 (split; [reflexivity|]). split; [exact Hscan|].
    rewrite !delays_app, delays_of_delays, delays_of_requests; [reflexivity|].
    eapply receive_trace; [|exact Hrecv]; eauto.
  - exists u, ids, c. do 6 (split; [reflexivity|]). split; [exact Hscan|].
    rewrite !delays_app, delays_of_poll, delays_of_delays, delays_of_requests.
    + destruct (os_path_isdir env dir), (failed <=? 4)%nat; reflexivity.
    + eapply receive_trace; [|exact Hrecv]; eauto.
Qed.

(** X16.  When the request took no longer than the reattempt window, the
    staging call and the poll included, its scan reaches only rows that
    were there before it: the new upload is dispatched once, then come ids
    of old rows.  The new row is taken to be stamped with the time of its
    creation, as [new_upload] has it. *)
Theorem new_upload_dispatched_once fuel request w payload w' tr :
  (5 <= fuel)%nat ->
  upload_archive settings env fuel request w = Some (JsonResponse payload 201, w', tr) ->
  (clock w' - clock w <= UPLOAD_REATTEMPT_LIMIT_SECONDS settings)%Z ->
  exists ids,
    delays tr = next_id w :: ids
    /\ (forall id, In id ids ->
          exists old, In old (uploads w) /\ Upload.id old = id
                      /\ is_incomplete settings (clock w') old = true)
    /\ (Forall (fun old => Upload.id old <> next_id w) (uploads w) ->
        ~ In (next_id w) ids).
Proof.
  intros Hfuel Hrun Hwindow. apply upload_archive_inv in Hrun; [|exact Hfuel].
  destruct (accepted_dispatches _ _ _ _ _ Hrun)
    as (u & ids & c & Hup & Hid & Hcreated & _ & _ & _ & Hscan & Hdelays).
  assert (Hold : forall id, In id ids ->
            exists old, In old (uploads w) /\ Upload.id old = id
                        /\ is_incomplete settings (clock w') old = true).
  { intros id Hin.
    destruct (scan_dispatches settings (clock w') (uploads w') (cache w) id)
      as ((old & Hin_old & Hid_old & Hinc) & _); [rewrite Hscan; exact Hin|].
    rewrite Hup in Hin_old. apply List.in_app_or in Hin_old as [Hin_old | [<- | []]].
    - exists old. auto.
    - exfalso. apply is_incomplete_spec in Hinc as (_ & _ & Hlt & _).
      rewrite Hcreated in Hlt. lia. }
  exists ids. split; [exact Hdelays|]. split; [exact Hold|].
  intros Hfresh Hin. destruct (Hold _ Hin) as (old & Hin_old & Hid_old & _).
  rewrite List.Forall_forall in Hfresh. exact (Hfresh old Hin_old Hid_old).
Qed.

(** X17.  With a shorter window the request dispatches its own upload
    twice: when the request took longer than the reattempt window, the
    staging call and the sleeps of the poll together, attempts are allowed
    and the cache does not hold the key of the new id, the scan at the end
    of the request dispatches the new upload again.  The new row is taken
    to be stamped with the time of its creation and to start with no
    attempt, as [new_upload] has it. *)
Theorem slow_staging_dispatches_twice fuel request w payload w' tr :
  (5 <= fuel)%nat ->
  upload_archive settings env fuel request w = Some (JsonResponse payload 201, w', tr) ->
  (UPLOAD_REATTEMPT_LIMIT_SECONDS settings < clock w' - clock w)%Z ->
  (0 < UPLOAD_REATTEMPT_LIMIT_TIMES settings)%Z ->
  Cache.get (cache w) (clock w') (cache_key (next_id w)) <> Some true ->
  exists ids, delays tr = next_id w :: ids /\ In (next_id w) ids.
Proof.
  intros Hfuel Hrun Hslow Htimes Hcache. apply upload_archive_inv in Hrun; [|exact Hfuel].
  destruct (accepted_dispatches _ _ _ _ _ Hrun)
    as (u & ids & c & Hup & Hid & Hcreated & Hcompleted & Hcancelled & Hattempts
        & Hscan & Hdelays).
  exists ids. split; [exact Hdelays|].
  rewrite <- Hid.
  replace ids with (reattempt_scan settings (clock w') (uploads w') (cache w)).1
    by (rewrite Hscan; reflexivity).
  apply scan_permits.
  - rewrite Hup. apply List.in_or_app. right. left. reflexivity.
  - apply is_incomplete_spec. rewrite Hcompleted, Hcancelled, Hcreated, Hattempts.
    repeat split; lia.
  - rewrite Hid. exact Hcache.
Qed.

End MoreOnTheView.

Section MoreOnTheScan.

Variable settings : Settings.

Lemma insert_by_created_at_sorted u l :
  StronglySorted older_or_same l ->
  StronglySorted older_or_same (insert_by_created_at u l).
Proof.
  induction 1 as [|v l Hl IH Hv]; cbn.
  - repeat constructor.
  - destruct (Z.leb_spec (Upload.created_at u) (Upload.created_at v)) as [Hle | Hgt].
    + constructor; [constructor; assumption|].
      constructor; [exact Hle|].
      eapply List.Forall_impl; [|exact Hv]. unfold older_or_same. intros; lia.
    + constructor; [exact IH|].
      apply List.Forall_forall. intros x Hx.
      apply insert_by_created_at_in in Hx as [-> | Hx]; [unfold older_or_same; lia|].
      rewrite List.Forall_forall in Hv. apply Hv. exact Hx.
Qed.

Lemma order_by_created_at_sorted l :
  StronglySorted older_or_same (order_by_created_at l).
Proof.
  induction l as [|u l IH]; cbn; [constructor | apply insert_by_created_at_sorted, IH].
Qed.

Lemma sublist_sorted (us vs : list Upload.t) :
  sublist us vs -> StronglySorted older_or_same vs -> StronglySorted older_or_same us.
Proof.
  induction 1 as [|x us vs Hsub IH|x us vs Hsub IH]; intros Hs.
  - constructor.
  - apply StronglySorted_inv in Hs as [Hs Hx]. constructor; [apply IH, Hs|].
    apply List.Forall_forall. intros y Hy. rewrite List.Forall_forall in Hx. apply Hx.
    apply list_elem_of_In. eapply elem_of_sublist; [|exact Hsub].
    apply list_elem_of_In. exact Hy.
  - apply StronglySorted_inv in Hs as [Hs _]. apply IH, Hs.
Qed.

(** The loop of one scan dispatches a sublist of the rows it is given,
    in their order, and writes only the keys of the ids it dispatches. *)
Lemma scan_loop_order t (us : list Upload.t) :
  forall ids0 c0,
    exists vs c',
      fold_left (reattempt_one settings t) us (ids0, c0)
      = (ids0 ++ map Upload.id vs, c')
      /\ sublist vs us
      /\ (forall key,
            (forall v, In v vs -> key <> cache_key (Upload.id v)) ->
            c' !! key = c0 !! key).
Proof.
  induction us as [|u us IH]; intros ids0 c0.
  - exists [], c0. cbn. rewrite List.app_nil_r. repeat split. constructor.
  - cbn [fold_left].
    destruct (decide (Cache.get c0 t (cache_key (Upload.id u)) = Some true)) as [Hget|Hget].
    + rewrite (reattempt_one_skip _ _ _ _ _ Hget).
      destruct (IH ids0 c0) as (vs & c' & Hfold & Hsub & Hframe).
      exists vs, c'. split; [exact Hfold|]. split; [constructor; exact Hsub | exact Hframe].
    + rewrite (reattempt_one_dispatch _ _ _ _ _ Hget).
      destruct (IH (ids0 ++ [Upload.id u])
                   (Cache.set c0 t (cache_key (Upload.id u)) true
                              (UPLOAD_REATTEMPT_LIMIT_SECONDS settings)))
        as (vs & c' & Hfold & Hsub & Hframe).
      exists (u :: vs), c'. split; [|split].
      * rewrite Hfold, <- List.app_assoc. reflexivity.
      * constructor. exact Hsub.
      * intros key Hkey. rewrite Hframe.
        -- unfold Cache.set. apply lookup_insert_ne.
           intros Heq. apply (Hkey u); [left; reflexivity | congruence].
        -- intros v Hv. apply Hkey. right. exact Hv.
Qed.

(** X18.  The scan dispatches the oldest first: the ids it hands over are
    those of rows of the table that pass the filter, in the order of their
    creation times. *)
Theorem scan_is_oldest_first t table c :
  exists rows,
    (reattempt_scan settings t table c).1 = map Upload.id rows
    /\ StronglySorted older_or_same rows
    /\ Forall (fun u => In u table /\ is_incomplete settings t u = true) rows.
Proof.
  unfold reattempt_scan.
  destruct (scan_loop_order t (order_by_created_at (incomplete_uploads settings t table))
                            [] c) as (vs & c' & Hfold & Hsub & _).
  rewrite Hfold. exists vs. split; [reflexivity|]. split.
  - eapply sublist_sorted; [exact Hsub | apply order_by_created_at_sorted].
  - apply List.Forall_forall. intros u Hu. apply scanned_in.
    apply list_elem_of_In. eapply elem_of_sublist; [|exact Hsub].
    apply list_elem_of_In. exact Hu.
Qed.

(** X19.  The scan writes the cache only under the keys of the ids it
    dispatches: every other key is left as it was; a scan that dispatches
    nothing leaves the cache as it was. *)
Theorem scan_writes_only_its_keys t table c :
  (forall key,
      (forall id, In id (reattempt_scan settings t table c).1 -> key <> cache_key id) ->
      (reattempt_scan settings t table c).2 !! key = c !! key)
  /\ ((reattempt_scan settings t table c).1 = [] ->
      (reattempt_scan settings t table c).2 = c).
Proof.
  unfold reattempt_scan.
  destruct (scan_loop_order t (order_by_created_at (incomplete_uploads settings t table))
                            [] c) as (vs & c' & Hfold & _ & Hframe).
  rewrite Hfold. cbn. split.
  - intros key Hkey. apply Hframe. intros v Hv. apply Hkey.
    apply List.in_map. exact Hv.
  - intros Hnil. apply map_eq. intros key. apply Hframe.
    intros v Hv. apply (List.in_map Upload.id) in Hv. rewrite Hnil in Hv. destruct Hv.
Qed.

End MoreOnTheScan.

(** ** More on the validator, the bucket and the key *)

(** X20.  A longer deny list only rejects more: a listing that passes
    with a list of snippets passes with any list that has no other
    snippets. *)
Theorem shorter_deny_list_still_passes deny deny' (listing : list FileMember) :
  (forall snippet, In snippet deny -> In snippet deny') ->
  check_symbols_archive_file_listing deny' listing = None ->
  check_symbols_archive_file_listing deny listing = None.
Proof.
  intros Hincl. induction listing as [|m listing IH]; [reflexivity|].
  cbn [check_symbols_archive_file_listing].
  destruct (first_snippet_in deny' (name m)) eqn:E'; [discriminate|].
  assert (E : first_snippet_in deny (name m) = None).
  { apply first_snippet_in_none. apply first_snippet_in_none in E'.
    intros (snippet & Hin & Hsub). apply E'. exists snippet. auto. }
  rewrite E. destruct (pattern_recognized (name m)); [exact IH | discriminate].
Qed.

Section MoreOnTheBucket.

Variable str_lower : string -> string.
Variable fnmatch : string -> string -> bool.
Variable default : string.
Variable table : dict string.

Lemma wildcard_scan_some e keys url :
  wildcard_scan str_lower fnmatch table e keys = Some url ->
  exists k, In k keys /\ fnmatch e (str_lower k) = true /\ dict_get table k = Some url.
Proof.
  induction keys as [|k keys IH]; cbn; [discriminate|].
  destruct (fnmatch e (str_lower k)) eqn:E.
  - intros H. exists k. auto.
  - intros H. destruct (IH H) as (k' & Hin & Hk'). exists k'. auto.
Qed.

(** X21.  The URL of the bucket is the default or a value of the table of
    exceptions, never anything else; a value of the table is used only when
    it is not empty and its key is the lowered email or a pattern that the
    lowered email matches. *)
Theorem bucket_url_is_default_or_listed (user : User) :
  let e := str_lower (email user) in
  let url := bucket_url str_lower fnmatch default table user in
  url = default
  \/ exists k,
      dict_get table k = Some url
      /\ truthy url = true
      /\ (k = e \/ (dict_get table e = None /\ fnmatch e (str_lower k) = true)).
Proof.
  cbn zeta. unfold bucket_url, find_exception.
  destruct (dict_get table (str_lower (email user))) as [exception|] eqn:E.
  - destruct (truthy exception) eqn:T; [|left; reflexivity].
    right. exists (str_lower (email user)). auto.
  - destruct (wildcard_scan str_lower fnmatch table (str_lower (email user))
                            (dict_keys table)) as [exception|] eqn:W; [|left; reflexivity].
    destruct (truthy exception) eqn:T; [|left; reflexivity].
    apply wildcard_scan_some in W as (k & _ & Hk & Hget).
    right. exists k. auto.
Qed.

End MoreOnTheBucket.

Lemma str_app_inj_length a b c d :
  String.length a = String.length c -> a +:+ b = c +:+ d -> a = c /\ b = d.
Proof.
  revert c. induction a as [|x a IH]; intros [|y c] Hlen H; try discriminate.
  - split; [reflexivity | exact H].
  - rewrite !str_app_cons in H. injection H as -> H. injection Hlen as Hlen.
    destruct (IH c Hlen H) as [-> ->]. split; reflexivity.
Qed.

(** X22.  The staging key can be read back: two keys made from dates of
    the same length are equal only when the dates, the fingerprints of the
    listings and the file names are equal. *)
Theorem staging_key_decodes date1 listing1 nm1 date2 listing2 nm2 :
  String.length date1 = String.length date2 ->
  inbox_key_of date1 listing1 nm1 = inbox_key_of date2 listing2 nm2 ->
  date1 = date2 /\ content_hash listing1 = content_hash listing2 /\ nm1 = nm2.
Proof.
  unfold inbox_key_of. intros Hlen H.
  apply (str_app_inj_length "inbox/" _ "inbox/" _ eq_refl) in H as [_ H].
  apply (str_app_inj_length _ _ _ _ Hlen) in H as [Hdate H].
  apply (str_app_inj_length "/" _ "/" _ eq_refl) in H as [_ H].
  apply str_app_inj_length in H as [Hhash H].
  - apply (str_app_inj_length "/" _ "/" _ eq_refl) in H as [_ H]. auto.
  - rewrite (proj1 (content_hash_shape listing1)), (proj1 (content_hash_shape listing2)).
    reflexivity.
Qed.

Lemma head_lacks n : PyStr.lacks "/" n = true -> OsPath.head n = "".
Proof.
  destruct n as [|c n]; [reflexivity|]. cbn [PyStr.lacks OsPath.head].
  intros H. apply andb_true_iff in H as [Hc Hn].
  apply negb_true_iff in Hc. rewrite Hc, Hn. reflexivity.
Qed.

Lemma lacks_app_slash a n : PyStr.lacks "/" (a +:+ "/" +:+ n) = false.
Proof.
  induction a as [|c a IH]; [reflexivity|].
  rewrite str_app_cons. cbn [PyStr.lacks]. rewrite IH. apply andb_false_r.
Qed.

Lemma head_app a n :
  PyStr.lacks "/" n = true -> OsPath.head (a +:+ "/" +:+ n) = a +:+ "/".
Proof.
  intros Hn. induction a as [|c a IH].
  - rewrite str_app_nil_l. change ("/" +:+ n) with (String "/" n).
    cbn [OsPath.head]. rewrite (head_lacks n Hn). reflexivity.
  - rewrite (str_app_cons c a). cbn [OsPath.head].
    rewrite lacks_app_slash, IH, orb_true_r. reflexivity.
Qed.

Lemma rstrip_slash_app_slash a : OsPath.rstrip_slash (a +:+ "/") = OsPath.rstrip_slash a.
Proof.
  induction a as [|c a IH]; [reflexivity|].
  rewrite str_app_cons. cbn [OsPath.rstrip_slash]. rewrite IH. reflexivity.
Qed.

Lemma rstrip_slash_last b x :
  x <> "/"%char -> OsPath.rstrip_slash (b +:+ String x "") = b +:+ String x "".
Proof.
  intros Hx. induction b as [|c b IH].
  - rewrite str_app_nil_l. cbn [OsPath.rstrip_slash].
    apply Ascii.eqb_neq in Hx. rewrite Hx. reflexivity.
  - rewrite str_app_cons. cbn [OsPath.rstrip_slash]. rewrite IH.
    destruct b; reflexivity.
Qed.

Lemma last_char s :
  s <> "" -> exists b x, s = b +:+ String x "" /\ In x (chars s).
Proof.
  induction s as [|c s IH]; [congruence|]. intros _.
  destruct s as [|c' s].
  - exists "", c. split; [reflexivity | left; reflexivity].
  - destruct IH as (b & x & Hb & Hx); [discriminate|].
    exists (String c b), x. rewrite str_app_cons, <- Hb. split; [reflexivity|].
    right. exact Hx.
Qed.

Lemma content_hash_last listing :
  exists b x, content_hash listing = b +:+ String x "" /\ x <> "/"%char.
Proof.
  destruct (content_hash_shape listing) as [Hlen Hhex].
  destruct (last_char (content_hash listing)) as (b & x & Hb & Hx).
  - intros H. rewrite H in Hlen. discriminate.
  - exists b, x. split; [exact Hb|].
    rewrite List.Forall_forall in Hhex. specialize (Hhex x Hx).
    intros ->. cbn in Hhex. intuition discriminate.
Qed.

(** X23.  Where the archive is written: the key never replaces the inbox
    directory in [os.path.join], so the path is the directory, a slash
    unless the directory ends in one, and the key; and for a file name
    without a slash the directory that is made is the one named by date
    and fingerprint. *)
Theorem staging_path_shape directory date listing nm :
  (exists sep,
      (sep = "" \/ sep = "/")
      /\ OsPath.join directory (inbox_key_of date listing nm)
         = directory +:+ sep +:+ inbox_key_of date listing nm)
  /\ (PyStr.lacks "/" nm = true ->
      OsPath.dirname (OsPath.join directory (inbox_key_of date listing nm))
      = OsPath.join directory ("inbox/" +:+ date +:+ "/" +:+ content_hash listing)).
Proof.
  assert (Hjoin : forall tail,
             exists sep,
               (sep = "" \/ sep = "/")
               /\ OsPath.join directory ("inbox/" +:+ tail)
                  = directory +:+ sep +:+ "inbox/" +:+ tail).
  { intros tail. unfold OsPath.join.
    change (PyStr.startswith ("inbox/" +:+ tail) "/") with false. cbn iota.
    destruct (String.eqb directory "" || PyStr.endswith directory "/").
    - exists "". split; [left; reflexivity | reflexivity].
    - exists "/". split; [right; reflexivity | reflexivity]. }
  split; [apply Hjoin|].
  intros Hnm. unfold inbox_key_of.
  destruct (content_hash_last listing) as (b & x & Hb & Hx).
  unfold OsPath.join.
  change (PyStr.startswith ("inbox/" +:+ ?t) "/") with false. cbn iota.
  set (prefix := if String.eqb directory "" || PyStr.endswith directory "/"
                 then directory else directory +:+ "/").
  assert (Hp : forall tail,
             (if String.eqb directory "" || PyStr.endswith directory "/"
              then directory +:+ tail else directory +:+ "/" +:+ tail)
             = prefix +:+ tail).
  { intros tail. unfold prefix.
    destruct (String.eqb directory "" || PyStr.endswith directory "/");
      [reflexivity | rewrite str_app_assoc; reflexivity]. }
  rewrite !Hp, Hb.
  replace (prefix +:+ "inbox/" +:+ date +:+ "/" +:+ (b +:+ String x "") +:+ "/" +:+ nm)
    with ((prefix +:+ "inbox/" +:+ date +:+ "/" +:+ b +:+ String x "") +:+ "/" +:+ nm)
    by (rewrite !str_app_assoc; reflexivity).
  unfold OsPath.dirname. rewrite (head_app _ nm Hnm), rstrip_slash_app_slash.
  replace (prefix +:+ "inbox/" +:+ date +:+ "/" +:+ b +:+ String x "")
    with ((prefix +:+ "inbox/" +:+ date +:+ "/" +:+ b) +:+ String x "")
    by (rewrite !str_app_assoc; reflexivity).
  rewrite (rstrip_slash_last _ x Hx).
  destruct (prefix +:+ "inbox/" +:+ date +:+ "/" +:+ b); reflexivity.
Qed.

Lemma invalid_listing_is_reported_verbatim_witness :
  upload_archive (Sample.settings None)
                 (mkEnv (UploadByDownloadForm (Sample.env (fun _ => true) None))
                        (requests_get (Sample.env (fun _ => true) None))
                        (fun _ _ => Members [mkFileMember "tool.exe" 1])
                        PyStr.lower Fnmatch.fnmatch Sample.bucket_of
                        (fun _ => None) (fun _ _ _ => None)
                        (fun _ => "2018-01-02") (fun _ => false) (fun _ _ => true)
                        (fun _ => None) (fun _ _ => None)
                        (fun _ _ => 1%N) (fun _ _ _ => 1%N))
                 0 (Sample.request "sym.zip" 100) Sample.world
  = Some (JsonResponse
            (JDict [("error",
                     JStr "Content of archive file contains the snippet 'exe' which is not allowed")])
            400, Sample.world, []).
Proof.
  apply (invalid_listing_is_reported_verbatim
           (Sample.settings None) _ 0 (Sample.request "sym.zip" 100) Sample.world
           "PK" "sym.zip" 100%N None [] [mkFileMember "tool.exe" 1]).
  - reflexivity.
  - discriminate.
  - reflexivity.
  - reflexivity.
Defined.

(** ** Instances of the further properties *)

Lemma outcomes_of_the_view_witness :
  exists payload w' tr,
    upload_archive (Sample.settings None) (Sample.env (fun _ => true) None)
                   5 (Sample.request "sym.zip" 100) Sample.world
    = Some (JsonResponse payload 201, w', tr)
    /\ ((exists message,
            JsonResponse payload 201
            = JsonResponse (JDict [("error", JStr message)]) 400)
        \/ (exists upload_obj,
              JsonResponse payload 201
              = JsonResponse (JDict [("upload", _serialize_upload upload_obj)]) 201
              /\ uploads w' = uploads Sample.world ++ [upload_obj])
        \/ (exists e, JsonResponse payload 201 = Raised e)).
Proof.
  eexists _, _, _. split; [vm_compute; reflexivity|].
  eapply (outcomes_of_the_view (Sample.settings None) (Sample.env (fun _ => true) None)
                              5 (Sample.request "sym.zip" 100) Sample.world).
  - lia.
  - vm_compute. reflexivity.
Defined.

Lemma rejection_has_no_effect_witness :
  exists payload w' tr,
    upload_archive (Sample.settings None) (Sample.env (fun _ => true) None)
                   5 (Sample.request "sym.zip" 0) Sample.world
    = Some (JsonResponse payload 400, w', tr)
    /\ w' = Sample.world /\ Forall (fun ev => is_requests_get ev = true) tr.
Proof.
  eexists _, _, _. split; [vm_compute; reflexivity|].
  eapply (rejection_has_no_effect (Sample.settings None) (Sample.env (fun _ => true) None)
                                  5 (Sample.request "sym.zip" 0) Sample.world).
  - lia.
  - vm_compute. reflexivity.
Defined.

Lemma exception_rolls_back_witness :
  exists exn w' tr,
    upload_archive (Sample.settings None)
                   (Sample.env (fun _ => true) (Some (ClientError "500")))
                   5 (Sample.request "sym.zip" 100) Sample.world
    = Some (Raised exn, w', tr)
    /\ uploads w' = uploads Sample.world /\ cache w' = cache Sample.world
    /\ clock w' = clock Sample.world /\ delays tr = [].
Proof.
  eexists _, _, _. split; [vm_compute; reflexivity|].
  eapply (exception_rolls_back
            (Sample.settings None) (Sample.env (fun _ => true) (Some (ClientError "500")))
            5 (Sample.request "sym.zip" 100) Sample.world).
  - lia.
  - vm_compute. reflexivity.
Defined.


Lemma uploaded_file_wins_witness :
  exists o w' tr,
    upload_archive (Sample.settings None) (Sample.env (fun _ => true) None)
                   5 (mkRequest [("sym.zip", UploadedFile.mk 100 "PK")]
                                [("url", "https://example.com/sym.zip")]
                                (mkUser "peter@example.com"))
                   Sample.world
    = Some (o, w', tr)
    /\ downloads tr = [].
Proof.
  edestruct (uploaded_file_wins
               (Sample.settings None) (Sample.env (fun _ => true) None)
               5 (mkRequest [("sym.zip", UploadedFile.mk 100 "PK")]
                            [("url", "https://example.com/sym.zip")]
                            (mkUser "peter@example.com"))
               Sample.world "sym.zip" (UploadedFile.mk 100 "PK") [])
    as [Hnone _].
  - lia.
  - reflexivity.
  - vm_compute. reflexivity.
  - eexists _, _, _. split; [vm_compute; reflexivity | exact Hnone].
Defined.

Lemma posted_url_is_fetched_first_witness :
  exists o w' tr,
    upload_archive (Sample.settings None) (Sample.env (fun _ => true) None)
                   5 Sample.download_request Sample.world
    = Some (o, w', tr)
    /\ downloads tr = ["https://example.com/sym.zip"].
Proof.
  edestruct (posted_url_is_fetched_first
               (Sample.settings None) (Sample.env (fun _ => true) None)
               5 Sample.download_request Sample.world
               "h"%char "ttps://example.com/sym.zip"
               "https://example.com/sym.zip" "sym.zip" 0%N)
    as [Hone _].
  - lia.
  - reflexivity.
  - reflexivity.
  - reflexivity.
  - vm_compute. reflexivity.
  - eexists _, _, _. split; [vm_compute; reflexivity | exact Hone].
Defined.

Lemma input_errors_are_reported_witness :
  upload_archive (Sample.settings None) (Sample.env (fun _ => true) None)
                 5 (mkRequest [] [] (mkUser "peter@example.com")) Sample.world
  = Some (JsonResponse
            (JDict [("error",
                     JStr "Must be multipart form data with at least one file")]) 400,
          Sample.world, []).
Proof.
  apply (proj1 (input_errors_are_reported
                  (Sample.settings None) (Sample.env (fun _ => true) None)
                  5 (mkRequest [] [] (mkUser "peter@example.com")) Sample.world)).
  - reflexivity.
  - left. reflexivity.
Defined.

Lemma clock_advances_by_the_sleeps_witness :
  exists payload w' tr,
    upload_archive (Sample.settings (Some "/inbox")) (Sample.env (fun _ => false) None)
                   5 (Sample.request "sym.zip" 100) Sample.world
    = Some (JsonResponse payload 201, w', tr)
    /\ clock w'
       = (clock Sample.world
          + staging_seconds (Sample.env (fun _ => false) None) tr
          + total (sleeps tr))%Z
    /\ (0 <= total (sleeps tr) <= 15)%Z.
Proof.
  edestruct (clock_advances_by_the_sleeps
               (Sample.settings (Some "/inbox")) (Sample.env (fun _ => false) None)
               5 (Sample.request "sym.zip" 100) Sample.world)
    as (Hclock & _ & Hbound & _).
  - lia.
  - vm_compute. reflexivity.
  - eexists _, _, _. split; [vm_compute; reflexivity|].
    split; [exact (Hclock _ eq_refl) | exact Hbound].
Defined.

Lemma dispatch_follows_staging_witness :
  exists o w' tr,
    upload_archive (Sample.settings None) (Sample.env (fun _ => true) None)
                   5 (Sample.request "sym.zip" 100) Sample.world
    = Some (o, w', tr)
    /\ (length (List.filter is_staging tr) <= 1)%nat.
Proof.
  edestruct (dispatch_follows_staging
               (Sample.settings None) (Sample.env (fun _ => true) None)
               5 (Sample.request "sym.zip" 100) Sample.world)
    as (_ & Honce & _).
  - lia.
  - vm_compute. reflexivity.
  - eexists _, _, _. split; [vm_compute; reflexivity | exact Honce].
Defined.

Lemma new_upload_dispatched_once_witness :
  exists payload w' tr ids,
    upload_archive (Sample.settings (Some "/inbox")) (Sample.env (fun _ => false) None)
                   5 (Sample.request "sym.zip" 100) Sample.world
    = Some (JsonResponse payload 201, w', tr)
    /\ delays tr = next_id Sample.world :: ids
    /\ ~ In (next_id Sample.world) ids.
Proof.
  edestruct (new_upload_dispatched_once
               (Sample.settings (Some "/inbox")) (Sample.env (fun _ => false) None)
               5 (Sample.request "sym.zip" 100) Sample.world)
    as (ids & Hdelays & _ & Hfresh).
  - lia.
  - vm_compute. reflexivity.
  - vm_compute. discriminate.
  - eexists _, _, _, ids. split; [vm_compute; reflexivity|]. split; [exact Hdelays|].
    apply Hfresh. apply List.Forall_cons; [discriminate | apply List.Forall_nil].
Defined.

Lemma slow_staging_dispatches_twice_witness :
  exists payload w' tr ids,
    upload_archive (mkSettings ["exe"] "https://s3.example.com/default"
                               Sample.exceptions (Some "/inbox") 5 5)
                   (Sample.env (fun _ => false) None)
                   5 (Sample.request "sym.zip" 100) Sample.world
    = Some (JsonResponse payload 201, w', tr)
    /\ delays tr = next_id Sample.world :: ids
    /\ In (next_id Sample.world) ids.
Proof.
  edestruct (slow_staging_dispatches_twice
               (mkSettings ["exe"] "https://s3.example.com/default"
                           Sample.exceptions (Some "/inbox") 5 5)
               (Sample.env (fun _ => false) None)
               5 (Sample.request "sym.zip" 100) Sample.world)
    as (ids & Hdelays & Hin).
  - lia.
  - vm_compute. reflexivity.
  - vm_compute. reflexivity.
  - vm_compute. reflexivity.
  - vm_compute. discriminate.
  - eexists _, _, _, ids. split; [vm_compute; reflexivity|]. split; [exact Hdelays | exact Hin].
Defined.

Lemma scan_writes_only_its_keys_witness :
  (reattempt_scan (Sample.settings None) 10000 [Sample.stuck] ∅).2 !! "reattempt:7"
  = (∅ : gmap string Cache.entry) !! "reattempt:7".
Proof.
  apply (proj1 (scan_writes_only_its_keys (Sample.settings None) 10000 [Sample.stuck] ∅)).
  intros id Hin. vm_compute in Hin. destruct Hin as [<- | []].
  vm_compute. discriminate.
Defined.

Lemma shorter_deny_list_still_passes_witness :
  check_symbols_archive_file_listing ["exe"] Sample.listing = None.
Proof.
  apply (shorter_deny_list_still_passes ["exe"] ["exe"; "dll"] Sample.listing).
  - intros snippet [<- | []]. left. reflexivity.
  - vm_compute. reflexivity.
Defined.

Lemma staging_key_decodes_witness :
  "2018-01-02" = "2018-01-02"
  /\ content_hash Sample.listing = content_hash Sample.listing
  /\ "sym.zip" = "sym.zip".
Proof.
  apply (staging_key_decodes "2018-01-02" Sample.listing "sym.zip"
                             "2018-01-02" Sample.listing "sym.zip").
  - reflexivity.
  - reflexivity.
Defined.

Lemma staging_path_shape_witness :
  OsPath.dirname (OsPath.join "/inbox" (inbox_key_of "2018-01-02" Sample.listing "sym.zip"))
  = OsPath.join "/inbox" ("inbox/" +:+ "2018-01-02" +:+ "/" +:+ content_hash Sample.listing).
Proof.
  apply (proj2 (staging_path_shape "/inbox" "2018-01-02" Sample.listing "sym.zip")).
  reflexivity.
Defined.
